(** * Musify: the preference-learning and ranking engine

    A shallow embedding of [MusicRecommendationEngine] (src/app.py) and the
    properties of its feature extractor, learning step, scoring, shuffle
    planner, recommendation generator and preference loader.

    Conventions of the embedding.
    - Python [str] is [string]; track names are taken to be ASCII, so
      [str.lower] maps [A-Z] to [a-z] and the white space of [str.strip]
      and of the regular expression class [\s] is the ASCII white space
      (codes 9-13, 28-31 and 32).
    - Python [float] is the field [Q] of exact rationals: rounding of
      binary64 arithmetic is not modelled, except in [Binary64], which
      redoes the arithmetic of the worked example on binary64 numbers.
      Python [int] is [Z].
    - A [dict] with dynamic keys is an association list in insertion order
      ([dict V]); a [dict] with a fixed set of keys is a record.
    - [datetime.now()] and the random module are inputs of the operations
      that consult them. *)

From Stdlib Require Import String Ascii List Bool Arith ZArith QArith Qminmax.
From Stdlib Require Import Lia Lqa Permutation Sorted DecimalString.
From Stdlib Require PrimFloat.
Import ListNotations.

Local Open Scope string_scope.
Local Open Scope list_scope.

(* ================================================================== *)
(** ** Python strings *)

Module PyStr.

Definition is_upper (c : ascii) : bool :=
  let n := nat_of_ascii c in (65 <=? n)%nat && (n <=? 90)%nat.

Definition lower_char (c : ascii) : ascii :=
  if is_upper c then ascii_of_nat (nat_of_ascii c + 32) else c.

(** [s.lower()] *)
Fixpoint lower (s : string) : string :=
  match s with
  | EmptyString => EmptyString
  | String c s' => String (lower_char c) (lower s')
  end.

(** [c.isspace()], which is also the class [\s] of [re] on [str]. *)
Definition is_space (c : ascii) : bool :=
  let n := nat_of_ascii c in
  ((9 <=? n)%nat && (n <=? 13)%nat)
  || ((28 <=? n)%nat && (n <=? 32)%nat).

Definition is_empty (s : string) : bool :=
  match s with EmptyString => true | _ => false end.

Fixpoint lstrip (s : string) : string :=
  match s with
  | EmptyString => EmptyString
  | String c s' => if is_space c then lstrip s' else s
  end.

Fixpoint rstrip (s : string) : string :=
  match s with
  | EmptyString => EmptyString
  | String c s' =>
      let r := rstrip s' in
      if is_space c && is_empty r then EmptyString else String c r
  end.

(** [s.strip()] *)
Definition strip (s : string) : string := rstrip (lstrip s).

(** [s.startswith(p)] *)
Fixpoint startswith (p s : string) : bool :=
  match p, s with
  | EmptyString, _ => true
  | String _ _, EmptyString => false
  | String a p', String b s' => Ascii.eqb a b && startswith p' s'
  end.

(** [sub in s] *)
Fixpoint contains (sub s : string) : bool :=
  startswith sub s
  || match s with
     | EmptyString => false
     | String _ s' => contains sub s'
     end.

Fixpoint drop (n : nat) (s : string) : string :=
  match n, s with
  | O, _ => s
  | S _, EmptyString => EmptyString
  | S n', String _ s' => drop n' s'
  end.

(** [s.split(sep, 1)] when [sep] occurs in [s]: the text before and the
    text after the first occurrence; [None] when [sep] does not occur
    (Python then returns the one-element list [[s]]). *)
Fixpoint split_once (sep s : string) : option (string * string) :=
  if startswith sep s then Some (EmptyString, drop (String.length sep) s)
  else match s with
       | EmptyString => None
       | String c s' =>
           match split_once sep s' with
           | Some (l, r) => Some (String c l, r)
           | None => None
           end
       end.

(** [s.rfind(c)] for a one-character [c], as Python returns it: the
    index of the last occurrence, or -1. *)
Fixpoint rfind_from (c : ascii) (s : string) (i : Z) (last : Z) : Z :=
  match s with
  | EmptyString => last
  | String d s' => rfind_from c s' (i + 1) (if Ascii.eqb c d then i else last)
  end.

Definition rfind (c : ascii) (s : string) : Z := rfind_from c s 0 (-1).

(** [s[a:b]] for [0 <= a]. *)
Definition slice (s : string) (a b : Z) : string :=
  substring (Z.to_nat a) (Z.to_nat (b - a)) s.

Fixpoint all_dots (s : string) : bool :=
  match s with
  | EmptyString => true
  | String c s' => Ascii.eqb c "." && all_dots s'
  end.

(** [os.path.splitext(p)[0]] of [posixpath]: the extension starts at the
    last dot of the last path component, unless that component has only
    dots before it. *)
Definition splitext_root (p : string) : string :=
  let sepIndex := rfind "/" p in
  let dotIndex := rfind "." p in
  if (sepIndex <? dotIndex)%Z
  then if all_dots (slice p (sepIndex + 1) dotIndex)
       then p
       else slice p 0 dotIndex
  else p.

(** The character class of the pattern [[\s\-_\.\(\)\[\],&]+]. *)
Definition is_delim (c : ascii) : bool :=
  is_space c
  || existsb (Ascii.eqb c) ["-"; "_"; "."; "("; ")"; "["; "]"; ","; "&"]%char.

Definition starts_with_delim (s : string) : bool :=
  match s with
  | EmptyString => false
  | String c _ => is_delim c
  end.

(** [re.split(r'[\s\-_\.\(\)\[\],&]+', s)]: the pieces of [s] between the
    maximal runs of delimiters; a run at either end of [s] leaves an
    empty piece there, and the empty string gives one empty piece. *)
Fixpoint re_split (s : string) : list string :=
  match s with
  | EmptyString => [EmptyString]
  | String c s' =>
      if is_delim c
      then if starts_with_delim s' then re_split s'
           else EmptyString :: re_split s'
      else match re_split s' with
           | p :: ps => String c p :: ps
           | [] => [String c EmptyString]
           end
  end.

(** [str(n)] for a natural number. *)
Definition str_of_nat (n : nat) : string :=
  NilEmpty.string_of_uint (Nat.to_uint n).

End PyStr.

(* ================================================================== *)
(** ** Feature extraction *)

Module Features.
Import PyStr.

Record t := mk {
  keywords : list string;
  artist : option string;
  potential_genre : list string;
  mood_hints : list string;
  language_hints : list string
}.

Definition genre_patterns : list (string * list string) :=
  [ ("electronic", ["remix"; "edm"; "house"; "techno"; "dubstep"; "trance";
                    "bass"; "drop"; "beat"]);
    ("hiphop", ["rap"; "hip"; "hop"; "trap"; "flow"; "bars"; "cypher";
                "freestyle"]);
    ("rock", ["rock"; "metal"; "guitar"; "punk"; "grunge"; "alternative"]);
    ("pop", ["pop"; "dance"; "party"; "club"; "hit"]);
    ("classical", ["symphony"; "orchestra"; "classical"; "piano"; "violin";
                   "opus"]);
    ("jazz", ["jazz"; "blues"; "swing"; "soul"; "funk"]);
    ("ambient", ["ambient"; "chill"; "relax"; "calm"; "peaceful";
                 "meditation"; "sleep"]);
    ("indian", ["bollywood"; "hindi"; "punjabi"; "desi"; "bhangra";
                "indian"]);
    ("lofi", ["lofi"; "lo-fi"; "study"; "beats"; "aesthetic"]);
    ("acoustic", ["acoustic"; "unplugged"; "live"; "cover"]) ].

Definition mood_patterns : list (string * list string) :=
  [ ("energetic", ["energy"; "hype"; "fire"; "lit"; "party"; "dance";
                   "fast"; "power"]);
    ("sad", ["sad"; "cry"; "tears"; "alone"; "lonely"; "heartbreak";
             "broken"; "miss"]);
    ("happy", ["happy"; "joy"; "smile"; "love"; "sunshine"; "good"; "best"]);
    ("romantic", ["love"; "romance"; "heart"; "kiss"; "forever"; "baby";
                  "darling"]);
    ("motivational", ["motivation"; "inspire"; "dream"; "rise"; "success";
                      "champion"; "win"]) ].

(** The loop over a pattern table: a tag is appended once, at the first
    of its patterns that occurs in [name_lower]. *)
Definition match_patterns (table : list (string * list string))
           (name_lower : string) : list string :=
  map fst
      (filter (fun entry => existsb (fun p => contains p name_lower)
                                    (snd entry))
              table).

(** The words kept as keywords: [w.strip()] for each piece [w] with
    [len(w.strip()) >= 3]. *)
Definition keywords_of (name_lower : string) : list string :=
  map strip
      (filter (fun w => (3 <=? String.length (strip w))%nat)
              (re_split name_lower)).

(** The artist and the text analysed further, as the two branches on the
    separators leave them. *)
Definition split_artist (name : string) : option string * string :=
  let name_lower := lower name in
  if contains " - " name then
    match split_once " - " name with
    | Some (l, r) => (Some (strip l), lower r)
    | None => (Some (strip name), name_lower)
    end
  else if contains " by " name_lower then
    match split_once " by " name_lower with
    | Some (_, r) => (Some (strip r), name_lower)
    | None => (None, name_lower)
    end
  else (None, name_lower).

(** [_extract_features] *)
Definition extract_features (song_name : string) : t :=
  let name := splitext_root song_name in
  let '(artist, name_lower) := split_artist name in
  {| keywords := keywords_of name_lower;
     artist := artist;
     potential_genre := match_patterns genre_patterns name_lower;
     mood_hints := match_patterns mood_patterns name_lower;
     language_hints := [] |}.

End Features.

(* ================================================================== *)
(** ** Numbers *)

Local Open Scope Q_scope.

Definition Qltb (a b : Q) : bool := negb (Qle_bool b a).

(** [min(a, b)] and [max(a, b)] of Python: the first argument is kept
    unless the second is strictly smaller (resp. greater). *)
Definition py_min (a b : Q) : Q := if Qltb b a then b else a.
Definition py_max (a b : Q) : Q := if Qltb a b then b else a.

(** [max(0, min(1, x))] *)
Definition clamp01 (x : Q) : Q := py_max 0 (py_min 1 x).

(* ================================================================== *)
(** ** Dictionaries with dynamic keys *)

Module Dict.

Definition t (V : Type) : Type := list (string * V).

Section Ops.
Context {V : Type}.

(** [d.get(k)] *)
Fixpoint get (k : string) (d : t V) : option V :=
  match d with
  | [] => None
  | (k', v) :: d' => if String.eqb k k' then Some v else get k d'
  end.

(** [k in d] *)
Definition mem (k : string) (d : t V) : bool :=
  match get k d with Some _ => true | None => false end.

(** [d.get(k, dflt)] *)
Definition getd (dflt : V) (k : string) (d : t V) : V :=
  match get k d with Some v => v | None => dflt end.

(** [d[k] = v]: an existing key keeps its place, a new key goes to the
    end. *)
Fixpoint set (k : string) (v : V) (d : t V) : t V :=
  match d with
  | [] => [(k, v)]
  | (k', v') :: d' =>
      if String.eqb k k' then (k', v) :: d' else (k', v') :: set k v d'
  end.

(** [d.items()] *)
Definition items (d : t V) : list (string * V) := d.

End Ops.

End Dict.

(* ================================================================== *)
(** ** The preference model *)

(** What [datetime.now()] gives during one operation. *)
Record Clock := mkClock {
  hour : nat;
  isoformat : string
}.

Record SongStats := mkSongStats {
  play_count : Z;
  skip_count : Z;
  total_completion : Q;
  features : Features.t;
  first_played : string;
  last_played : option string
}.

Record Prefs := mkPrefs {
  song_stats : Dict.t SongStats;
  keyword_scores : Dict.t Q;
  artist_scores : Dict.t Q;
  time_preferences : Dict.t (Dict.t Z);
  genre_hints : Dict.t Q;
  total_plays : Z;
  total_skips : Z;
  learning_rate : Q;
  last_updated : option string
}.

(** The [default] dictionary of [_load_preferences], which is also what
    [reset_preferences] installs. *)
Definition default_prefs : Prefs :=
  {| song_stats := [];
     keyword_scores := [];
     artist_scores := [];
     time_preferences := map (fun h => (PyStr.str_of_nat h, [])) (seq 0 24);
     genre_hints := [];
     total_plays := 0;
     total_skips := 0;
     learning_rate := 0.1;
     last_updated := None |}.

Definition upd_song_stats (f : Dict.t SongStats -> Dict.t SongStats)
           (m : Prefs) : Prefs :=
  mkPrefs (f (song_stats m)) (keyword_scores m) (artist_scores m)
          (time_preferences m) (genre_hints m) (total_plays m)
          (total_skips m) (learning_rate m) (last_updated m).

Definition upd_keyword_scores (f : Dict.t Q -> Dict.t Q) (m : Prefs) : Prefs :=
  mkPrefs (song_stats m) (f (keyword_scores m)) (artist_scores m)
          (time_preferences m) (genre_hints m) (total_plays m)
          (total_skips m) (learning_rate m) (last_updated m).

Definition upd_artist_scores (f : Dict.t Q -> Dict.t Q) (m : Prefs) : Prefs :=
  mkPrefs (song_stats m) (keyword_scores m) (f (artist_scores m))
          (time_preferences m) (genre_hints m) (total_plays m)
          (total_skips m) (learning_rate m) (last_updated m).

Definition upd_time_preferences
           (f : Dict.t (Dict.t Z) -> Dict.t (Dict.t Z)) (m : Prefs) : Prefs :=
  mkPrefs (song_stats m) (keyword_scores m) (artist_scores m)
          (f (time_preferences m)) (genre_hints m) (total_plays m)
          (total_skips m) (learning_rate m) (last_updated m).

Definition upd_genre_hints (f : Dict.t Q -> Dict.t Q) (m : Prefs) : Prefs :=
  mkPrefs (song_stats m) (keyword_scores m) (artist_scores m)
          (time_preferences m) (f (genre_hints m)) (total_plays m)
          (total_skips m) (learning_rate m) (last_updated m).

Definition upd_total_plays (f : Z -> Z) (m : Prefs) : Prefs :=
  mkPrefs (song_stats m) (keyword_scores m) (artist_scores m)
          (time_preferences m) (genre_hints m) (f (total_plays m))
          (total_skips m) (learning_rate m) (last_updated m).

Definition upd_total_skips (f : Z -> Z) (m : Prefs) : Prefs :=
  mkPrefs (song_stats m) (keyword_scores m) (artist_scores m)
          (time_preferences m) (genre_hints m) (total_plays m)
          (f (total_skips m)) (learning_rate m) (last_updated m).

Definition set_last_updated (v : option string) (m : Prefs) : Prefs :=
  mkPrefs (song_stats m) (keyword_scores m) (artist_scores m)
          (time_preferences m) (genre_hints m) (total_plays m)
          (total_skips m) (learning_rate m) v.

Definition upd_play_count (f : Z -> Z) (s : SongStats) : SongStats :=
  mkSongStats (f (play_count s)) (skip_count s) (total_completion s)
              (features s) (first_played s) (last_played s).

Definition upd_skip_count (f : Z -> Z) (s : SongStats) : SongStats :=
  mkSongStats (play_count s) (f (skip_count s)) (total_completion s)
              (features s) (first_played s) (last_played s).

Definition upd_total_completion (f : Q -> Q) (s : SongStats) : SongStats :=
  mkSongStats (play_count s) (skip_count s) (f (total_completion s))
              (features s) (first_played s) (last_played s).

Definition set_last_played (v : option string) (s : SongStats) : SongStats :=
  mkSongStats (play_count s) (skip_count s) (total_completion s)
              (features s) (first_played s) v.

(* ================================================================== *)
(** ** Methods of the engine: state and exceptions *)

Inductive exn : Type :=
| KeyError (key : string).

Inductive outcome (A : Type) : Type :=
| Returned (a : A)
| Raised (e : exn).

Arguments Returned {A} a.
Arguments Raised {A} e.

(** A method reads and writes [self.data] and either returns or raises;
    what it wrote before raising stays written. *)
Definition M (A : Type) : Type := Prefs -> outcome A * Prefs.

Definition ret {A : Type} (a : A) : M A := fun m => (Returned a, m).

Definition bind {A B : Type} (c : M A) (k : A -> M B) : M B :=
  fun m =>
    match c m with
    | (Returned a, m') => k a m'
    | (Raised e, m') => (Raised e, m')
    end.

Definition gets {A : Type} (f : Prefs -> A) : M A :=
  fun m => (Returned (f m), m).

Definition modify (f : Prefs -> Prefs) : M unit :=
  fun m => (Returned tt, f m).

Definition raise {A : Type} (e : exn) : M A := fun m => (Raised e, m).

Declare Scope engine_scope.
Delimit Scope engine_scope with engine.

Notation "x <- c ;; k" := (bind c (fun x => k))
  (at level 61, c at next level, right associativity) : engine_scope.
Notation "c ;; k" := (bind c (fun _ => k))
  (at level 61, right associativity) : engine_scope.

Local Open Scope engine_scope.

(** [for x in l: body(x)] *)
Fixpoint for_each {A : Type} (l : list A) (body : A -> M unit) : M unit :=
  match l with
  | [] => ret tt
  | x :: l' => body x ;; for_each l' body
  end.

Definition when (b : bool) (c : M unit) : M unit := if b then c else ret tt.

(** The state a method leaves and what it returned. *)
Definition state_after {A : Type} (c : M A) (m : Prefs) : Prefs := snd (c m).
Definition result_of {A : Type} (c : M A) (m : Prefs) : outcome A := fst (c m).

(* ================================================================== *)
(** ** record_play *)

(** [self.data['song_stats'][song_name]], present once the entry has been
    initialised. *)
Definition empty_stats (f : Features.t) (now : string) : SongStats :=
  {| play_count := 0; skip_count := 0; total_completion := 0;
     features := f; first_played := now; last_played := None |}.

Definition touch (song_name : string) (f : SongStats -> SongStats)
           (d : Dict.t SongStats) : Dict.t SongStats :=
  match Dict.get song_name d with
  | Some s => Dict.set song_name (f s) d
  | None => d
  end.

Definition upd_stats (song_name : string) (f : SongStats -> SongStats)
  : M unit :=
  modify (upd_song_stats (touch song_name f)).

(** The three statements that update one learned weight:
    seed at 0.5 when absent, add [lr * (reward - bias)], clamp. *)
Definition learn (upd : (Dict.t Q -> Dict.t Q) -> Prefs -> Prefs)
           (lr reward bias : Q) (key : string) : M unit :=
  modify (upd (fun d => if Dict.mem key d then d else Dict.set key 0.5 d)) ;;
  modify (upd (fun d => Dict.set key (Dict.getd 0 key d + lr * (reward - bias)) d)) ;;
  modify (upd (fun d => Dict.set key (clamp01 (Dict.getd 0 key d)) d)).

(** [self.data['time_preferences'][h]]: a missing bucket is a [KeyError]. *)
Definition time_bucket (h : string) : M (Dict.t Z) :=
  fun m => match Dict.get h (time_preferences m) with
           | Some b => (Returned b, m)
           | None => (Raised (KeyError h), m)
           end.

(** [self.data['time_preferences'][h][k] = v] *)
Definition store_time (h k : string) (v : Z) : M unit :=
  b <- time_bucket h ;;
  modify (upd_time_preferences (Dict.set h (Dict.set k v b))).

(** [_save_preferences]: stamps [last_updated]; the write to the file and
    its failure (which is only printed) leave the model as it is. *)
Definition save_preferences (c : Clock) : M unit :=
  modify (set_last_updated (Some (isoformat c))).

(** The completion ratio of a play that was not skipped. *)
Definition completion_ratio (completed : bool)
           (duration_played total_duration : Q) : Q :=
  if Qltb 0 total_duration
  then py_min 1 (duration_played / total_duration)
  else if completed then 1 else 0.5.

(** [record_play], block by block.  First the statistics of the song: the
    entry is created when absent, then [play_count], [last_played] and
    [total_plays] are written. *)
Definition note_play (c : Clock) (song_name : string) (f : Features.t)
  : M unit :=
  known <- gets (fun m => Dict.mem song_name (song_stats m)) ;;
  when (negb known)
       (modify (upd_song_stats
                  (Dict.set song_name (empty_stats f (isoformat c))))) ;;
  upd_stats song_name (upd_play_count (fun n => n + 1)%Z) ;;
  upd_stats song_name (set_last_played (Some (isoformat c))) ;;
  modify (upd_total_plays (fun n => n + 1)%Z).

(** The [if skipped: ... else: ...] block, which yields the reward. *)
Definition rate_play (song_name : string) (completed : bool)
           (duration_played total_duration : Q) (skipped : bool) : M Q :=
  if skipped then
    upd_stats song_name (upd_skip_count (fun n => n + 1)%Z) ;;
    modify (upd_total_skips (fun n => n + 1)%Z) ;;
    ret (- 0.3)
  else
    let completion :=
      completion_ratio completed duration_played total_duration in
    upd_stats song_name (upd_total_completion (fun t => t + completion)) ;;
    ret (completion * 0.5 + (if completed then 0.5 else 0)).

(** The three blocks that update keyword, artist and genre weights. *)
Definition learn_weights (f : Features.t) (reward : Q) : M unit :=
  lr <- gets learning_rate ;;
  for_each (Features.keywords f) (learn upd_keyword_scores lr reward 0.5) ;;
  match Features.artist f with
  | Some a =>
      when (negb (PyStr.is_empty a))
           (learn upd_artist_scores lr reward 0.3 (PyStr.lower a))
  | None => ret tt
  end ;;
  for_each (Features.potential_genre f) (learn upd_genre_hints lr reward 0.5).

(** The block that counts the first five keywords in the bucket of the
    current hour. *)
Definition count_hour (current_hour : string) (f : Features.t) : M unit :=
  for_each (firstn 5 (Features.keywords f))
           (fun keyword =>
              b <- time_bucket current_hour ;;
              when (negb (Dict.mem keyword b))
                   (store_time current_hour keyword 0) ;;
              b' <- time_bucket current_hour ;;
              store_time current_hour keyword
                         (Dict.getd 0%Z keyword b' + 1)%Z).

(** [record_play]; the value returned is the ['reward'] of the
    dictionary that the method returns. *)
Definition record_play (c : Clock) (song_name : string) (completed : bool)
           (duration_played total_duration : Q) (skipped : bool) : M Q :=
  let features := Features.extract_features song_name in
  let current_hour := PyStr.str_of_nat (hour c) in
  note_play c song_name features ;;
  reward <- rate_play song_name completed duration_played total_duration
                      skipped ;;
  learn_weights features reward ;;
  count_hour current_hour features ;;
  save_preferences c ;;
  ret reward.

(** A play event, and the model after a sequence of them: an event whose
    call raises leaves what it had written. *)
Record Event := mkEvent {
  ev_clock : Clock;
  ev_song : string;
  ev_completed : bool;
  ev_played : Q;
  ev_total : Q;
  ev_skipped : bool
}.

Definition record_event (e : Event) : M Q :=
  record_play (ev_clock e) (ev_song e) (ev_completed e) (ev_played e)
              (ev_total e) (ev_skipped e).

Definition record_all (events : list Event) (m : Prefs) : Prefs :=
  fold_left (fun m e => state_after (record_event e) m) events m.

(* ================================================================== *)
(** ** calculate_song_score *)

Record ScoreData := mkScoreData {
  score : Q;
  components : Dict.t Q;
  scored_features : Features.t
}.

(** The running [score] and [score_components] of one call. *)
Definition Acc : Type := (Q * Dict.t Q)%type.

(** The loop that sums the known weights of the keywords and counts them. *)
Definition known_sum (scores : Dict.t Q) (keys : list string) : Q * Z :=
  fold_left
    (fun (acc : Q * Z) k =>
       match Dict.get k scores with
       | Some w => (fst acc + w, (snd acc + 1)%Z)
       | None => acc
       end)
    keys (0, 0%Z).

Definition keyword_step (scores : Dict.t Q) (f : Features.t) (acc : Acc) : Acc :=
  let '(keyword_score, keyword_count) := known_sum scores (Features.keywords f) in
  if (0 <? keyword_count)%Z then
    let keyword_score := keyword_score / inject_Z keyword_count in
    (fst acc + (keyword_score - 0.5) * 0.3,
     Dict.set "keywords" keyword_score (snd acc))
  else acc.

Definition artist_step (scores : Dict.t Q) (f : Features.t) (acc : Acc) : Acc :=
  match Features.artist f with
  | Some a =>
      if PyStr.is_empty a then acc
      else match Dict.get (PyStr.lower a) scores with
           | Some artist_score =>
               (fst acc + (artist_score - 0.5) * 0.25,
                Dict.set "artist" artist_score (snd acc))
           | None => acc
           end
  | None => acc
  end.

(** The genre block: entered when the track has any genre tag; the known
    weights are summed and the sum is divided by the number of tags. *)
Definition genre_step (hints : Dict.t Q) (f : Features.t) (acc : Acc) : Acc :=
  match Features.potential_genre f with
  | [] => acc
  | _ :: _ =>
      let genre_score := fst (known_sum hints (Features.potential_genre f)) in
      let genre_score :=
        genre_score / inject_Z (Z.of_nat (length (Features.potential_genre f))) in
      (fst acc + (genre_score - 0.5) * 0.2,
       Dict.set "genre" genre_score (snd acc))
  end.

Definition time_step (time_prefs : Dict.t Z) (f : Features.t) (acc : Acc) : Acc :=
  let time_boost :=
    fold_left (fun (t : Z) k =>
                 match Dict.get k time_prefs with
                 | Some n => (t + n)%Z
                 | None => t
                 end)
              (Features.keywords f) 0%Z in
  if (0 <? time_boost)%Z
  then (fst acc + py_min 0.1 (inject_Z time_boost / 100), snd acc)
  else acc.

Section Scoring.

(** [math.log] *)
Variable log : Q -> Q.

Definition history_step (stats : option SongStats) (acc : Acc) : Acc :=
  match stats with
  | None => acc
  | Some stats =>
      let play_count := play_count stats in
      let skip_ratio :=
        inject_Z (skip_count stats)
        / inject_Z (if (1 <? play_count)%Z then play_count else 1%Z) in
      let acc :=
        if (0 <? play_count)%Z then
          let familiarity_boost := log (inject_Z (play_count + 1)) * 0.05 in
          (fst acc + py_min 0.15 familiarity_boost, snd acc)
        else acc in
      let acc := (fst acc - skip_ratio * 0.2, snd acc) in
      if (0 <? play_count)%Z then
        let avg_completion := total_completion stats / inject_Z play_count in
        (fst acc + (avg_completion - 0.5) * 0.15,
         Dict.set "completion" avg_completion (snd acc))
      else acc
  end.

Definition calculate_song_score (c : Clock) (song_name : string)
  : M ScoreData :=
  let features := Features.extract_features song_name in
  let current_hour := PyStr.str_of_nat (hour c) in
  let acc : Acc := (0.5, []) in
  kw <- gets keyword_scores ;;
  let acc := keyword_step kw features acc in
  ar <- gets artist_scores ;;
  let acc := artist_step ar features acc in
  gh <- gets genre_hints ;;
  let acc := genre_step gh features acc in
  time_prefs <- gets (fun m => Dict.getd [] current_hour (time_preferences m)) ;;
  let acc := time_step time_prefs features acc in
  stats <- gets (fun m => Dict.get song_name (song_stats m)) ;;
  let acc := history_step stats acc in
  ret {| score := clamp01 (fst acc);
         components := snd acc;
         scored_features := features |}.

(* ================================================================ *)
(** ** get_smart_shuffle_order *)

Record Scored := mkScored {
  name : string;
  scored : Q;
  data : ScoreData
}.

(** The random module: the raw draws still to come; [randbelow n]
    reduces the next one modulo [n]. *)
Definition Rng : Type := list nat.

Definition randbelow (n : nat) (g : Rng) : nat * Rng :=
  match g with
  | [] => (0%nat, [])
  | r :: g' => (r mod n, g')
  end.

(** [random.randint(a, b)] *)
Definition randint (a b : nat) (g : Rng) : nat * Rng :=
  let '(r, g') := randbelow (b - a + 1) g in ((a + r)%nat, g').

Section Lists.
Context {A : Type}.

(** [l[i] = v], for [i] in range. *)
Fixpoint update (i : nat) (v : A) (l : list A) : list A :=
  match l, i with
  | [], _ => []
  | _ :: l', O => v :: l'
  | x :: l', S i' => x :: update i' v l'
  end.

(** [l[i], l[j] = l[j], l[i]] *)
Definition swap (i j : nat) (l : list A) : list A :=
  match nth_error l i, nth_error l j with
  | Some a, Some b => update j a (update i b l)
  | _, _ => l
  end.

(** [random.shuffle]: for [i] from [len(x) - 1] down to 1, exchange
    [x[i]] with [x[randbelow(i + 1)]]. *)
Fixpoint shuffle_from (i : nat) (x : list A) (g : Rng) : list A * Rng :=
  match i with
  | O => (x, g)
  | S i' =>
      let '(j, g') := randbelow (S i) g in
      shuffle_from i' (swap i j x) g'
  end.

Definition shuffle (x : list A) (g : Rng) : list A * Rng :=
  shuffle_from (length x - 1) x g.

(** [l.sort(key=key, reverse=True)]: stable, descending. *)
Fixpoint insert_desc (key : A -> Q) (x : A) (l : list A) : list A :=
  match l with
  | [] => [x]
  | y :: l' =>
      if Qltb (key x) (key y) then y :: insert_desc key x l' else x :: l
  end.

Definition sort_desc (key : A -> Q) (l : list A) : list A :=
  fold_right (insert_desc key) [] l.

(** The inner [for _ in range(pref_count)] of the interleaving. *)
Fixpoint take_preferred (count : nat) (preferred : list A)
         (pref_idx : nat) (result : list A) : nat * list A :=
  match count with
  | O => (pref_idx, result)
  | S count' =>
      match nth_error preferred pref_idx with
      | Some x =>
          take_preferred count' preferred (S pref_idx) (result ++ [x])
      | None => take_preferred count' preferred pref_idx result
      end
  end.

(** The [while] loop of the interleaving, for at most [fuel] rounds. *)
Fixpoint interleave (fuel : nat) (preferred others : list A)
         (pref_idx other_idx : nat) (result : list A) (g : Rng)
  : option (list A) :=
  if (pref_idx <? length preferred)%nat
     || (other_idx <? length others)%nat
  then match fuel with
       | O => None
       | S fuel' =>
           let '(pref_count, g') := randint 2 3 g in
           let '(pref_idx', result') :=
             take_preferred pref_count preferred pref_idx result in
           match nth_error others other_idx with
           | Some y =>
               interleave fuel' preferred others pref_idx'
                          (S other_idx) (result' ++ [y]) g'
           | None =>
               interleave fuel' preferred others pref_idx'
                          other_idx result' g'
           end
       end
  else Some result.

End Lists.

(** [xs = []; for x in l: xs.append(f(x))] for a method [f]. *)
Fixpoint map_m {A B : Type} (f : A -> M B) (l : list A) : M (list B) :=
  match l with
  | [] => ret []
  | x :: l' => y <- f x ;; ys <- map_m f l' ;; ret (y :: ys)
  end.

(** The result is [None] only if the [while] loop were to need more
    rounds than there are items to place. *)
Definition get_smart_shuffle_order (c : Clock) (songs : list string)
           (g : Rng) : M (option (list Scored)) :=
  match songs with
  | [] => ret (Some [])
  | _ :: _ =>
      scored_songs <-
        map_m (fun song =>
                 score_data <- calculate_song_score c song ;;
                 ret {| name := song;
                        scored := score score_data;
                        data := score_data |})
              songs ;;
      let scored_songs := sort_desc scored scored_songs in
      let mid := (length scored_songs / 2)%nat in
      let preferred := firstn (Nat.max 1 mid) scored_songs in
      let others := skipn mid scored_songs in
      let '(preferred, g) := shuffle preferred g in
      let '(others, g) := shuffle others g in
      ret (interleave (length preferred + length others)
                      preferred others 0 0 [] g)
  end.

End Scoring.

(* ================================================================== *)
(** ** get_download_recommendations *)

Module Title.
Import PyStr.

Definition is_lower (c : ascii) : bool :=
  let n := nat_of_ascii c in (97 <=? n)%nat && (n <=? 122)%nat.

Definition upper_char (c : ascii) : ascii :=
  if is_lower c then ascii_of_nat (nat_of_ascii c - 32) else c.

(** [s.title()]: a cased character is upper-cased after an uncased one
    and lower-cased after a cased one. *)
Fixpoint title_from (previous_is_cased : bool) (s : string) : string :=
  match s with
  | EmptyString => EmptyString
  | String c s' =>
      String (if previous_is_cased then lower_char c else upper_char c)
             (title_from (is_lower c || is_upper c) s')
  end.

Definition title (s : string) : string := title_from false s.

End Title.

Record Recommendation := mkRecommendation {
  query : string;
  reason : string;
  confidence : Q;
  type : string
}.

Definition genre_queries : Dict.t string :=
  [ ("electronic", "best electronic dance music 2024");
    ("hiphop", "top hip hop rap songs");
    ("rock", "best rock songs playlist");
    ("pop", "top pop hits 2024");
    ("classical", "beautiful classical music pieces");
    ("jazz", "best jazz songs relaxing");
    ("ambient", "chill ambient music relax");
    ("indian", "top bollywood hindi songs");
    ("lofi", "lofi hip hop beats study");
    ("acoustic", "acoustic covers popular songs") ].

(** [l[:count]] for an [int] [count]; a negative [count] drops that many
    items from the end. *)
Definition slice_to {A : Type} (count : Z) (l : list A) : list A :=
  if (0 <=? count)%Z then firstn (Z.to_nat count) l
  else firstn (length l - Z.to_nat (- count)) l.

(** [sorted(d.items(), key=lambda x: x[1], reverse=True)] *)
Definition sorted_items (d : Dict.t Q) : list (string * Q) :=
  sort_desc snd (Dict.items d).

Definition artist_recommendations (top_artists : list (string * Q))
  : list Recommendation :=
  map (fun e =>
         {| query := (fst e ++ " popular songs")%string;
            reason := ("You seem to enjoy " ++ Title.title (fst e))%string;
            confidence := snd e;
            type := "artist" |})
      (filter (fun e => Qltb 0.55 (snd e)) (firstn 3 top_artists)).

Definition genre_recommendations (top_genres : list (string * Q))
  : list Recommendation :=
  map (fun e =>
         {| query := Dict.getd ("best " ++ fst e ++ " music")%string (fst e)
                               genre_queries;
            reason := ("Based on your " ++ fst e ++ " listening patterns")%string;
            confidence := snd e;
            type := "genre" |})
      (filter (fun e => Qltb 0.55 (snd e)) top_genres).

Definition keyword_recommendations (top_keywords : list (string * Q))
  : list Recommendation :=
  if (2 <=? length top_keywords)%nat then
    let strong_keywords :=
      firstn 3 (map fst (filter (fun e => Qltb 0.6 (snd e)) top_keywords)) in
    match strong_keywords with
    | [] => []
    | _ :: _ =>
        [ {| query := (String.concat " " (firstn 2 strong_keywords)
                       ++ " songs")%string;
             reason := ("Based on your interest in "
                        ++ String.concat ", " (firstn 2 strong_keywords))%string;
             confidence := 0.7;
             type := "keywords" |} ]
    end
  else [].

Definition time_recommendations (current_hour : nat) : list Recommendation :=
  if (22 <=? current_hour)%nat || (current_hour <? 6)%nat then
    [ {| query := "calm relaxing night music";
         reason := "Perfect for late night listening";
         confidence := 0.6;
         type := "time" |} ]
  else if (6 <=? current_hour)%nat && (current_hour <? 10)%nat then
    [ {| query := "morning motivation music energetic";
         reason := "Great for starting your day";
         confidence := 0.6;
         type := "time" |} ]
  else [].

Definition get_download_recommendations (c : Clock) (count : Z)
  : M (list Recommendation) :=
  top_keywords <- gets (fun m => firstn 10 (sorted_items (keyword_scores m))) ;;
  top_artists <- gets (fun m => firstn 5 (sorted_items (artist_scores m))) ;;
  top_genres <- gets (fun m => firstn 3 (sorted_items (genre_hints m))) ;;
  let recommendations :=
    artist_recommendations top_artists
    ++ genre_recommendations top_genres
    ++ keyword_recommendations top_keywords
    ++ time_recommendations (hour c) in
  ret (slice_to count (sort_desc confidence recommendations)).

(* ================================================================== *)
(** ** _load_preferences *)

Module Json.

(** What [json.load] returns. *)
#[local] Unset Elimination Schemes.
Inductive value : Type :=
| Null
| Bool (b : bool)
| Num (q : Q)
| Str (s : string)
| Arr (items : list value)
| Obj (fields : Dict.t value).
#[local] Set Elimination Schemes.

(** What the preferences file holds when the engine starts. *)
Inductive file_state : Type :=
| Absent                (* [os.path.exists] is false *)
| Unreadable            (* [open] or [f.read] raises *)
| Malformed             (* [json.load] raises *)
| Document (v : value).

Definition default_fields : Dict.t value :=
  [ ("song_stats", Obj []);
    ("keyword_scores", Obj []);
    ("artist_scores", Obj []);
    ("time_preferences",
     Obj (map (fun h => (PyStr.str_of_nat h, Obj [])) (seq 0 24)));
    ("genre_hints", Obj []);
    ("total_plays", Num 0);
    ("total_skips", Num 0);
    ("learning_rate", Num 0.1);
    ("last_updated", Null) ].

Definition default : value := Obj default_fields.

Definition is_str (k : string) (v : value) : bool :=
  match v with
  | Str s => String.eqb k s
  | _ => false
  end.

(** [key in loaded]; [None] is the [TypeError] of a value that is not
    iterable. *)
Definition py_in (key : string) (loaded : value) : option bool :=
  match loaded with
  | Obj fields => Some (Dict.mem key fields)
  | Arr items => Some (existsb (is_str key) items)
  | Str s => Some (PyStr.contains key s)
  | Null | Bool _ | Num _ => None
  end.

(** [loaded[key] = v]; [None] is the [TypeError] of a list or a string
    given a string index. *)
Definition set_item (key : string) (v : value) (loaded : value)
  : option value :=
  match loaded with
  | Obj fields => Some (Obj (Dict.set key v fields))
  | _ => None
  end.

(** The loop [for key in default]; [None] when it raises. *)
Fixpoint merge_defaults (defaults : Dict.t value) (loaded : value)
  : option value :=
  match defaults with
  | [] => Some loaded
  | (key, v) :: rest =>
      match py_in key loaded with
      | None => None
      | Some true => merge_defaults rest loaded
      | Some false =>
          match set_item key v loaded with
          | None => None
          | Some loaded' => merge_defaults rest loaded'
          end
      end
  end.

(** [_load_preferences]: every exception of the [try] block leads to
    [return default]. *)
Definition load_preferences (f : file_state) : value :=
  match f with
  | Document loaded =>
      match merge_defaults default_fields loaded with
      | Some merged => merged
      | None => default
      end
  | Absent | Unreadable | Malformed => default
  end.

End Json.

(* ================================================================== *)
(** ** The arithmetic of [record_play] on binary64 numbers *)

Module Binary64.
Import PrimFloat.

Local Open Scope float_scope.

Definition py_min (a b : float) : float := if b <? a then b else a.
Definition py_max (a b : float) : float := if a <? b then b else a.

Definition clamp01 (x : float) : float := py_max 0 (py_min 1 x).

Definition completion_ratio (completed : bool)
           (duration_played total_duration : float) : float :=
  if 0 <? total_duration
  then py_min 1 (duration_played / total_duration)
  else if completed then 1 else 0.5.

Definition reward_of (completed : bool)
           (duration_played total_duration : float) : float :=
  completion_ratio completed duration_played total_duration * 0.5
  + (if completed then 0.5 else 0).

(** A weight after [w += lr * (reward - bias)] and the clamp. *)
Definition learned (w lr reward bias : float) : float :=
  clamp01 (w + lr * (reward - bias)).

End Binary64.

(* ================================================================== *)
(** ** Notions used to state the properties *)

(** What the three statements of [learn] do to the dictionary as a whole. *)
Definition learn_fn (lr reward bias : Q) (key : string) (d : Dict.t Q)
  : Dict.t Q :=
  Dict.set key (clamp01 (Dict.getd 0.5 key d + lr * (reward - bias))) d.

Definition learn_all (lr reward bias : Q) (keys : list string) (d : Dict.t Q)
  : Dict.t Q :=
  fold_left (fun d k => learn_fn lr reward bias k d) keys d.

Definition learn_artist (lr reward : Q) (artist : option string)
           (d : Dict.t Q) : Dict.t Q :=
  match artist with
  | Some a =>
      if PyStr.is_empty a then d else learn_fn lr reward 0.3 (PyStr.lower a) d
  | None => d
  end.

(** The reward that [rate_play] yields. *)
Definition reward_of (completed : bool) (duration_played total_duration : Q)
           (skipped : bool) : Q :=
  if skipped then - 0.3
  else completion_ratio completed duration_played total_duration * 0.5
       + (if completed then 0.5 else 0).

(** What [note_play] and then [rate_play] do to [song_stats]. *)
Definition noted_stats (c : Clock) (song_name : string) (f : Features.t)
           (d : Dict.t SongStats) : Dict.t SongStats :=
  touch song_name (set_last_played (Some (isoformat c)))
    (touch song_name (upd_play_count (fun n => n + 1)%Z)
       (if Dict.mem song_name d then d
        else Dict.set song_name (empty_stats f (isoformat c)) d)).

Definition rated_stats (song_name : string) (completed : bool)
           (duration_played total_duration : Q) (skipped : bool)
           (d : Dict.t SongStats) : Dict.t SongStats :=
  if skipped then touch song_name (upd_skip_count (fun n => n + 1)%Z) d
  else touch song_name
             (upd_total_completion
                (fun t => t + completion_ratio completed duration_played
                                               total_duration)) d.

Definition in_unit (w : Q) : Prop := 0 <= w /\ w <= 1.

Definition all_in_unit (d : Dict.t Q) : Prop :=
  Forall (fun e => in_unit (snd e)) d.

(** The clamp invariant of the three weight maps. *)
Definition weights_in_unit (m : Prefs) : Prop :=
  all_in_unit (keyword_scores m)
  /\ all_in_unit (artist_scores m)
  /\ all_in_unit (genre_hints m).

(** The model has the bucket of the hour [h]. *)
Definition has_hour (h : nat) (m : Prefs) : Prop :=
  Dict.mem (PyStr.str_of_nat h) (time_preferences m) = true.

(** No weight of [d] is higher in [d'], and what [d'] has in addition
    lies strictly below the seed. *)
Definition never_raised (d d' : Dict.t Q) : Prop :=
  (forall k w, Dict.get k d = Some w ->
               exists w', Dict.get k d' = Some w' /\ w' <= w)
  /\ (forall k w', Dict.get k d = None -> Dict.get k d' = Some w' ->
                   w' < 0.5).

Definition sample_events : list Event :=
  [ mkEvent (mkClock 9 "2024-05-01T09:15:00") "DJ Nova - Night Drive.mp3"
            true 180 180 false;
    mkEvent (mkClock 23 "2024-05-01T23:40:00") "lofi beats by Kaya"
            false 12 200 true ].

(** Along a skip: nothing of [d0] is higher in [d], what is new in [d] is
    below the seed, and no weight of [d] is negative. *)
Definition lowered (d0 d : Dict.t Q) : Prop :=
  never_raised d0 d /\ (forall k w, Dict.get k d = Some w -> 0 <= w).

(** A model that has learned the weight of one keyword. *)
Definition night_owl : Prefs :=
  upd_keyword_scores (fun _ => [("night", 0.55)]) default_prefs.

Definition noon : Clock :=
  {| hour := 12; isoformat := "2024-05-01T12:00:00" |}.

(** A model that knows the genre rock and no other. *)
Definition rock_fan : Prefs :=
  upd_genre_hints (fun _ => [("rock", 0.8)]) default_prefs.

(** The reading of the [" by "] branch under which the text before
    [" by "] gives no keyword: a word of the left segment that the right
    segment does not have is not among the keywords. *)
Definition by_branch_ignores_left (song_name : string) : Prop :=
  let name := PyStr.splitext_root song_name in
  PyStr.contains " - " name = false ->
  PyStr.contains " by " (PyStr.lower name) = true ->
  forall l r,
    PyStr.split_once " by " (PyStr.lower name) = Some (l, r) ->
    Features.artist (Features.extract_features song_name)
    = Some (PyStr.strip r)
    /\ forall w,
         In w (Features.keywords_of l) ->
         ~ In w (Features.keywords_of r) ->
         ~ In w (Features.keywords (Features.extract_features song_name)).

(** A model in which one artist stands out. *)
Definition nova_fan : Prefs :=
  upd_keyword_scores (fun _ => [("night", 0.55); ("drive", 0.5)])
    (upd_genre_hints (fun _ => [("rock", 0.4)])
       (upd_artist_scores
          (fun _ => [("vega", 0.5); ("dj nova", 0.8); ("kaya", 0.55)])
          default_prefs)).

Definition total_completion_of (song_name : string) (m : Prefs) : Q :=
  match Dict.get song_name (song_stats m) with
  | Some s => total_completion s
  | None => 0
  end.

Definition skip_count_of (song_name : string) (m : Prefs) : Z :=
  match Dict.get song_name (song_stats m) with
  | Some s => skip_count s
  | None => 0%Z
  end.

(* ================================================================== *)
(** ** get_preference_summary and reset_preferences *)

Record Summary := mkSummary {
  summary_total_plays : Z;
  summary_total_skips : Z;
  top_artists : list (string * Q);
  top_genres : list (string * Q);
  top_keywords : list (string * Q);
  most_played : list (string * Z);
  learning_progress : Z
}.

Section Summarizing.

(** [round(s, 2)] *)
Variable round2 : Q -> Q.

(** [[{'name': a, 'score': round(s, 2)} for a, s in top if s > bound]] *)
Definition listed (bound : Q) (top : list (string * Q)) : list (string * Q) :=
  map (fun e => (fst e, round2 (snd e)))
      (filter (fun e => Qltb bound (snd e)) top).

(** The songs are sorted by the integer [play_count]; the key is that
    integer, read as a rational. *)
Definition get_preference_summary : M Summary :=
  top_artists <- gets (fun m => firstn 5 (sorted_items (artist_scores m))) ;;
  top_genres <- gets (fun m => firstn 5 (sorted_items (genre_hints m))) ;;
  top_keywords <- gets (fun m => firstn 10 (sorted_items (keyword_scores m))) ;;
  most_played <-
    gets (fun m =>
            firstn 5 (sort_desc (fun e => inject_Z (play_count (snd e)))
                                (Dict.items (song_stats m)))) ;;
  total_plays <- gets total_plays ;;
  total_skips <- gets total_skips ;;
  ret {| summary_total_plays := total_plays;
         summary_total_skips := total_skips;
         top_artists := listed 0.4 top_artists;
         top_genres := listed 0.4 top_genres;
         top_keywords := listed 0.5 top_keywords;
         most_played := map (fun e => (fst e, play_count (snd e))) most_played;
         learning_progress :=
           (if (total_plays * 2 <? 100)%Z then total_plays * 2 else 100)%Z |}.

End Summarizing.

(** [reset_preferences] *)
Definition reset_preferences (c : Clock) : M unit :=
  modify (fun _ => default_prefs) ;;
  save_preferences c.

(* ================================================================== *)
(** ** sanitize_filename and parse_batch_songs *)

Module Names.
Import PyStr.

Definition is_digit (c : ascii) : bool :=
  let n := nat_of_ascii c in (48 <=? n)%nat && (n <=? 57)%nat.

(** [c.isalnum()] *)
Definition is_alnum (c : ascii) : bool :=
  is_upper c || Title.is_lower c || is_digit c.

(** [c.isalnum() or c in " _-"] *)
Definition is_kept (c : ascii) : bool :=
  is_alnum c || existsb (Ascii.eqb c) [" "; "_"; "-"]%char.

(** ["".join(c for c in s if f(c))] *)
Fixpoint filter_chars (f : ascii -> bool) (s : string) : string :=
  match s with
  | EmptyString => EmptyString
  | String c s' =>
      if f c then String c (filter_chars f s') else filter_chars f s'
  end.

Definition sanitize_filename (name : string) : string :=
  rstrip (filter_chars is_kept name).

(** [re.findall(r'\[([^\]]+)\]', s)], read from left to right: [inside] is
    what has been read since the bracket that may open a match.  A closing
    bracket ends the match when something was read; text after an opening
    bracket that is never closed matches nothing. *)
Fixpoint findall_brackets (inside : option string) (s : string)
  : list string :=
  match s with
  | EmptyString => []
  | String c s' =>
      match inside with
      | None =>
          if Ascii.eqb c "[" then findall_brackets (Some EmptyString) s'
          else findall_brackets None s'
      | Some read =>
          if Ascii.eqb c "]" then
            if is_empty read then findall_brackets None s'
            else read :: findall_brackets None s'
          else findall_brackets (Some (read ++ String c EmptyString)%string) s'
      end
  end.

Definition parse_batch_songs (input_str : string) : list string :=
  match findall_brackets None input_str with
  | (_ :: _) as matches =>
      map strip (filter (fun s => negb (is_empty (strip s))) matches)
  | [] =>
      if is_empty (strip input_str) then [] else [strip input_str]
  end.

End Names.

(* ================================================================== *)
(** ** find_matching_artwork and get_cached_artwork *)

Module Artwork.
Import PyStr.

(** [s.endswith(suffix)] *)
Definition endswith (suffix s : string) : bool :=
  (String.length suffix <=? String.length s)%nat
  && String.eqb suffix (drop (String.length s - String.length suffix) s).

(** [os.path.join(a, b)] of [posixpath] *)
Definition path_join (a b : string) : string :=
  if startswith "/" b then b
  else if is_empty a || endswith "/" a then (a ++ b)%string
  else (a ++ "/" ++ b)%string.

Definition image_extensions : list string :=
  [".jpg"; ".jpeg"; ".png"; ".webp"; ".gif"; ".bmp"].

Definition common_covers : list string :=
  ["cover"; "folder"; "album"; "artwork"; "front"; "albumart";
   "albumartsmall"].

Definition is_image (f : string) : bool :=
  existsb (fun e => endswith e (lower f)) image_extensions.

(** The character class of the pattern [[\s\-_\.\(\)\[\]]+]. *)
Definition is_sep (c : ascii) : bool :=
  is_space c
  || existsb (Ascii.eqb c) ["-"; "_"; "."; "("; ")"; "["; "]"]%char.

Definition starts_with_sep (s : string) : bool :=
  match s with
  | EmptyString => false
  | String c _ => is_sep c
  end.

(** [re.split(r'[\s\-_\.\(\)\[\]]+', s)] *)
Fixpoint split_words (s : string) : list string :=
  match s with
  | EmptyString => [EmptyString]
  | String c s' =>
      if is_sep c
      then if starts_with_sep s' then split_words s'
           else EmptyString :: split_words s'
      else match split_words s' with
           | p :: ps => String c p :: ps
           | [] => [String c EmptyString]
           end
  end.

(** [[k.strip() for k in words if k.strip() and len(k) > 2]] *)
Definition keywords_of (base : string) : list string :=
  map strip
      (filter (fun k => negb (is_empty (strip k))
                        && (2 <? String.length k)%nat)
              (split_words base)).

(** [os.path.splitext(img)[0].lower()] *)
Definition base_of (f : string) : string := lower (splitext_root f).

(** The points of one image: 3 for each pair of equal keywords, 1 for
    each pair in which one contains the other. *)
Definition match_score (keywords img_keywords : list string) : nat :=
  fold_left
    (fun score keyword =>
       fold_left
         (fun score img_kw =>
            if String.eqb keyword img_kw then (score + 3)%nat
            else if contains keyword img_kw || contains img_kw keyword
                 then (score + 1)%nat
                 else score)
         img_keywords score)
    keywords 0%nat.

(** The loop of the fourth priority: the first image with the highest
    score above 0. *)
Definition best_image (folder : string) (keywords : list string)
           (image_files : list string) : option string * nat :=
  fold_left
    (fun (best : option string * nat) img =>
       let score := match_score keywords (keywords_of (base_of img)) in
       if (snd best <? score)%nat then (Some (path_join folder img), score)
       else best)
    image_files (None, 0%nat).

(** [find_matching_artwork]; [listing] is what [os.listdir(folder)]
    returns, [None] when it raises. *)
Definition find_matching_artwork (filename folder : string)
           (listing : option (list string)) : option string :=
  if is_empty filename then None
  else
    let base_name := base_of filename in
    let keywords := keywords_of base_name in
    match listing with
    | None => None
    | Some all_files =>
        let image_files := filter is_image all_files in
        match image_files with
        | [] => None
        | _ :: _ =>
            match find (fun img => String.eqb (base_of img) base_name)
                       image_files with
            | Some img => Some (path_join folder img)
            | None =>
            match find (fun img => startswith (base_of img) base_name
                                   || startswith base_name (base_of img))
                       image_files with
            | Some img => Some (path_join folder img)
            | None =>
            match
              flat_map
                (fun cover_name =>
                   filter (fun img => String.eqb (base_of img) cover_name
                                      || contains cover_name (base_of img))
                          image_files)
                common_covers
            with
            | img :: _ => Some (path_join folder img)
            | [] =>
                let '(best_match, best_score) :=
                  best_image folder keywords image_files in
                if (2 <=? best_score)%nat then best_match
                else match image_files with
                     | [img] => Some (path_join folder img)
                     | _ => None
                     end
            end
            end
            end
        end
    end.

(** [ARTWORK_CACHE_TTL] *)
Definition ARTWORK_CACHE_TTL : Q := 300.

(** [artwork_cache]: the path found for a file name and when. *)
Definition Cache : Type := Dict.t (option string * Q).

(** [get_cached_artwork]; [current_time] is [time.time()]. *)
Definition get_cached_artwork (current_time : Q) (filename folder : string)
           (listing : option (list string)) (artwork_cache : Cache)
  : option string * Cache :=
  let fresh :=
    match Dict.get filename artwork_cache with
    | Some (cached_path, cached_time) =>
        if Qltb (current_time - cached_time) ARTWORK_CACHE_TTL
        then Some cached_path else None
    | None => None
    end in
  match fresh with
  | Some cached_path => (cached_path, artwork_cache)
  | None =>
      let result := find_matching_artwork filename folder listing in
      (result, Dict.set filename (result, current_time) artwork_cache)
  end.

End Artwork.

(* ================================================================== *)
(** ** The live radio *)

Module Radio.
Import Json.

(** [radio_state] *)
Record State := mkState {
  is_live : bool;
  host_sid : option string;
  current_track : value;
  current_time : value;
  is_playing : value;
  listeners : Z;
  track_info : value
}.

Definition initial : State :=
  {| is_live := false;
     host_sid := None;
     current_track := Null;
     current_time := Num 0;
     is_playing := Bool false;
     listeners := 0;
     track_info := Obj [("title", Str ""); ("artist", Str "");
                        ("cover", Str "")] |}.

(** Who receives a message: [emit] answers the caller, [socketio.emit]
    reaches everyone or a room. *)
Inductive audience : Type :=
| Caller
| Everyone
| Room (room : string).

Inductive effect : Type :=
| Emit (to : audience) (event : string) (payload : value)
| JoinRoom (room : string)
| LeaveRoom (room : string).

(** What the handlers read of [request]. *)
Record Request := mkRequest {
  sid : string;
  remote_addr : string
}.

(** The truth value of what [data.get] returned. *)
Definition truthy (v : value) : bool :=
  match v with
  | Null => false
  | Bool b => b
  | Num q => negb (Qeq_bool q 0)
  | Str s => negb (PyStr.is_empty s)
  | Arr items => match items with [] => false | _ => true end
  | Obj fields => match fields with [] => false | _ => true end
  end.

(** [radio_state['host_sid'] == request.sid] *)
Definition is_host (r : Request) (st : State) : bool :=
  match host_sid st with
  | Some h => String.eqb h (sid r)
  | None => false
  end.

(** [max(0, n - 1)] *)
Definition one_less (n : Z) : Z := if (0 <? n - 1)%Z then (n - 1)%Z else 0%Z.

Definition message (text : string) : value := Obj [("message", Str text)].

Definition listener_update (st : State) : effect :=
  Emit Everyone "listener_update"
       (Obj [("listeners", Num (inject_Z (listeners st)))]).

Definition track_info_of (data : Dict.t value) : value :=
  Obj [("title", Dict.getd (Str "Unknown") "title" data);
       ("artist", Dict.getd (Str "Unknown Artist") "artist" data);
       ("cover", Dict.getd (Str "") "cover" data)].

Definition sync_payload (st : State) : value :=
  Obj [("track", current_track st);
       ("current_time", current_time st);
       ("is_playing", is_playing st);
       ("track_info", track_info st)].

Definition handle_connect (r : Request) (st : State) : State * list effect :=
  (st,
   [Emit Caller "radio_state"
         (Obj [("is_live", Bool (is_live st));
               ("listeners", Num (inject_Z (listeners st)));
               ("track_info", track_info st);
               ("is_playing", is_playing st);
               ("current_time", current_time st)])]).

Definition handle_disconnect (r : Request) (st : State)
  : State * list effect :=
  if is_host r st then
    (mkState false None (current_track st) (current_time st) (is_playing st)
             0 (track_info st),
     [Emit Everyone "radio_ended" (message "Host ended the radio")])
  else if is_live st then
    let st' := mkState (is_live st) (host_sid st) (current_track st)
                       (current_time st) (is_playing st)
                       (one_less (listeners st)) (track_info st) in
    (st', [listener_update st'])
  else (st, []).

Definition handle_start_radio (r : Request) (data : Dict.t value)
           (st : State) : State * list effect :=
  if existsb (String.eqb (remote_addr r)) ["127.0.0.1"; "localhost"; "::1"]
  then
    let st' := mkState true (Some (sid r))
                       (Dict.getd Null "track" data)
                       (Dict.getd (Num 0) "current_time" data)
                       (Dict.getd (Bool false) "is_playing" data)
                       0 (track_info_of data) in
    (st',
     [Emit Everyone "radio_started"
           (Obj [("track_info", track_info st');
                 ("current_time", current_time st');
                 ("is_playing", is_playing st');
                 ("track", current_track st')])])
  else (st, [Emit Caller "error" (message "Only the host can start the radio")]).

Definition handle_stop_radio (r : Request) (st : State)
  : State * list effect :=
  if is_host r st then
    (mkState false None (current_track st) (current_time st) (is_playing st)
             0 (track_info st),
     [Emit Everyone "radio_ended" (message "Radio broadcast ended")])
  else (st, [Emit Caller "error" (message "Only the host can stop the radio")]).

Definition handle_join_radio (r : Request) (st : State)
  : State * list effect :=
  if is_live st then
    let st' := mkState (is_live st) (host_sid st) (current_track st)
                       (current_time st) (is_playing st)
                       (listeners st + 1) (track_info st) in
    (st',
     [JoinRoom "radio_listeners";
      Emit Caller "sync_playback" (sync_payload st');
      listener_update st'])
  else (st, [Emit Caller "error" (message "Radio is not live")]).

Definition handle_leave_radio (r : Request) (st : State)
  : State * list effect :=
  if is_live st then
    let st' := mkState (is_live st) (host_sid st) (current_track st)
                       (current_time st) (is_playing st)
                       (one_less (listeners st)) (track_info st) in
    (st', [LeaveRoom "radio_listeners"; listener_update st'])
  else (st, []).

Definition handle_host_sync (r : Request) (data : Dict.t value) (st : State)
  : State * list effect :=
  if is_host r st then
    let st' :=
      mkState (is_live st) (host_sid st)
              (if truthy (Dict.getd Null "track" data)
               then Dict.getd Null "track" data else current_track st)
              (Dict.getd (Num 0) "current_time" data)
              (Dict.getd (Bool false) "is_playing" data)
              (listeners st)
              (if truthy (Dict.getd Null "track_info" data)
               then Dict.getd Null "track_info" data else track_info st) in
    (st', [Emit (Room "radio_listeners") "sync_playback" (sync_payload st')])
  else (st, []).

Definition handle_host_track_change (r : Request) (data : Dict.t value)
           (st : State) : State * list effect :=
  if is_host r st then
    let st' := mkState (is_live st) (host_sid st)
                       (Dict.getd Null "track" data)
                       (Num 0)
                       (Dict.getd (Bool true) "is_playing" data)
                       (listeners st) (track_info_of data) in
    (st',
     [Emit Everyone "track_changed"
           (Obj [("track", current_track st');
                 ("track_info", track_info st');
                 ("is_playing", is_playing st')])])
  else (st, []).

Definition handle_host_play_pause (r : Request) (data : Dict.t value)
           (st : State) : State * list effect :=
  if is_host r st then
    let st' := mkState (is_live st) (host_sid st) (current_track st)
                       (Dict.getd (Num 0) "current_time" data)
                       (Dict.getd (Bool false) "is_playing" data)
                       (listeners st) (track_info st) in
    (st',
     [Emit Everyone "playback_state"
           (Obj [("is_playing", is_playing st');
                 ("current_time", current_time st')])])
  else (st, []).

Definition handle_host_seek (r : Request) (data : Dict.t value) (st : State)
  : State * list effect :=
  if is_host r st then
    let st' := mkState (is_live st) (host_sid st) (current_track st)
                       (Dict.getd (Num 0) "current_time" data)
                       (is_playing st) (listeners st) (track_info st) in
    (st', [Emit Everyone "seek_to" (Obj [("current_time", current_time st')])])
  else (st, []).

(** The socket events, and the radio after a sequence of them. *)
Inductive event : Type :=
| Connect
| Disconnect
| StartRadio (data : Dict.t value)
| StopRadio
| JoinRadio
| LeaveRadio
| HostSync (data : Dict.t value)
| HostTrackChange (data : Dict.t value)
| HostPlayPause (data : Dict.t value)
| HostSeek (data : Dict.t value).

Definition handle (r : Request) (e : event) (st : State)
  : State * list effect :=
  match e with
  | Connect => handle_connect r st
  | Disconnect => handle_disconnect r st
  | StartRadio data => handle_start_radio r data st
  | StopRadio => handle_stop_radio r st
  | JoinRadio => handle_join_radio r st
  | LeaveRadio => handle_leave_radio r st
  | HostSync data => handle_host_sync r data st
  | HostTrackChange data => handle_host_track_change r data st
  | HostPlayPause data => handle_host_play_pause r data st
  | HostSeek data => handle_host_seek r data st
  end.

Definition run (events : list (Request * event)) (st : State) : State :=
  fold_left (fun st re => fst (handle (fst re) (snd re) st)) events st.

End Radio.

(* ================================================================== *)
(** ** Further notions used to state properties *)

(** No weight of [d] is lower in [d'], and what [d'] has in addition
    lies at or above the seed. *)
Definition never_lowered (d d' : Dict.t Q) : Prop :=
  (forall k w, Dict.get k d = Some w ->
               exists w', Dict.get k d' = Some w' /\ w <= w')
  /\ (forall k w', Dict.get k d = None -> Dict.get k d' = Some w' ->
                   0.5 <= w').

Definition raised (d0 d : Dict.t Q) : Prop :=
  never_lowered d0 d /\ (forall k w, Dict.get k d = Some w -> w <= 1).

Definition zero_log (x : Q) : Q := 0.

Definition library : list string :=
  ["DJ Nova - Night Drive.mp3"; "lofi beats by Kaya.mp3"; "rock anthem.mp3"].

(** The cache has nothing usable for [filename] at [current_time]: no
    entry, or one that is [ARTWORK_CACHE_TTL] old or older. *)
Definition cache_miss (current_time : Q) (filename : string)
           (artwork_cache : Artwork.Cache) : Prop :=
  match Dict.get filename artwork_cache with
  | Some (_, cached_time) =>
      Artwork.ARTWORK_CACHE_TTL <= current_time - cached_time
  | None => True
  end.

Definition music_folder : list string :=
  ["Night Drive.mp3"; "notes.txt"; "Summer.PNG"; "night drive.jpg"].

(** What the radio keeps true: the listener count is not negative, and
    the radio is live exactly when it has a host. *)
Definition radio_well_formed (st : Radio.State) : Prop :=
  (0 <= Radio.listeners st)%Z
  /\ (Radio.is_live st = true <-> Radio.host_sid st <> None).

(** Whether the handler of [e] lets the request [r] through: starting
    needs a local address, the host events need the host's sid. *)
Definition radio_allows (r : Radio.Request) (e : Radio.event)
           (st : Radio.State) : bool :=
  match e with
  | Radio.StartRadio _ =>
      existsb (String.eqb (Radio.remote_addr r))
              ["127.0.0.1"; "localhost"; "::1"]
  | Radio.StopRadio | Radio.HostSync _ | Radio.HostTrackChange _
  | Radio.HostPlayPause _ | Radio.HostSeek _ => Radio.is_host r st
  | Radio.Connect | Radio.Disconnect | Radio.JoinRadio | Radio.LeaveRadio =>
      true
  end.

Definition to_caller (ef : Radio.effect) : Prop :=
  exists event payload, ef = Radio.Emit Radio.Caller event payload.

Definition radio_host : Radio.Request := Radio.mkRequest "sid-host" "127.0.0.1".
Definition radio_guest : Radio.Request := Radio.mkRequest "sid-guest" "10.0.0.7".

Definition radio_evening : list (Radio.Request * Radio.event) :=
  [ (radio_guest, Radio.JoinRadio);
    (radio_host, Radio.StartRadio [("track", Json.Str "Night Drive.mp3")]);
    (radio_guest, Radio.JoinRadio);
    (radio_guest, Radio.HostSeek [("current_time", Json.Num 42)]);
    (radio_guest, Radio.Disconnect);
    (radio_guest, Radio.LeaveRadio) ].

(** The names of the fields of the default dictionary. *)
Definition default_keys : list string := map fst Json.default_fields.

(** [key in v] holds for every key of the default dictionary: the loop of
    [_load_preferences] then passes [v] without writing to it. *)
Definition names_every_key (v : Json.value) : bool :=
  forallb (fun key => match Json.py_in key v with
                      | Some true => true
                      | _ => false
                      end)
          default_keys.

(** The top-level field [key] of a document; only an object has fields. *)
Definition field_of (key : string) (v : Json.value) : option Json.value :=
  match v with
  | Json.Obj fields => Dict.get key fields
  | _ => None
  end.

(** Two documents that are not objects and name every key: the list of
    the nine names, and a text in which the nine names occur. *)
Definition key_list : Json.value := Json.Arr (map Json.Str default_keys).

Definition key_text : Json.value :=
  Json.Str (String.concat " " default_keys).

(** [ord(c) < 128] *)
Definition is_ascii (c : ascii) : bool := (nat_of_ascii c <? 128)%nat.

(** A text that does not begin with white space. *)
Definition starts_clean (s : string) : Prop :=
  match s with
  | EmptyString => True
  | String c _ => PyStr.is_space c = false
  end.

(** Every character of [s] satisfies [f]. *)
Fixpoint all_chars (f : ascii -> bool) (s : string) : bool :=
  match s with
  | EmptyString => true
  | String c s' => f c && all_chars f s'
  end.

(* ================================================================== *)
(** ** Numbers and dictionaries *)

Lemma Qltb_lt (a b : Q) : Qltb a b = true <-> a < b.
Proof.
  unfold Qltb. rewrite negb_true_iff. split; intros H.
  - apply Qnot_le_lt. intros Hle. apply Qle_bool_iff in Hle. congruence.
  - destruct (Qle_bool b a) eqn:E; [|reflexivity].
    apply Qle_bool_iff in E. exfalso. exact (Qlt_not_le _ _ H E).
Qed.

Lemma Qltb_ge (a b : Q) : Qltb a b = false <-> b <= a.
Proof.
  unfold Qltb. rewrite negb_false_iff. apply Qle_bool_iff.
Qed.

Lemma py_min_cases (a b : Q) :
  (b < a /\ py_min a b = b) \/ (a <= b /\ py_min a b = a).
Proof.
  unfold py_min. destruct (Qltb b a) eqn:E.
  - left. split; [apply Qltb_lt; exact E | reflexivity].
  - right. split; [apply Qltb_ge; exact E | reflexivity].
Qed.

Lemma py_max_cases (a b : Q) :
  (a < b /\ py_max a b = b) \/ (b <= a /\ py_max a b = a).
Proof.
  unfold py_max. destruct (Qltb a b) eqn:E.
  - left. split; [apply Qltb_lt; exact E | reflexivity].
  - right. split; [apply Qltb_ge; exact E | reflexivity].
Qed.

Lemma clamp01_in_unit (x : Q) : in_unit (clamp01 x).
Proof.
  unfold clamp01, in_unit.
  destruct (py_min_cases 1 x) as [[H1 ->] | [H1 ->]];
    [destruct (py_max_cases 0 x) as [[H2 ->] | [H2 ->]]
    |destruct (py_max_cases 0 1) as [[H2 ->] | [H2 ->]]];
    split; try apply Qle_refl; try (apply Qlt_le_weak; assumption);
    try discriminate; try assumption.
Qed.

Lemma clamp01_le (x w : Q) : 0 <= w -> x <= w -> clamp01 x <= w.
Proof.
  intros Hw Hx. unfold clamp01.
  destruct (py_min_cases 1 x) as [[H1 ->] | [H1 ->]].
  - destruct (py_max_cases 0 x) as [[H2 ->] | [H2 ->]]; assumption.
  - destruct (py_max_cases 0 1) as [[H2 ->] | [H2 ->]].
    + apply Qle_trans with x; assumption.
    + assumption.
Qed.

Lemma clamp01_lt (x w : Q) : 0 < w -> x < w -> clamp01 x < w.
Proof.
  intros Hw Hx. unfold clamp01.
  destruct (py_min_cases 1 x) as [[H1 ->] | [H1 ->]].
  - destruct (py_max_cases 0 x) as [[H2 ->] | [H2 ->]]; assumption.
  - destruct (py_max_cases 0 1) as [[H2 ->] | [H2 ->]].
    + apply Qle_lt_trans with x; assumption.
    + assumption.
Qed.

Module DictFacts.
Import Dict.

Section Facts.
Context {V : Type}.
Implicit Types (d : Dict.t V) (k : string) (v : V).

Lemma get_set_same k v d : get k (set k v d) = Some v.
Proof.
  induction d as [|[k' v'] d IH]; simpl.
  - rewrite String.eqb_refl. reflexivity.
  - destruct (String.eqb k k') eqn:E; simpl; rewrite E; auto.
Qed.

Lemma get_set_other k k' v d :
  k <> k' -> get k' (set k v d) = get k' d.
Proof.
  intros Hne. induction d as [|[k0 v0] d IH]; simpl.
  - destruct (String.eqb k' k) eqn:E; [|reflexivity].
    apply String.eqb_eq in E. congruence.
  - destruct (String.eqb k k0) eqn:E; simpl.
    + apply String.eqb_eq in E. subst k0.
      destruct (String.eqb k' k) eqn:E'; [|reflexivity].
      apply String.eqb_eq in E'. congruence.
    + rewrite IH. reflexivity.
Qed.

Lemma set_set k v1 v2 d : set k v2 (set k v1 d) = set k v2 d.
Proof.
  induction d as [|[k' v'] d IH]; simpl.
  - rewrite String.eqb_refl. reflexivity.
  - destruct (String.eqb k k') eqn:E; simpl; rewrite E; congruence.
Qed.

Lemma mem_get k d : mem k d = true <-> exists v, get k d = Some v.
Proof.
  unfold mem. destruct (get k d); split; intros H; eauto;
    try discriminate. destruct H; discriminate.
Qed.

Lemma mem_set k k' v d : mem k' d = true -> mem k' (set k v d) = true.
Proof.
  unfold mem. destruct (string_dec k k') as [->|Hne].
  - rewrite get_set_same. auto.
  - rewrite get_set_other by assumption. auto.
Qed.

Lemma getd_set_same dflt k v d : getd dflt k (set k v d) = v.
Proof. unfold getd. rewrite get_set_same. reflexivity. Qed.

Lemma get_In k v d : get k d = Some v -> In (k, v) d.
Proof.
  induction d as [|[k' v'] d IH]; simpl; [discriminate|].
  destruct (String.eqb k k') eqn:E.
  - apply String.eqb_eq in E. intros [= ->]. left. congruence.
  - auto.
Qed.

Lemma Forall_set (P : string * V -> Prop) k v d :
  P (k, v) -> Forall P d -> Forall P (set k v d).
Proof.
  intros Hv. induction 1 as [|[k' v'] d Hx Hd IH]; simpl.
  - constructor; auto.
  - destruct (String.eqb k k') eqn:E.
    + apply String.eqb_eq in E. subst k'. constructor; auto.
    + constructor; auto.
Qed.

End Facts.
End DictFacts.

(* ================================================================== *)
(** ** Running the blocks of a method *)

Lemma bind_returned {A B : Type} (c : M A) (k : A -> M B) m a m' :
  c m = (Returned a, m') -> bind c k m = k a m'.
Proof. unfold bind. intros ->. reflexivity. Qed.

Lemma bind_raised {A B : Type} (c : M A) (k : A -> M B) m e m' :
  c m = (Raised e, m') -> bind c k m = (Raised e, m').
Proof. unfold bind. intros ->. reflexivity. Qed.

Lemma learn_fn_steps (lr reward bias : Q) (key : string) (d : Dict.t Q) :
  let d1 := if Dict.mem key d then d else Dict.set key 0.5 d in
  let d2 := Dict.set key (Dict.getd 0 key d1 + lr * (reward - bias)) d1 in
  Dict.set key (clamp01 (Dict.getd 0 key d2)) d2
  = learn_fn lr reward bias key d.
Proof.
  cbv zeta. unfold learn_fn.
  rewrite DictFacts.getd_set_same, DictFacts.set_set.
  unfold Dict.mem, Dict.getd. destruct (Dict.get key d) as [w|] eqn:E.
  - rewrite E. reflexivity.
  - rewrite DictFacts.get_set_same, DictFacts.set_set. reflexivity.
Qed.

Lemma learn_keyword_run lr reward bias key m :
  learn upd_keyword_scores lr reward bias key m
  = (Returned tt, upd_keyword_scores (learn_fn lr reward bias key) m).
Proof.
  unfold learn, bind, modify, upd_keyword_scores. simpl.
  rewrite learn_fn_steps. reflexivity.
Qed.

Lemma learn_artist_run lr reward bias key m :
  learn upd_artist_scores lr reward bias key m
  = (Returned tt, upd_artist_scores (learn_fn lr reward bias key) m).
Proof.
  unfold learn, bind, modify, upd_artist_scores. simpl.
  rewrite learn_fn_steps. reflexivity.
Qed.

Lemma learn_genre_run lr reward bias key m :
  learn upd_genre_hints lr reward bias key m
  = (Returned tt, upd_genre_hints (learn_fn lr reward bias key) m).
Proof.
  unfold learn, bind, modify, upd_genre_hints. simpl.
  rewrite learn_fn_steps. reflexivity.
Qed.

Lemma upd_keyword_scores_id m : upd_keyword_scores (fun d => d) m = m.
Proof. destruct m; reflexivity. Qed.

Lemma upd_genre_hints_id m : upd_genre_hints (fun d => d) m = m.
Proof. destruct m; reflexivity. Qed.

Lemma for_each_learn_keywords lr reward bias keys m :
  for_each keys (learn upd_keyword_scores lr reward bias) m
  = (Returned tt, upd_keyword_scores (learn_all lr reward bias keys) m).
Proof.
  revert m. induction keys as [|k keys IH]; intros m; simpl.
  - unfold ret, learn_all. simpl. rewrite upd_keyword_scores_id. reflexivity.
  - rewrite (bind_returned _ _ _ _ _ (learn_keyword_run _ _ _ _ _)).
    rewrite IH. reflexivity.
Qed.

Lemma for_each_learn_genres lr reward bias keys m :
  for_each keys (learn upd_genre_hints lr reward bias) m
  = (Returned tt, upd_genre_hints (learn_all lr reward bias keys) m).
Proof.
  revert m. induction keys as [|k keys IH]; intros m; simpl.
  - unfold ret, learn_all. simpl. rewrite upd_genre_hints_id. reflexivity.
  - rewrite (bind_returned _ _ _ _ _ (learn_genre_run _ _ _ _ _)).
    rewrite IH. reflexivity.
Qed.

Lemma note_play_run c song f m :
  note_play c song f m
  = (Returned tt,
     upd_total_plays (fun n => n + 1)%Z
                     (upd_song_stats (noted_stats c song f) m)).
Proof.
  unfold note_play, noted_stats, bind, gets, when, upd_stats, modify, ret,
    upd_total_plays, upd_song_stats.
  cbn [negb song_stats keyword_scores artist_scores time_preferences
       genre_hints total_plays total_skips learning_rate last_updated].
  destruct (Dict.mem song (song_stats m)); reflexivity.
Qed.

Lemma rate_play_run song completed dp td skipped m :
  rate_play song completed dp td skipped m
  = (Returned (reward_of completed dp td skipped),
     (if skipped then upd_total_skips (fun n => n + 1)%Z else fun m => m)
       (upd_song_stats (rated_stats song completed dp td skipped) m)).
Proof.
  unfold rate_play, reward_of, rated_stats.
  destruct skipped; reflexivity.
Qed.

Lemma learn_weights_run f reward m :
  learn_weights f reward m
  = (Returned tt,
     upd_genre_hints
       (learn_all (learning_rate m) reward 0.5 (Features.potential_genre f))
       (upd_artist_scores
          (learn_artist (learning_rate m) reward (Features.artist f))
          (upd_keyword_scores
             (learn_all (learning_rate m) reward 0.5 (Features.keywords f))
             m))).
Proof.
  unfold learn_weights.
  rewrite (bind_returned _ _ m (learning_rate m) m) by reflexivity.
  rewrite (bind_returned _ _ _ _ _ (for_each_learn_keywords _ _ _ _ _)).
  set (m1 := upd_keyword_scores _ m).
  assert (Hartist :
    match Features.artist f with
    | Some a => when (negb (PyStr.is_empty a))
                  (learn upd_artist_scores (learning_rate m) reward 0.3
                         (PyStr.lower a))
    | None => ret tt
    end m1
    = (Returned tt,
       upd_artist_scores
         (learn_artist (learning_rate m) reward (Features.artist f)) m1)).
  { unfold learn_artist. destruct (Features.artist f) as [a|].
    - destruct (PyStr.is_empty a); simpl.
      + destruct m1; reflexivity.
      + apply learn_artist_run.
    - destruct m1; reflexivity. }
  rewrite (bind_returned _ _ _ _ _ Hartist).
  apply for_each_learn_genres.
Qed.

(** One round of the loop of [count_hour]. *)
Lemma count_hour_round h keyword m :
  (Dict.mem h (time_preferences m) = true ->
   exists tp,
     (forall h', Dict.mem h' (time_preferences m) = true ->
                 Dict.mem h' tp = true)
     /\ (b <- time_bucket h ;;
         when (negb (Dict.mem keyword b)) (store_time h keyword 0) ;;
         b' <- time_bucket h ;;
         store_time h keyword (Dict.getd 0%Z keyword b' + 1)%Z) m
        = (Returned tt, upd_time_preferences (fun _ => tp) m))
  /\ (Dict.mem h (time_preferences m) = false ->
      (b <- time_bucket h ;;
       when (negb (Dict.mem keyword b)) (store_time h keyword 0) ;;
       b' <- time_bucket h ;;
       store_time h keyword (Dict.getd 0%Z keyword b' + 1)%Z) m
      = (Raised (KeyError h), m)).
Proof.
  split; intros Hm.
  - apply DictFacts.mem_get in Hm. destruct Hm as [b E].
    unfold store_time, when, bind, time_bucket, modify, ret. rewrite E.
    destruct (Dict.mem keyword b); cbn [negb];
      repeat (rewrite ?E, ?DictFacts.get_set_same;
              cbn [time_preferences upd_time_preferences]);
      (eexists; split; [|reflexivity]);
      intros h' Hh'; repeat apply DictFacts.mem_set; exact Hh'.
  - unfold Dict.mem in Hm.
    destruct (Dict.get h (time_preferences m)) as [b|] eqn:E;
      [discriminate|].
    unfold bind, time_bucket. rewrite E. reflexivity.
Qed.

(** [count_hour] writes [time_preferences] only, and returns when the
    bucket of the hour is there. *)
Lemma count_hour_run h f m :
  exists o tp,
    count_hour h f m = (o, upd_time_preferences (fun _ => tp) m)
    /\ (Dict.mem h (time_preferences m) = true -> o = Returned tt)
    /\ (forall h', Dict.mem h' (time_preferences m) = true ->
                   Dict.mem h' tp = true).
Proof.
  unfold count_hour. generalize (firstn 5 (Features.keywords f)) as kws.
  intros kws. revert m. induction kws as [|k kws IH]; intros m.
  - exists (Returned tt), (time_preferences m).
    split; [destruct m; reflexivity|]. split; auto.
  - cbn [for_each].
    destruct (count_hour_round h k m) as [Hyes Hno].
    destruct (Dict.mem h (time_preferences m)) eqn:E.
    + destruct (Hyes eq_refl) as (tp & Htp & Hrun).
      rewrite (bind_returned _ _ _ _ _ Hrun).
      destruct (IH (upd_time_preferences (fun _ => tp) m))
        as (o & tp' & Hrest & Ho & Hkeep).
      exists o, tp'. split; [|split].
      * rewrite Hrest. reflexivity.
      * intros _. apply Ho, Htp, E.
      * intros h' Hh'. apply Hkeep, Htp, Hh'.
    + exists (Raised (KeyError h)), (time_preferences m). split; [|split].
      * rewrite (bind_raised _ _ _ _ _ (Hno eq_refl)).
        destruct m; reflexivity.
      * discriminate.
      * auto.
Qed.

(** [record_play] as a whole: what it leaves in each field, and that it
    returns the reward when the bucket of the hour is there. *)
Lemma record_play_run c song completed dp td skipped m :
  let f := Features.extract_features song in
  let reward := reward_of completed dp td skipped in
  exists o tp lu,
    record_play c song completed dp td skipped m
    = (o,
       {| song_stats :=
            rated_stats song completed dp td skipped
                        (noted_stats c song f (song_stats m));
          keyword_scores :=
            learn_all (learning_rate m) reward 0.5 (Features.keywords f)
                      (keyword_scores m);
          artist_scores :=
            learn_artist (learning_rate m) reward (Features.artist f)
                         (artist_scores m);
          time_preferences := tp;
          genre_hints :=
            learn_all (learning_rate m) reward 0.5
                      (Features.potential_genre f) (genre_hints m);
          total_plays := (total_plays m + 1)%Z;
          total_skips :=
            if skipped then (total_skips m + 1)%Z else total_skips m;
          learning_rate := learning_rate m;
          last_updated := lu |})
    /\ (has_hour (hour c) m -> o = Returned reward)
    /\ (forall h, has_hour h m -> Dict.mem (PyStr.str_of_nat h) tp = true).
Proof.
  intros f reward. unfold record_play. fold f.
  rewrite (bind_returned _ _ _ _ _ (note_play_run _ _ _ _)).
  rewrite (bind_returned _ _ _ _ _ (rate_play_run _ _ _ _ _ _)).
  fold reward.
  rewrite (bind_returned _ _ _ _ _ (learn_weights_run _ _ _)).
  match goal with
  | |- context [bind (count_hour ?h f) _ ?m1] =>
      destruct (count_hour_run h f m1) as (o & tp & Hrun & Ho & Hkeep)
  end.
  assert (Hhours : forall h, has_hour h m ->
                             Dict.mem (PyStr.str_of_nat h) tp = true).
  { intros h Hh. apply Hkeep. destruct skipped; exact Hh. }
  destruct o as [[]|e].
  - rewrite (bind_returned _ _ _ _ _ Hrun).
    exists (Returned reward), tp, (Some (isoformat c)).
    split; [destruct skipped; reflexivity|]. split; [reflexivity | exact Hhours].
  - rewrite (bind_raised _ _ _ _ _ Hrun).
    exists (Raised e), tp, (last_updated m).
    split; [destruct skipped; reflexivity|]. split; [|exact Hhours].
    intros Hh. unfold has_hour in Hh.
    assert (Raised e = Returned tt) as Habs; [|discriminate].
    apply Ho. destruct skipped; exact Hh.
Qed.

(* ================================================================== *)
(** ** The clamp invariant *)

Lemma learn_fn_in_unit lr reward bias key d :
  all_in_unit d -> all_in_unit (learn_fn lr reward bias key d).
Proof.
  intros Hd. unfold learn_fn. apply DictFacts.Forall_set; [|exact Hd].
  apply clamp01_in_unit.
Qed.

Lemma learn_all_in_unit lr reward bias keys d :
  all_in_unit d -> all_in_unit (learn_all lr reward bias keys d).
Proof.
  unfold learn_all. revert d.
  induction keys as [|k keys IH]; intros d Hd; simpl; [exact Hd|].
  apply IH, learn_fn_in_unit, Hd.
Qed.

Lemma learn_artist_in_unit lr reward artist d :
  all_in_unit d -> all_in_unit (learn_artist lr reward artist d).
Proof.
  intros Hd. unfold learn_artist. destruct artist as [a|]; [|exact Hd].
  destruct (PyStr.is_empty a); [exact Hd|].
  apply learn_fn_in_unit, Hd.
Qed.

Lemma record_play_in_unit c song completed dp td skipped m :
  weights_in_unit m ->
  weights_in_unit (state_after (record_play c song completed dp td skipped) m).
Proof.
  intros (Hk & Ha & Hg). unfold state_after.
  destruct (record_play_run c song completed dp td skipped m)
    as (o & tp & lu & -> & _ & _).
  unfold weights_in_unit. cbn [snd keyword_scores artist_scores genre_hints].
  auto using learn_all_in_unit, learn_artist_in_unit.
Qed.

Lemma record_all_in_unit events m :
  weights_in_unit m -> weights_in_unit (record_all events m).
Proof.
  unfold record_all. revert m.
  induction events as [|e events IH]; intros m Hm; simpl; [exact Hm|].
  apply IH. unfold record_event. apply record_play_in_unit, Hm.
Qed.

(** C2.  Starting from a model whose keyword, artist and genre weights lie
    in [0, 1], every weight of the three maps lies in [0, 1] after each
    call of any sequence of [record_play] calls, whatever their arguments
    and whether or not a call raises. *)
Theorem weights_stay_in_unit (events : list Event) (m : Prefs) :
  weights_in_unit m ->
  forall n, weights_in_unit (record_all (firstn n events) m).
Proof.
  intros Hm n. apply record_all_in_unit, Hm.
Qed.

Lemma default_in_unit : weights_in_unit default_prefs.
Proof. repeat split; constructor. Qed.

Lemma weights_stay_in_unit_witness :
  weights_in_unit default_prefs
  /\ forall n, weights_in_unit (record_all (firstn n sample_events) default_prefs).
Proof.
  split.
  - repeat split; constructor.
  - apply (weights_stay_in_unit sample_events default_prefs).
    repeat split; constructor.
Defined.

(* ================================================================== *)
(** ** Skip events *)

Lemma touch_get song g d s :
  Dict.get song d = Some s -> Dict.get song (touch song g d) = Some (g s).
Proof.
  intros E. unfold touch. rewrite E. apply DictFacts.get_set_same.
Qed.

Lemma noted_stats_get c song f d :
  Dict.get song (noted_stats c song f d)
  = Some (set_last_played (Some (isoformat c))
            (upd_play_count (fun n => n + 1)%Z
               (match Dict.get song d with
                | Some s => s
                | None => empty_stats f (isoformat c)
                end))).
Proof.
  unfold noted_stats. apply touch_get, touch_get.
  unfold Dict.mem. destruct (Dict.get song d) as [s|] eqn:E.
  - exact E.
  - apply DictFacts.get_set_same.
Qed.

(** C6.  On a model that has the bucket of the current hour, [record_play]
    with [skipped = True] returns the reward -0.3, leaves the song's
    [total_completion] as it was (0 for a song first seen), and adds
    exactly 1 to the song's [skip_count] and to [total_skips]. *)
Theorem skip_event_effect (c : Clock) (song : string) (completed : bool)
        (dp td : Q) (m : Prefs) :
  has_hour (hour c) m ->
  let run := record_play c song completed dp td true m in
  fst run = Returned (- 0.3)
  /\ Dict.mem song (song_stats (snd run)) = true
  /\ total_completion_of song (snd run) = total_completion_of song m
  /\ skip_count_of song (snd run) = (skip_count_of song m + 1)%Z
  /\ total_skips (snd run) = (total_skips m + 1)%Z.
Proof.
  intros Hh run. subst run.
  destruct (record_play_run c song completed dp td true m)
    as (o & tp & lu & -> & Ho & _).
  rewrite (Ho Hh). cbn [fst snd].
  unfold total_completion_of, skip_count_of, Dict.mem.
  cbn [song_stats total_skips rated_stats].
  rewrite (touch_get _ _ _ _ (noted_stats_get _ _ _ _)).
  split; [reflexivity|]. split; [reflexivity|].
  destruct (Dict.get song (song_stats m)); repeat split; reflexivity.
Qed.

Lemma default_has_hour h : (h < 24)%nat -> has_hour h default_prefs.
Proof.
  intros Hh. unfold has_hour.
  do 24 (destruct h as [|h]; [reflexivity|]). lia.
Qed.

(** What every model reached from the default one by [record_play] calls
    has: weights in [0, 1], the learning rate 0.1 and the 24 buckets. *)
Lemma record_all_well_formed (events : list Event) :
  let m := record_all events default_prefs in
  weights_in_unit m
  /\ learning_rate m = 0.1
  /\ forall h, (h < 24)%nat -> has_hour h m.
Proof.
  cbv zeta.
  assert (H : forall m,
             weights_in_unit m /\ learning_rate m = 0.1
             /\ (forall h, (h < 24)%nat -> has_hour h m) ->
             weights_in_unit (record_all events m)
             /\ learning_rate (record_all events m) = 0.1
             /\ (forall h, (h < 24)%nat -> has_hour h (record_all events m))).
  { unfold record_all.
    induction events as [|e events IH]; intros m Hm; [exact Hm|].
    cbn [fold_left]. apply IH. destruct Hm as (Hw & Hlr & Hh).
    split; [apply record_play_in_unit, Hw|].
    unfold record_event, state_after.
    destruct (record_play_run (ev_clock e) (ev_song e) (ev_completed e)
                              (ev_played e) (ev_total e) (ev_skipped e) m)
      as (o & tp & lu & -> & _ & Hkeep).
    cbn [snd learning_rate]. split; [exact Hlr|].
    intros h Hlt. unfold has_hour. cbn [time_preferences].
    apply Hkeep, Hh, Hlt. }
  apply H. split; [apply default_in_unit|]. split; [reflexivity|].
  apply default_has_hour.
Qed.

Lemma skip_event_effect_witness :
  let c := mkClock 21 "2024-05-01T21:05:00" in
  let run := record_play c "rock anthem" false 5 200 true default_prefs in
  has_hour (hour c) default_prefs
  /\ fst run = Returned (- 0.3)
  /\ Dict.mem "rock anthem" (song_stats (snd run)) = true
  /\ total_completion_of "rock anthem" (snd run)
     = total_completion_of "rock anthem" default_prefs
  /\ skip_count_of "rock anthem" (snd run)
     = (skip_count_of "rock anthem" default_prefs + 1)%Z
  /\ total_skips (snd run) = (total_skips default_prefs + 1)%Z.
Proof.
  split.
  - reflexivity.
  - apply (skip_event_effect (mkClock 21 "2024-05-01T21:05:00")
                             "rock anthem" false 5 200 default_prefs).
    reflexivity.
Defined.

(* ================================================================== *)
(** ** A skip lowers the weights *)

Lemma all_in_unit_get d k w :
  all_in_unit d -> Dict.get k d = Some w -> in_unit w.
Proof.
  intros Hd E. apply DictFacts.get_In in E.
  unfold all_in_unit in Hd. rewrite Forall_forall in Hd.
  exact (Hd _ E).
Qed.

Lemma lowered_refl d : all_in_unit d -> lowered d d.
Proof.
  intros Hd. repeat split.
  - intros k w E. exists w. split; [exact E | apply Qle_refl].
  - intros k w' E1 E2. congruence.
  - intros k w E. exact (proj1 (all_in_unit_get _ _ _ Hd E)).
Qed.

Lemma learn_fn_lowered lr reward bias key d0 d :
  lr * (reward - bias) < 0 ->
  lowered d0 d -> lowered d0 (learn_fn lr reward bias key d).
Proof.
  intros Hdelta ((Hold & Hnew) & Hpos). unfold learn_fn.
  set (delta := lr * (reward - bias)) in *.
  assert (Hv : forall w1, Dict.get key d = Some w1 ->
                          clamp01 (Dict.getd 0.5 key d + delta) <= w1).
  { intros w1 E. unfold Dict.getd. rewrite E.
    apply clamp01_le; [exact (Hpos _ _ E) | lra]. }
  repeat split.
  - intros k w E. destruct (Hold _ _ E) as (w1 & E1 & Hle).
    destruct (string_dec key k) as [->|Hne].
    + rewrite DictFacts.get_set_same. eexists. split; [reflexivity|].
      apply Qle_trans with w1; [apply Hv; exact E1 | exact Hle].
    + rewrite DictFacts.get_set_other by assumption.
      exists w1. split; assumption.
  - intros k w' E0. destruct (string_dec key k) as [->|Hne].
    + rewrite DictFacts.get_set_same. intros [= <-].
      destruct (Dict.get k d) as [w1|] eqn:E1.
      * apply Qle_lt_trans with w1; [apply Hv; reflexivity|].
        exact (Hnew _ _ E0 E1).
      * unfold Dict.getd. rewrite E1.
        apply clamp01_lt; [reflexivity | lra].
    + rewrite DictFacts.get_set_other by assumption. apply Hnew, E0.
  - intros k w. destruct (string_dec key k) as [->|Hne].
    + rewrite DictFacts.get_set_same. intros [= <-].
      apply clamp01_in_unit.
    + rewrite DictFacts.get_set_other by assumption. apply Hpos.
Qed.

Lemma learn_all_lowered lr reward bias keys d0 d :
  lr * (reward - bias) < 0 ->
  lowered d0 d -> lowered d0 (learn_all lr reward bias keys d).
Proof.
  intros Hdelta. unfold learn_all. revert d.
  induction keys as [|k keys IH]; intros d Hd; simpl; [exact Hd|].
  apply IH, learn_fn_lowered; assumption.
Qed.

(** C10.  On a model whose weights lie in [0, 1] and whose learning rate is
    positive, [record_play] with [skipped = True] raises no keyword,
    artist or genre weight: a weight that was there is at most what it
    was, and a weight that the call creates ends strictly below the seed
    0.5. *)
Theorem skip_never_raises_weights (c : Clock) (song : string)
        (completed : bool) (dp td : Q) (m : Prefs) :
  weights_in_unit m ->
  0 < learning_rate m ->
  let m' := state_after (record_play c song completed dp td true) m in
  never_raised (keyword_scores m) (keyword_scores m')
  /\ never_raised (artist_scores m) (artist_scores m')
  /\ never_raised (genre_hints m) (genre_hints m').
Proof.
  intros (Hk & Ha & Hg) Hlr m'. subst m'. unfold state_after.
  destruct (record_play_run c song completed dp td true m)
    as (o & tp & lu & -> & _ & _).
  cbn [snd keyword_scores artist_scores genre_hints reward_of].
  assert (H5 : learning_rate m * (- 0.3 - 0.5) < 0) by lra.
  assert (H3 : learning_rate m * (- 0.3 - 0.3) < 0) by lra.
  split; [|split].
  - apply learn_all_lowered; [exact H5 | apply lowered_refl, Hk].
  - unfold learn_artist.
    destruct (Features.artist (Features.extract_features song)) as [a|];
      [destruct (PyStr.is_empty a)|];
      try (apply lowered_refl, Ha).
    apply learn_fn_lowered; [exact H3 | apply lowered_refl, Ha].
  - apply learn_all_lowered; [exact H5 | apply lowered_refl, Hg].
Qed.

Lemma skip_never_raises_weights_witness :
  let m' := state_after (record_play (mkClock 2 "2024-05-02T02:10:00")
                                     "Night Rock by Vega" false 3 240 true)
                        night_owl in
  weights_in_unit night_owl
  /\ 0 < learning_rate night_owl
  /\ never_raised (keyword_scores night_owl) (keyword_scores m')
  /\ never_raised (artist_scores night_owl) (artist_scores m')
  /\ never_raised (genre_hints night_owl) (genre_hints m').
Proof.
  split; [|split].
  - unfold weights_in_unit, all_in_unit, in_unit. simpl.
    repeat split; repeat constructor; simpl; discriminate.
  - reflexivity.
  - apply (skip_never_raises_weights (mkClock 2 "2024-05-02T02:10:00")
                                     "Night Rock by Vega" false 3 240
                                     night_owl).
    + unfold weights_in_unit, all_in_unit, in_unit. simpl.
      repeat split; repeat constructor; simpl; discriminate.
    + reflexivity.
Defined.

(* ================================================================== *)
(** ** The worked example of a first, completed play *)

(** C5.  On the default model, at any hour of the day,
    [record_play("DJ Nova - Night Drive", True, 180, 180, False)] has
    completion 1 and returns the reward 1, creates the statistics of the
    song with [play_count = 1], sets the weights of "night" and "drive",
    seeded at 0.5, to 0.55, and the weight of "dj nova" to 0.57. *)
Theorem first_play_example (c : Clock) :
  (hour c < 24)%nat ->
  let song := "DJ Nova - Night Drive" in
  let run := record_play c song true 180 180 false default_prefs in
  completion_ratio true 180 180 == 1
  /\ (exists reward, fst run = Returned reward /\ reward == 1)
  /\ Dict.get song (song_stats default_prefs) = None
  /\ (exists st, Dict.get song (song_stats (snd run)) = Some st
                 /\ play_count st = 1%Z)
  /\ Dict.get "night" (keyword_scores default_prefs) = None
  /\ Dict.get "drive" (keyword_scores default_prefs) = None
  /\ Dict.get "dj nova" (artist_scores default_prefs) = None
  /\ (exists w, Dict.get "night" (keyword_scores (snd run)) = Some w
                /\ w == 0.55)
  /\ (exists w, Dict.get "drive" (keyword_scores (snd run)) = Some w
                /\ w == 0.55)
  /\ (exists w, Dict.get "dj nova" (artist_scores (snd run)) = Some w
                /\ w == 0.57).
Proof.
  intros Hh song run. subst run song.
  destruct (record_play_run c "DJ Nova - Night Drive" true 180 180 false
                            default_prefs)
    as (o & tp & lu & -> & Ho & _).
  rewrite (Ho (default_has_hour _ Hh)). cbn [fst snd].
  split; [vm_compute; reflexivity|].
  split; [eexists; split; [reflexivity | vm_compute; reflexivity]|].
  split; [reflexivity|].
  split.
  { cbn [song_stats rated_stats].
    rewrite (touch_get _ _ _ _ (noted_stats_get _ _ _ _)).
    eexists. split; reflexivity. }
  do 3 (split; [reflexivity|]).
  cbn [keyword_scores artist_scores].
  repeat split; eexists; (split; [vm_compute; reflexivity|]);
    vm_compute; reflexivity.
Qed.

Module Binary64Facts.
Import PrimFloat.

#[local] Set Warnings "-inexact-float".

(** The same numbers come out of binary64 arithmetic. *)
Lemma first_play_example_binary64 :
  let reward := Binary64.reward_of true 180 180 in
  (Binary64.completion_ratio true 180 180 =? 1)%float = true
  /\ (reward =? 1)%float = true
  /\ (Binary64.learned 0.5 0.1 reward 0.5 =? 0.55)%float = true
  /\ (Binary64.learned 0.5 0.1 reward 0.3 =? 0.57)%float = true.
Proof. repeat split. Qed.

End Binary64Facts.

Lemma first_play_example_witness :
  let song := "DJ Nova - Night Drive" in
  let run := record_play (mkClock 20 "2024-05-01T20:00:00") song true 180 180
                         false default_prefs in
  (20 < 24)%nat
  /\ completion_ratio true 180 180 == 1
  /\ (exists reward, fst run = Returned reward /\ reward == 1)
  /\ Dict.get song (song_stats default_prefs) = None
  /\ (exists st, Dict.get song (song_stats (snd run)) = Some st
                 /\ play_count st = 1%Z)
  /\ Dict.get "night" (keyword_scores default_prefs) = None
  /\ Dict.get "drive" (keyword_scores default_prefs) = None
  /\ Dict.get "dj nova" (artist_scores default_prefs) = None
  /\ (exists w, Dict.get "night" (keyword_scores (snd run)) = Some w
                /\ w == 0.55)
  /\ (exists w, Dict.get "drive" (keyword_scores (snd run)) = Some w
                /\ w == 0.55)
  /\ (exists w, Dict.get "dj nova" (artist_scores (snd run)) = Some w
                /\ w == 0.57).
Proof.
  split.
  - lia.
  - apply (first_play_example (mkClock 20 "2024-05-01T20:00:00")).
    simpl. lia.
Defined.

(* ================================================================== *)
(** ** Scoring *)

Lemma calculate_song_score_returns log c song m :
  exists sd, calculate_song_score log c song m = (Returned sd, m).
Proof.
  unfold calculate_song_score, bind, gets, ret. eexists. reflexivity.
Qed.

(** C7.  [calculate_song_score] returns and leaves the model as it found
    it, so a second call on the same model at the same hour gives the same
    result and again the same model. *)
Theorem score_is_read_only (log : Q -> Q) (c : Clock) (song : string)
        (m : Prefs) :
  let first := calculate_song_score log c song m in
  let second := calculate_song_score log c song (snd first) in
  snd first = m
  /\ (exists sd, fst first = Returned sd)
  /\ fst second = fst first
  /\ snd second = m.
Proof.
  destruct (calculate_song_score_returns log c song m) as [sd Hrun].
  cbv zeta. rewrite Hrun. cbn [fst snd]. rewrite Hrun. cbn [fst snd].
  repeat split. exists sd. reflexivity.
Qed.

Lemma known_sum_unknown (hints : Dict.t Q) (keys : list string) (acc : Q * Z) :
  (forall k, In k keys -> Dict.get k hints = None) ->
  fold_left
    (fun (acc : Q * Z) k =>
       match Dict.get k hints with
       | Some w => (fst acc + w, (snd acc + 1)%Z)
       | None => acc
       end)
    keys acc
  = acc.
Proof.
  revert acc. induction keys as [|k keys IH]; intros acc Hk; [reflexivity|].
  cbn [fold_left]. rewrite (Hk k (or_introl eq_refl)).
  apply IH. intros k' Hk'. apply Hk. right. exact Hk'.
Qed.

(** A track that has genre tags, none of them known, is scored with the
    genre component 0: the block takes 0.1 off the score. *)
Lemma genre_step_all_unknown (hints : Dict.t Q) (f : Features.t) (acc : Acc) :
  Features.potential_genre f <> [] ->
  (forall g, In g (Features.potential_genre f) -> Dict.get g hints = None) ->
  exists g,
    genre_step hints f acc
    = (fst acc + (g - 0.5) * 0.2, Dict.set "genre" g (snd acc))
    /\ g == 0.
Proof.
  intros Hne Hunknown. unfold genre_step, known_sum.
  destruct (Features.potential_genre f) as [|t tags] eqn:E;
    [contradiction Hne; reflexivity|].
  rewrite (known_sum_unknown hints (t :: tags) (0, 0%Z) Hunknown).
  eexists. split; [reflexivity|]. cbn [fst]. unfold Qdiv.
  apply Qmult_0_l.
Qed.

(** C3.  The genre block divides the sum of the known genre weights by
    the number of all the genre tags of the track, known or not: on
    the default model the track "rock anthem", whose only genre tag is
    unknown, gets the genre component 0 and the score 0.4 (the factor is
    applied, not skipped); and with rock known at 0.8 the track
    "rock pop" gets the genre component 0.8 / 2 = 0.4 (the unknown tag pop
    counts in the divisor). *)
Theorem genre_factor_divides_by_all_tags (log : Q -> Q) :
  (exists sd,
      result_of (calculate_song_score log noon "rock anthem") default_prefs
      = Returned sd
      /\ Features.potential_genre (scored_features sd) = ["rock"]
      /\ Dict.get "rock" (genre_hints default_prefs) = None
      /\ (exists g, Dict.get "genre" (components sd) = Some g /\ g == 0)
      /\ score sd == 0.4)
  /\ (exists sd,
         result_of (calculate_song_score log noon "rock pop") rock_fan
         = Returned sd
         /\ Features.potential_genre (scored_features sd) = ["rock"; "pop"]
         /\ Dict.get "pop" (genre_hints rock_fan) = None
         /\ (exists g, Dict.get "genre" (components sd) = Some g /\ g == 0.4)
         /\ score sd == 0.48).
Proof.
  split; eexists; (split; [vm_compute; reflexivity|]);
    cbn [scored_features components score];
    (split; [reflexivity|]); (split; [reflexivity|]);
    (split; [eexists; split; [reflexivity|]; vm_compute; reflexivity|]);
    vm_compute; reflexivity.
Qed.

(* ================================================================== *)
(** ** Loading the preferences *)

Module JsonFacts.
Import Json.

Lemma merge_object (defaults fields : Dict.t value) :
  exists merged,
    merge_defaults defaults (Obj fields) = Some (Obj merged)
    /\ forall k, Dict.get k merged
                 = match Dict.get k fields with
                   | Some v => Some v
                   | None => Dict.get k defaults
                   end.
Proof.
  revert fields. induction defaults as [|[key v] rest IH]; intros fields.
  - exists fields. split; [reflexivity|].
    intros k. destruct (Dict.get k fields); reflexivity.
  - cbn [merge_defaults py_in set_item].
    destruct (Dict.mem key fields) eqn:E.
    + destruct (IH fields) as (merged & Hm & Hget).
      exists merged. split; [exact Hm|].
      intros k. rewrite Hget. cbn [Dict.get].
      destruct (Dict.get k fields) eqn:Ek; [reflexivity|].
      destruct (String.eqb k key) eqn:Ekey; [|reflexivity].
      apply String.eqb_eq in Ekey. subst k.
      unfold Dict.mem in E. rewrite Ek in E. discriminate.
    + destruct (IH (Dict.set key v fields)) as (merged & Hm & Hget).
      exists merged. split; [exact Hm|].
      intros k. rewrite Hget. cbn [Dict.get].
      destruct (String.eqb k key) eqn:Ekey.
      * apply String.eqb_eq in Ekey. subst k.
        rewrite DictFacts.get_set_same.
        unfold Dict.mem in E. destruct (Dict.get key fields); [discriminate|].
        reflexivity.
      * rewrite DictFacts.get_set_other; [reflexivity|].
        intros ->. rewrite String.eqb_refl in Ekey. discriminate.
Qed.

Lemma merge_not_object (defaults : Dict.t value) (v : value) :
  (forall fields, v <> Obj fields) ->
  merge_defaults defaults v = Some v
  \/ merge_defaults defaults v = None.
Proof.
  intros Hv. induction defaults as [|[key d] rest IH]; [left; reflexivity|].
  cbn [merge_defaults].
  destruct v as [| b | q | s | items | fields]; cbn [py_in set_item];
    try (right; reflexivity).
  - destruct (PyStr.contains key s); [exact IH | right; reflexivity].
  - destruct (existsb (is_str key) items); [exact IH | right; reflexivity].
  - exfalso. exact (Hv fields eq_refl).
Qed.

End JsonFacts.

Lemma merge_not_object_exact (defaults : Dict.t Json.value)
      (v : Json.value) :
  (forall fields, v <> Json.Obj fields) ->
  Json.merge_defaults defaults v
  = if forallb (fun key => match Json.py_in key v with
                           | Some true => true
                           | _ => false
                           end)
               (map fst defaults)
    then Some v else None.
Proof.
  intros Hv. induction defaults as [|[key d] rest IH]; [reflexivity|].
  cbn [Json.merge_defaults map fst forallb].
  destruct (Json.py_in key v) as [[|]|] eqn:E; cbn [andb];
    [exact IH | | reflexivity].
  destruct v as [| b | q | s | items | fields]; try reflexivity.
  exfalso. exact (Hv fields eq_refl).
Qed.

(** C9.  [_load_preferences] returns unfilled a document that is not an
    object and names every key: the list of the nine key names, and a
    text in which they occur, come back as the model, with no field in
    them, instead of being filled from, or replaced by, the default
    shape.  Everywhere else the load does what is expected of it.  For a
    document that is an object every field of the document is kept and
    every field of the default shape that it lacks is taken from the
    default shape.  When the file is absent, cannot be read or cannot be
    parsed, and for every other document that is not an object ([null], a
    number, a list or text in which one of the keys does not occur), the
    result is the default shape, whose counters are 0, whose maps are
    empty and whose learning rate is 0.1. *)
Theorem load_keeps_what_names_every_key :
  Json.load_preferences (Json.Document key_list) = key_list
  /\ Json.load_preferences (Json.Document key_text) = key_text
  /\ (forall key,
        field_of key (Json.load_preferences (Json.Document key_list)) = None
        /\ field_of key (Json.load_preferences (Json.Document key_text))
           = None)
  /\ (forall fields,
        exists merged,
          Json.load_preferences (Json.Document (Json.Obj fields))
          = Json.Obj merged
          /\ forall k, Dict.get k merged
                       = match Dict.get k fields with
                         | Some v => Some v
                         | None => Dict.get k Json.default_fields
                         end)
  /\ Json.load_preferences Json.Absent = Json.default
  /\ Json.load_preferences Json.Unreadable = Json.default
  /\ Json.load_preferences Json.Malformed = Json.default
  /\ (forall v, (forall fields, v <> Json.Obj fields) ->
                Json.load_preferences (Json.Document v)
                = if names_every_key v then v else Json.default)
  /\ Json.load_preferences (Json.Document Json.Null) = Json.default
  /\ Json.load_preferences (Json.Document (Json.Arr [])) = Json.default
  /\ Json.load_preferences (Json.Document (Json.Str "")) = Json.default
  /\ (forall q, Json.load_preferences (Json.Document (Json.Num q))
                = Json.default)
  /\ (forall b, Json.load_preferences (Json.Document (Json.Bool b))
                = Json.default)
  /\ Dict.get "song_stats" Json.default_fields = Some (Json.Obj [])
  /\ Dict.get "keyword_scores" Json.default_fields = Some (Json.Obj [])
  /\ Dict.get "artist_scores" Json.default_fields = Some (Json.Obj [])
  /\ Dict.get "genre_hints" Json.default_fields = Some (Json.Obj [])
  /\ Dict.get "total_plays" Json.default_fields = Some (Json.Num 0)
  /\ Dict.get "total_skips" Json.default_fields = Some (Json.Num 0)
  /\ Dict.get "learning_rate" Json.default_fields = Some (Json.Num 0.1)
  /\ Dict.get "last_updated" Json.default_fields = Some Json.Null.
Proof.
  split; [reflexivity|]. split; [reflexivity|].
  split; [intros key; split; reflexivity|].
  split.
  { intros fields. unfold Json.load_preferences.
    destruct (JsonFacts.merge_object Json.default_fields fields)
      as (merged & -> & Hget).
    exists merged. split; [reflexivity | exact Hget]. }
  do 3 (split; [reflexivity|]).
  split.
  { intros v Hv. unfold Json.load_preferences, names_every_key, default_keys.
    rewrite (merge_not_object_exact Json.default_fields v Hv).
    destruct (forallb _ _); reflexivity. }
  repeat split.
Qed.

(* ================================================================== *)
(** ** Feature extraction: the [" by "] branch *)

Module PyStrFacts.
Import PyStr.

Lemma startswith_app (p s : string) :
  startswith p s = true -> s = (p ++ drop (String.length p) s)%string.
Proof.
  revert s. induction p as [|a p IH]; intros s H; simpl.
  - reflexivity.
  - destruct s as [|b s]; simpl in H; [discriminate|].
    apply andb_true_iff in H. destruct H as [Hab Hps].
    apply Ascii.eqb_eq in Hab. subst b.
    rewrite <- (IH s Hps). reflexivity.
Qed.

Lemma split_once_app (sep s l r : string) :
  split_once sep s = Some (l, r) -> s = (l ++ sep ++ r)%string.
Proof.
  revert l r. induction s as [|c s IH]; intros l r; simpl.
  - destruct (startswith sep EmptyString) eqn:E; [|discriminate].
    intros [= <- <-]. apply startswith_app in E. exact E.
  - destruct (startswith sep (String c s)) eqn:E.
    + intros [= <- <-]. apply startswith_app in E. exact E.
    + destruct (split_once sep s) as [[l' r']|]; [|discriminate].
      intros [= <- <-]. simpl. f_equal. apply IH. reflexivity.
Qed.

Lemma contains_split_once (sep s : string) :
  contains sep s = true -> exists l r, split_once sep s = Some (l, r).
Proof.
  induction s as [|c s IH]; simpl; intros H.
  - rewrite orb_false_r in H. rewrite H. eauto.
  - destruct (startswith sep (String c s)); [eauto|].
    simpl in H. destruct (IH H) as (l & r & ->). eauto.
Qed.

Lemma starts_with_delim_head (s : string) :
  starts_with_delim s = true -> exists qs, re_split s = EmptyString :: qs.
Proof.
  induction s as [|c s IH]; simpl; [discriminate|].
  intros ->. destruct (starts_with_delim s); eauto.
Qed.

(** Cutting a text before a delimiter keeps its first piece, and its other
    pieces unless they are empty. *)
Lemma re_split_app_delim (l : string) (d : ascii) (rest : string) :
  is_delim d = true ->
  exists h ps qs,
    re_split l = h :: ps
    /\ re_split (l ++ String d rest) = h :: qs
    /\ forall p, In p ps -> p = EmptyString \/ In p qs.
Proof.
  intros Hd. induction l as [|c l IH].
  - simpl. rewrite Hd.
    destruct (starts_with_delim rest) eqn:E.
    + destruct (starts_with_delim_head rest E) as [qs ->].
      exists EmptyString, [], qs. repeat split. intros p [].
    + exists EmptyString, [], (re_split rest). repeat split. intros p [].
  - destruct IH as (h & ps & qs & Hl & Hr & Hin).
    cbn [append re_split]. destruct (is_delim c).
    + destruct l as [|c' l].
      * simpl in Hl. injection Hl as <- <-.
        cbn [append starts_with_delim]. rewrite Hd.
        cbn [append] in Hr. rewrite Hr.
        exists EmptyString, [EmptyString], qs. repeat split.
        intros p [<-|[]]. left. reflexivity.
      * cbn [append starts_with_delim].
        cbn [append] in Hr. destruct (is_delim c').
        -- exists h, ps, qs. auto.
        -- rewrite Hl, Hr.
           exists EmptyString, (h :: ps), (h :: qs). repeat split.
           intros p [<-|Hp]; [right; left; reflexivity|].
           destruct (Hin p Hp); [left | right; right]; assumption.
    + rewrite Hl, Hr. exists (String c h), ps, qs. auto.
Qed.

End PyStrFacts.

Lemma keywords_of_app_delim (l : string) (d : ascii) (rest w : string) :
  PyStr.is_delim d = true ->
  In w (Features.keywords_of l) ->
  In w (Features.keywords_of (l ++ String d rest)).
Proof.
  intros Hd. unfold Features.keywords_of.
  rewrite !in_map_iff. intros (p & Hw & Hp). exists p. split; [exact Hw|].
  rewrite filter_In in *. destruct Hp as [Hp Hlen]. split; [|exact Hlen].
  destruct (PyStrFacts.re_split_app_delim l d rest Hd)
    as (h & ps & qs & Hl & Hr & Hin).
  rewrite Hr. rewrite Hl in Hp. destruct Hp as [<-|Hp]; [left; reflexivity|].
  destruct (Hin p Hp) as [->|Hq]; [discriminate | right; exact Hq].
Qed.

(** C4.  For a name whose root has no [" - "] and
    whose lower-cased root contains [" by "], the artist is the stripped
    text after the first [" by "], and the keywords are those of the
    whole lower-cased root: every keyword of the text before [" by "] is
    among them. *)
Theorem by_branch_keeps_left (song_name : string) :
  let name := PyStr.splitext_root song_name in
  PyStr.contains " - " name = false ->
  PyStr.contains " by " (PyStr.lower name) = true ->
  exists l r,
    PyStr.split_once " by " (PyStr.lower name) = Some (l, r)
    /\ Features.artist (Features.extract_features song_name)
       = Some (PyStr.strip r)
    /\ Features.keywords (Features.extract_features song_name)
       = Features.keywords_of (PyStr.lower name)
    /\ forall w,
         In w (Features.keywords_of l) ->
         In w (Features.keywords (Features.extract_features song_name)).
Proof.
  intros name Hdash Hby.
  destruct (PyStrFacts.contains_split_once _ _ Hby) as (l & r & Hsplit).
  exists l, r.
  assert (Hf : Features.split_artist name
               = (Some (PyStr.strip r), PyStr.lower name)).
  { unfold Features.split_artist. rewrite Hdash, Hby, Hsplit. reflexivity. }
  unfold Features.extract_features. fold name. rewrite Hf.
  cbn [Features.artist Features.keywords].
  repeat split; try assumption.
  intros w Hw. rewrite (PyStrFacts.split_once_app _ _ _ _ Hsplit).
  apply (keywords_of_app_delim l " "%char ("by " ++ r)%string w);
    [reflexivity | exact Hw].
Qed.

Lemma by_branch_keeps_left_witness :
  let song := "Night Drive by DJ Nova.mp3" in
  let name := PyStr.splitext_root song in
  PyStr.contains " - " name = false
  /\ PyStr.contains " by " (PyStr.lower name) = true
  /\ exists l r,
       PyStr.split_once " by " (PyStr.lower name) = Some (l, r)
       /\ Features.artist (Features.extract_features song)
          = Some (PyStr.strip r)
       /\ Features.keywords (Features.extract_features song)
          = Features.keywords_of (PyStr.lower name)
       /\ forall w,
            In w (Features.keywords_of l) ->
            In w (Features.keywords (Features.extract_features song)).
Proof.
  split; [reflexivity|]. split; [reflexivity|].
  apply (by_branch_keeps_left "Night Drive by DJ Nova.mp3"); reflexivity.
Defined.

(** C4.  The text before [" by "] does give keywords: "night" is a
    keyword of "Night Drive by DJ Nova", is a word of the text before
    [" by "] and is not a word of the text after it. *)
Lemma by_branch_uses_left :
  ~ by_branch_ignores_left "Night Drive by DJ Nova".
Proof.
  intros H.
  destruct (H eq_refl eq_refl "night drive" "dj nova" eq_refl) as [_ Hkw].
  apply (Hkw "night").
  - left. reflexivity.
  - vm_compute. intros [E|[]]. discriminate E.
  - left. reflexivity.
Qed.

(* ================================================================== *)
(** ** Sorting *)

Section SortFacts.
Context {A : Type}.
Variable key : A -> Q.

Lemma insert_desc_perm (x : A) (l : list A) :
  Permutation (x :: l) (insert_desc key x l).
Proof.
  induction l as [|y l IH]; simpl; [reflexivity|].
  destruct (Qltb (key x) (key y)); [|reflexivity].
  rewrite perm_swap. apply perm_skip, IH.
Qed.

Lemma sort_desc_perm (l : list A) : Permutation l (sort_desc key l).
Proof.
  induction l as [|x l IH]; simpl; [reflexivity|].
  rewrite <- insert_desc_perm. apply perm_skip, IH.
Qed.

Lemma sort_desc_Forall (P : A -> Prop) (l : list A) :
  Forall P l -> Forall P (sort_desc key l).
Proof.
  intros H. rewrite Forall_forall in *. intros x Hx. apply H.
  apply (Permutation_in x (Permutation_sym (sort_desc_perm l))). exact Hx.
Qed.

(** An item above a bound that all the sorted items respect goes first. *)
Lemma insert_desc_top (b : Q) (x : A) (l : list A) :
  Forall (fun e => key e <= b) l -> b < key x ->
  insert_desc key x l = x :: l.
Proof.
  intros Hl Hx. destruct l as [|y l]; simpl; [reflexivity|].
  inversion Hl as [|? ? Hy Hl']; subst.
  assert (E : Qltb (key x) (key y) = false) by (apply Qltb_ge; lra).
  rewrite E. reflexivity.
Qed.

Lemma sort_desc_top (b : Q) (x : A) (l1 l2 : list A) :
  Forall (fun e => key e <= b) l1 ->
  Forall (fun e => key e <= b) l2 ->
  b < key x ->
  sort_desc key (l1 ++ x :: l2) = x :: sort_desc key (l1 ++ l2).
Proof.
  intros H1 H2 Hx. induction H1 as [|y l1 Hy H1 IH]; simpl.
  - apply (insert_desc_top b); [apply sort_desc_Forall; exact H2 | exact Hx].
  - rewrite IH. simpl.
    assert (E : Qltb (key y) (key x) = true) by (apply Qltb_lt; lra).
    rewrite E. reflexivity.
Qed.

End SortFacts.

Lemma Forall_firstn {A : Type} (P : A -> Prop) (n : nat) (l : list A) :
  Forall P l -> Forall P (firstn n l).
Proof.
  intros H. revert n. induction H as [|x l Hx Hl IH]; intros [|n]; simpl;
    constructor; auto.
Qed.

Lemma filter_none {A : Type} (f : A -> bool) (l : list A) :
  Forall (fun x => f x = false) l -> filter f l = [].
Proof.
  induction 1 as [|x l Hx Hl IH]; simpl; [reflexivity|].
  rewrite Hx. exact IH.
Qed.

Lemma filter_weak_scores (b t : Q) (n : nat) (l : list (string * Q)) :
  b <= t ->
  Forall (fun e => snd e <= b) l ->
  filter (fun e => Qltb t (snd e)) (firstn n (sort_desc snd l)) = [].
Proof.
  intros Hbt Hl. apply filter_none, Forall_firstn, sort_desc_Forall.
  apply (Forall_impl _ (P := fun e => snd e <= b)); [|exact Hl].
  intros e He. apply Qltb_ge. lra.
Qed.

(* ================================================================== *)
(** ** Recommendations *)

Lemma weak_genres_recommend_nothing (d : Dict.t Q) :
  Forall (fun e => snd e <= 0.55) d ->
  genre_recommendations (firstn 3 (sorted_items d)) = [].
Proof.
  intros Hd. unfold genre_recommendations, sorted_items, Dict.items.
  rewrite (filter_weak_scores 0.55 0.55); [reflexivity | lra | exact Hd].
Qed.

Lemma weak_keywords_recommend_nothing (d : Dict.t Q) :
  Forall (fun e => snd e <= 0.55) d ->
  keyword_recommendations (firstn 10 (sorted_items d)) = [].
Proof.
  intros Hd. unfold keyword_recommendations, sorted_items, Dict.items.
  rewrite (filter_weak_scores 0.55 0.6); [|lra | exact Hd].
  destruct (2 <=? _)%nat; reflexivity.
Qed.

Lemma top_artist_recommended (d : Dict.t Q) (a : string) (w : Q) :
  NoDup (map fst d) ->
  Dict.get a d = Some w ->
  0.55 < w ->
  (forall a' x, In (a', x) d -> a' <> a -> x <= 0.55) ->
  artist_recommendations (firstn 5 (sorted_items d))
  = [ {| query := (a ++ " popular songs")%string;
         reason := ("You seem to enjoy " ++ Title.title a)%string;
         confidence := w;
         type := "artist" |} ].
Proof.
  intros Hnd Hget Hw Hothers.
  apply DictFacts.get_In in Hget.
  destruct (in_split _ _ Hget) as (l1 & l2 & ->).
  rewrite map_app in Hnd. cbn [map fst] in Hnd.
  assert (Hnot : ~ In a (map fst l1 ++ map fst l2))
    by (apply NoDup_remove_2; exact Hnd).
  assert (Hweak : forall l, incl l (l1 ++ l2) ->
                            Forall (fun e => snd e <= 0.55) l).
  { intros l Hl. apply Forall_forall. intros [a' x] Hin.
    apply Hl in Hin. apply (Hothers a' x).
    - apply in_app_iff in Hin. apply in_app_iff.
      destruct Hin; [left | right; right]; assumption.
    - intros ->. apply Hnot. rewrite <- map_app.
      apply (in_map fst _ _ Hin). }
  unfold artist_recommendations, sorted_items, Dict.items.
  rewrite (sort_desc_top snd 0.55 (a, w) l1 l2);
    [| apply Hweak, incl_appl, incl_refl
     | apply Hweak, incl_appr, incl_refl
     | exact Hw].
  rewrite !firstn_cons. cbn [filter snd].
  assert (E : Qltb 0.55 w = true) by (apply Qltb_lt; exact Hw).
  rewrite E. cbn [map fst snd].
  rewrite filter_none; [reflexivity|].
  apply Forall_firstn, Forall_firstn, sort_desc_Forall.
  apply (Forall_impl _ (P := fun e => snd e <= 0.55));
    [| apply Hweak, incl_refl].
  intros e He. apply Qltb_ge. exact He.
Qed.

Lemma time_recommendations_cases (h : nat) :
  time_recommendations h = []
  \/ exists t, time_recommendations h = [t]
               /\ type t = "time" /\ confidence t = 0.6.
Proof.
  unfold time_recommendations.
  destruct ((22 <=? h)%nat || (h <? 6)%nat);
    [right; eexists; repeat split|].
  destruct ((6 <=? h)%nat && (h <? 10)%nat);
    [right; eexists; repeat split | left; reflexivity].
Qed.

(** C8.  On a model whose artist map holds "dj nova" at 0.8 and in which
    no other artist, no genre and no keyword is above 0.55,
    [get_download_recommendations(5)] returns a list that starts with the
    suggestion of type artist, query "dj nova popular songs" and
    confidence 0.8; what follows it is not of type artist and has a
    strictly lower confidence, and the list is sorted by descending
    confidence and has at most 5 entries. *)
Theorem loved_artist_is_top_suggestion (c : Clock) (m : Prefs) (w : Q) :
  NoDup (map fst (artist_scores m)) ->
  Dict.get "dj nova" (artist_scores m) = Some w ->
  w == 0.8 ->
  (forall a x, In (a, x) (artist_scores m) -> a <> "dj nova" -> x <= 0.55) ->
  Forall (fun e => snd e <= 0.55) (genre_hints m) ->
  Forall (fun e => snd e <= 0.55) (keyword_scores m) ->
  exists r rest,
    result_of (get_download_recommendations c 5) m = Returned (r :: rest)
    /\ type r = "artist"
    /\ query r = "dj nova popular songs"
    /\ confidence r == 0.8
    /\ Forall (fun r' => type r' <> "artist" /\ confidence r' < confidence r)
              rest
    /\ StronglySorted (fun a b => confidence b <= confidence a) (r :: rest)
    /\ (length (r :: rest) <= 5)%nat.
Proof.
  intros Hnd Hget Hw Hartists Hgenres Hkeywords.
  assert (Hw' : 0.55 < w) by lra.
  unfold result_of, get_download_recommendations, bind, gets, ret.
  cbn [fst].
  rewrite (top_artist_recommended _ _ _ Hnd Hget Hw' Hartists).
  rewrite (weak_genres_recommend_nothing _ Hgenres).
  rewrite (weak_keywords_recommend_nothing _ Hkeywords).
  cbn [app].
  destruct (time_recommendations_cases (hour c)) as [-> | (t & -> & Ht & Hc)].
  - eexists. exists []. cbn. repeat split; try assumption.
    + constructor.
    + repeat constructor.
    + lia.
  - assert (E : Qltb w (confidence t) = false)
      by (apply Qltb_ge; rewrite Hc; lra).
    cbn [sort_desc fold_right insert_desc confidence]. rewrite E.
    eexists. exists [t]. cbn. repeat split; try assumption.
    + constructor; [|constructor]. split.
      * rewrite Ht. discriminate.
      * cbn [confidence]. rewrite Hc. lra.
    + repeat constructor. cbn [confidence]. rewrite Hc. lra.
    + lia.
Qed.

Lemma loved_artist_is_top_suggestion_witness :
  NoDup (map fst (artist_scores nova_fan))
  /\ Dict.get "dj nova" (artist_scores nova_fan) = Some 0.8
  /\ exists r rest,
       result_of (get_download_recommendations
                    (mkClock 23 "2024-05-01T23:30:00") 5) nova_fan
       = Returned (r :: rest)
       /\ type r = "artist"
       /\ query r = "dj nova popular songs"
       /\ confidence r == 0.8
       /\ Forall (fun r' => type r' <> "artist"
                            /\ confidence r' < confidence r) rest
       /\ StronglySorted (fun a b => confidence b <= confidence a)
                         (r :: rest)
       /\ (length (r :: rest) <= 5)%nat.
Proof.
  assert (Hnd : NoDup (map fst (artist_scores nova_fan))).
  { simpl. repeat constructor; simpl; intuition discriminate. }
  split; [exact Hnd|]. split; [reflexivity|].
  apply (loved_artist_is_top_suggestion
           (mkClock 23 "2024-05-01T23:30:00") nova_fan 0.8).
  - exact Hnd.
  - reflexivity.
  - reflexivity.
  - simpl. intros a x [E|[E|[E|[]]]] Hne; inversion E; subst;
      try discriminate. congruence.
  - simpl. repeat constructor; simpl; discriminate.
  - simpl. repeat constructor; simpl; discriminate.
Defined.

(* ================================================================== *)
(** ** The shuffle planner *)

Section ShuffleFacts.
Context {A : Type}.

Lemma update_perm (x b : A) (j : nat) (l : list A) :
  nth_error l j = Some b -> Permutation (x :: l) (b :: update j x l).
Proof.
  revert j. induction l as [|y l IH]; intros [|j]; simpl; try discriminate.
  - intros [= ->]. apply perm_swap.
  - intros Hj. rewrite perm_swap. rewrite (IH j Hj). apply perm_swap.
Qed.

Lemma swap_perm (i j : nat) (l : list A) : Permutation l (swap i j l).
Proof.
  revert i j. induction l as [|x l IH]; intros i j.
  - unfold swap. destruct i; reflexivity.
  - unfold swap. destruct i as [|i], j as [|j]; simpl.
    + reflexivity.
    + destruct (nth_error l j) as [b|] eqn:Ej; [|reflexivity].
      apply update_perm, Ej.
    + destruct (nth_error l i) as [a|] eqn:Ei; [|reflexivity].
      apply update_perm, Ei.
    + specialize (IH i j). unfold swap in IH.
      destruct (nth_error l i) as [a|]; [|reflexivity].
      destruct (nth_error l j) as [b|]; [|reflexivity].
      apply perm_skip, IH.
Qed.

Lemma shuffle_from_perm (i : nat) (x : list A) (g : Rng) :
  Permutation x (fst (shuffle_from i x g)).
Proof.
  revert x g. induction i as [|i IH]; intros x g; [reflexivity|].
  cbn [shuffle_from]. destruct (randbelow (S (S i)) g) as [j g'].
  rewrite <- IH. apply swap_perm.
Qed.

Lemma shuffle_perm (x : list A) (g : Rng) :
  Permutation x (fst (shuffle x g)).
Proof. apply shuffle_from_perm. Qed.

Lemma skipn_nth_error (i : nat) (l : list A) (x : A) :
  nth_error l i = Some x -> skipn i l = x :: skipn (S i) l.
Proof.
  revert i. induction l as [|y l IH]; intros [|i]; simpl; try discriminate.
  - intros [= ->]. reflexivity.
  - intros H. apply (IH i H).
Qed.

(** The inner loop moves items from [preferred] to [result] in order, and
    moves at least one when it may. *)
Lemma take_preferred_spec (count : nat) (preferred : list A) (pref_idx : nat)
      (result : list A) :
  let '(pref_idx', result') :=
    take_preferred count preferred pref_idx result in
  result' ++ skipn pref_idx' preferred = result ++ skipn pref_idx preferred
  /\ (pref_idx <= pref_idx')%nat
  /\ ((0 < count)%nat -> (pref_idx < length preferred)%nat ->
      (pref_idx < pref_idx')%nat)
  /\ ((pref_idx <= length preferred)%nat ->
      (pref_idx' <= length preferred)%nat).
Proof.
  revert pref_idx result.
  induction count as [|count IH]; intros pref_idx result; simpl.
  - repeat split; lia.
  - destruct (nth_error preferred pref_idx) as [x|] eqn:E.
    + specialize (IH (S pref_idx) (result ++ [x])).
      destruct (take_preferred count preferred (S pref_idx) (result ++ [x]))
        as [pref_idx' result'].
      destruct IH as (Heq & Hle & _ & Hin).
      assert (Hlt : (pref_idx < length preferred)%nat)
        by (apply nth_error_Some; congruence).
      repeat split; try lia.
      rewrite Heq, <- app_assoc, (skipn_nth_error _ _ _ E). reflexivity.
    + specialize (IH pref_idx result).
      destruct (take_preferred count preferred pref_idx result)
        as [pref_idx' result'].
      destruct IH as (Heq & Hle & _ & Hin).
      apply nth_error_None in E.
      repeat split; try assumption; lia.
Qed.

(** The [while] loop ends within as many rounds as there are items left,
    and places exactly the items left. *)
Lemma interleave_spec (fuel : nat) (preferred others : list A)
      (pref_idx other_idx : nat) (result : list A) (g : Rng) :
  (pref_idx <= length preferred)%nat ->
  (other_idx <= length others)%nat ->
  (length preferred - pref_idx + (length others - other_idx) <= fuel)%nat ->
  exists out,
    interleave fuel preferred others pref_idx other_idx result g = Some out
    /\ Permutation out
         (result ++ skipn pref_idx preferred ++ skipn other_idx others).
Proof.
  revert pref_idx other_idx result g.
  induction fuel as [|fuel IH]; intros pref_idx other_idx result g Hp Ho Hfuel.
  - assert (pref_idx = length preferred) as -> by lia.
    assert (other_idx = length others) as -> by lia.
    simpl. rewrite !Nat.ltb_irrefl. simpl. exists result. split; [reflexivity|].
    rewrite !skipn_all. rewrite !app_nil_r. reflexivity.
  - cbn [interleave].
    destruct ((pref_idx <? length preferred)%nat
              || (other_idx <? length others)%nat) eqn:Eloop.
    + destruct (randint 2 3 g) as [pref_count g'] eqn:Erand.
      assert (Hcount : (0 < pref_count)%nat).
      { unfold randint in Erand.
        destruct (randbelow (3 - 2 + 1) g) as [r g0].
        injection Erand as <- _. lia. }
      pose proof (take_preferred_spec pref_count preferred pref_idx result)
        as Htake.
      destruct (take_preferred pref_count preferred pref_idx result)
        as [pref_idx' result'].
      destruct Htake as (Heq & Hle & Hlt & Hin).
      specialize (Hlt Hcount). specialize (Hin Hp).
      destruct (nth_error others other_idx) as [y|] eqn:Ey.
      * assert (Hoth : (other_idx < length others)%nat)
          by (apply nth_error_Some; congruence).
        destruct (IH pref_idx' (S other_idx) (result' ++ [y]) g')
          as (out & Hout & Hperm); try lia.
        exists out. split; [exact Hout|].
        rewrite Hperm. rewrite (skipn_nth_error _ _ _ Ey).
        rewrite (app_assoc result), <- Heq, <- !app_assoc. cbn [app].
        apply Permutation_app_head, Permutation_middle.
      * apply nth_error_None in Ey.
        assert (Hpref : (pref_idx < length preferred)%nat).
        { apply orb_true_iff in Eloop. destruct Eloop as [E|E].
          - apply Nat.ltb_lt in E. exact E.
          - apply Nat.ltb_lt in E. lia. }
        specialize (Hlt Hpref).
        destruct (IH pref_idx' other_idx result' g')
          as (out & Hout & Hperm); try lia.
        exists out. split; [exact Hout|].
        rewrite Hperm. rewrite (app_assoc result'), Heq, <- app_assoc.
        reflexivity.
    + apply orb_false_iff in Eloop. destruct Eloop as [E1 E2].
      apply Nat.ltb_ge in E1, E2.
      exists result. split; [reflexivity|].
      rewrite !skipn_all2 by assumption. rewrite !app_nil_r. reflexivity.
Qed.

End ShuffleFacts.

Lemma score_all_run log c (songs : list string) (m : Prefs) :
  exists l,
    map_m (fun song =>
             score_data <- calculate_song_score log c song ;;
             ret {| name := song;
                    scored := score score_data;
                    data := score_data |})
          songs m
    = (Returned l, m)
    /\ map name l = songs.
Proof.
  induction songs as [|song songs IH].
  - exists []. split; reflexivity.
  - destruct IH as (l & Hl & Hnames).
    destruct (calculate_song_score_returns log c song m) as [sd Hsd].
    exists ({| name := song; scored := score sd; data := sd |} :: l).
    split; [|simpl; rewrite Hnames; reflexivity].
    cbn [map_m].
    assert (Hhead :
      (score_data <- calculate_song_score log c song ;;
       ret {| name := song; scored := score score_data; data := score_data |})
        m
      = (Returned {| name := song; scored := score sd; data := sd |}, m)).
    { unfold bind, ret. rewrite Hsd. reflexivity. }
    rewrite (bind_returned _ _ _ _ _ Hhead).
    rewrite (bind_returned _ _ _ _ _ Hl). reflexivity.
Qed.

(** The planner on any input that is not a single song: it returns, and
    the names it returns are a permutation of the input, whatever the
    scores and the draws. *)
Lemma shuffle_order_permutation log c (songs : list string) (g : Rng)
      (m : Prefs) :
  length songs <> 1%nat ->
  exists out,
    result_of (get_smart_shuffle_order log c songs g) m = Returned (Some out)
    /\ Permutation (map name out) songs.
Proof.
  intros Hlen. unfold result_of, get_smart_shuffle_order.
  destruct songs as [|s1 songs]; [exists []; split; reflexivity|].
  destruct (score_all_run log c (s1 :: songs) m) as (l & Hl & Hnames).
  rewrite (bind_returned _ _ _ _ _ Hl).
  set (sorted := sort_desc scored l).
  assert (Hsorted : Permutation l sorted) by apply sort_desc_perm.
  assert (Hmid : Nat.max 1 (length sorted / 2) = (length sorted / 2)%nat).
  { rewrite <- (Permutation_length Hsorted), <- (length_map name l), Hnames.
    destruct songs as [|s2 songs]; [contradiction Hlen; reflexivity|].
    cbn [length].
    assert (1 <= S (S (length songs)) / 2)%nat
      by (apply Nat.div_le_lower_bound; lia).
    lia. }
  rewrite Hmid.
  pose proof (shuffle_perm (firstn (length sorted / 2) sorted) g) as Hp.
  destruct (shuffle (firstn (length sorted / 2) sorted) g) as [preferred g1].
  pose proof (shuffle_perm (skipn (length sorted / 2) sorted) g1) as Ho.
  destruct (shuffle (skipn (length sorted / 2) sorted) g1) as [others g2].
  cbn [fst] in Hp, Ho.
  destruct (interleave_spec (length preferred + length others)
                            preferred others 0 0 [] g2)
    as (out & Hout & Hperm); try lia.
  exists out. unfold ret. cbn [fst]. split; [rewrite Hout; reflexivity|].
  rewrite <- Hnames. apply Permutation_map.
  rewrite Hperm. cbn [app skipn]. rewrite <- Hp, <- Ho, firstn_skipn.
  symmetry. exact Hsorted.
Qed.

(** C1.  For a single song the planner does not return a permutation of
    its input, it returns that song twice: the preferred half [[:max(1, mid)]] and the
    other half [[mid:]] both hold it when [mid = 0]. *)
Theorem single_song_is_planned_twice (log : Q -> Q) (c : Clock)
        (song : string) (g : Rng) (m : Prefs) :
  exists out,
    result_of (get_smart_shuffle_order log c [song] g) m
    = Returned (Some out)
    /\ map name out = [song; song]
    /\ length out <> length [song]
    /\ ~ Permutation (map name out) [song].
Proof.
  unfold result_of, get_smart_shuffle_order.
  destruct (score_all_run log c [song] m) as (l & Hl & Hnames).
  rewrite (bind_returned _ _ _ _ _ Hl).
  destruct l as [|x [|y l]]; try discriminate Hnames.
  cbn [sort_desc fold_right insert_desc length Nat.div Nat.divmod fst
       Nat.max firstn skipn shuffle shuffle_from Nat.sub].
  destruct (interleave_spec 2 [x] [x] 0 0 [] g) as (out & Hout & Hperm);
    try (simpl; lia).
  cbn [app skipn] in Hperm. cbn [length Nat.add].
  exists out. unfold ret. cbn [fst]. rewrite Hout.
  apply Permutation_sym, Permutation_length_2_inv in Hperm.
  assert (out = [x; x]) as -> by (destruct Hperm; assumption).
  injection Hnames as Hx. cbn [map]. rewrite Hx.
  repeat split.
  - discriminate.
  - intros Hp. apply Permutation_length in Hp. discriminate Hp.
Qed.

(* ================================================================== *)
(** ** More on scoring and planning *)


Lemma clamp01_inside (x : Q) : 0 < x -> x < 1 -> clamp01 x = x.
Proof.
  intros H0 H1. unfold clamp01, py_min, py_max.
  apply Qltb_lt in H1. rewrite H1. apply Qltb_lt in H0. rewrite H0.
  reflexivity.
Qed.

Lemma getd_constant {V : Type} (v : V) (k : string) (d : Dict.t V) :
  Forall (fun e => snd e = v) d -> Dict.getd v k d = v.
Proof.
  unfold Dict.getd. induction 1 as [|[k' v'] d Hx Hd IH]; simpl;
    [reflexivity|].
  destruct (String.eqb k k'); [exact Hx | exact IH].
Qed.

Lemma default_hour_bucket (h : string) :
  Dict.getd [] h (time_preferences default_prefs) = [].
Proof.
  apply getd_constant. cbn. repeat constructor.
Qed.

Lemma time_step_empty (f : Features.t) (acc : Acc) : time_step [] f acc = acc.
Proof.
  unfold time_step.
  assert (E : fold_left
                (fun (t : Z) k =>
                   match Dict.get k (@nil (string * Z)) with
                   | Some n => (t + n)%Z
                   | None => t
                   end)
                (Features.keywords f) 0%Z = 0%Z).
  { generalize 0%Z. induction (Features.keywords f) as [|k ks IH];
      intros z; [reflexivity | apply IH]. }
  rewrite E. reflexivity.
Qed.

(** X2.  On the default model, where nothing has been learned, a song
    without a genre tag scores 0.5 and a song with genre tags scores 0.4,
    at every hour. *)
Theorem fresh_model_scores (log : Q -> Q) (c : Clock) (song : string) :
  exists sd,
    result_of (calculate_song_score log c song) default_prefs = Returned sd
    /\ score sd
       == match Features.potential_genre (Features.extract_features song) with
          | [] => 0.5
          | _ :: _ => 0.4
          end.
Proof.
  unfold result_of, calculate_song_score, bind, gets, ret. cbn [fst].
  eexists. split; [reflexivity|]. cbn [score].
  rewrite default_hour_bucket, time_step_empty.
  cbn [song_stats keyword_scores artist_scores genre_hints default_prefs
       Dict.get history_step].
  set (f := Features.extract_features song).
  assert (Hk : keyword_step [] f (0.5, []) = (0.5, [])).
  { unfold keyword_step, known_sum.
    rewrite (known_sum_unknown [] (Features.keywords f) (0, 0%Z));
      [reflexivity | reflexivity]. }
  rewrite Hk.
  assert (Ha : artist_step [] f (0.5, []) = (0.5, [])).
  { unfold artist_step. destruct (Features.artist f) as [a|]; [|reflexivity].
    destruct (PyStr.is_empty a); reflexivity. }
  rewrite Ha.
  destruct (Features.potential_genre f) as [|t tags] eqn:E.
  - unfold genre_step. rewrite E. reflexivity.
  - destruct (genre_step_all_unknown [] f (0.5, [])) as (g & -> & Hg).
    + rewrite E. discriminate.
    + reflexivity.
    + cbn [fst]. rewrite clamp01_inside; lra.
Qed.

(** X3.  For every input that is not a single song the planner returns,
    and the names it returns are a permutation of the input, of the same
    length, whatever the model and the random draws. *)
Theorem shuffle_plan_is_permutation (log : Q -> Q) (c : Clock)
        (songs : list string) (g : Rng) (m : Prefs) :
  length songs <> 1%nat ->
  exists out,
    result_of (get_smart_shuffle_order log c songs g) m = Returned (Some out)
    /\ Permutation (map name out) songs
    /\ length out = length songs.
Proof.
  intros Hlen.
  destruct (shuffle_order_permutation log c songs g m Hlen)
    as (out & Hout & Hperm).
  exists out. repeat split; try assumption.
  rewrite <- (length_map name). apply Permutation_length, Hperm.
Qed.

Lemma shuffle_plan_is_permutation_witness :
  length library <> 1%nat
  /\ exists out,
       result_of (get_smart_shuffle_order zero_log noon library [5; 2; 8; 1; 4]%nat)
                 default_prefs
       = Returned (Some out)
       /\ Permutation (map name out) library
       /\ length out = length library.
Proof.
  split.
  - simpl. discriminate.
  - apply (shuffle_plan_is_permutation zero_log noon library
                                       [5; 2; 8; 1; 4]%nat default_prefs).
    simpl. discriminate.
Defined.

(* ================================================================== *)
(** ** More on recommendations *)

Section SortedFacts.
Context {A : Type}.
Variable key : A -> Q.

Let above (a b : A) : Prop := key b <= key a.

Lemma insert_desc_In (x y : A) (l : list A) :
  In y (insert_desc key x l) -> y = x \/ In y l.
Proof.
  intros H. apply (Permutation_in y (Permutation_sym (insert_desc_perm key x l)))
    in H.
  destruct H as [<-|H]; [left; reflexivity | right; exact H].
Qed.

Lemma insert_desc_sorted (x : A) (l : list A) :
  StronglySorted above l -> StronglySorted above (insert_desc key x l).
Proof.
  induction 1 as [|y l Hl IH Hy]; simpl.
  - repeat constructor.
  - destruct (Qltb (key x) (key y)) eqn:E.
    + constructor; [exact IH|].
      apply Forall_forall. intros z Hz.
      destruct (insert_desc_In _ _ _ Hz) as [->|Hz'].
      * unfold above. apply Qlt_le_weak, Qltb_lt, E.
      * rewrite Forall_forall in Hy. exact (Hy z Hz').
    + apply Qltb_ge in E. constructor; [constructor; assumption|].
      constructor; [exact E|].
      apply (Forall_impl _ (P := above y)); [|exact Hy].
      intros z Hz. unfold above in *. apply Qle_trans with (key y); assumption.
Qed.

Lemma sort_desc_sorted (l : list A) : StronglySorted above (sort_desc key l).
Proof.
  induction l as [|x l IH]; simpl; [constructor|].
  apply insert_desc_sorted, IH.
Qed.

Lemma firstn_sorted (n : nat) (l : list A) :
  StronglySorted above l -> StronglySorted above (firstn n l).
Proof.
  intros H. revert n. induction H as [|x l Hl IH Hx]; intros [|n]; simpl;
    try constructor.
  - apply IH.
  - apply Forall_firstn, Hx.
Qed.

Lemma sort_desc_length (l : list A) : length (sort_desc key l) = length l.
Proof. symmetry. apply Permutation_length, sort_desc_perm. Qed.

End SortedFacts.

Lemma slice_to_firstn {A : Type} (count : Z) (l : list A) :
  exists n, slice_to count l = firstn n l
            /\ ((0 <= count)%Z -> n = Z.to_nat count).
Proof.
  unfold slice_to. destruct (0 <=? count)%Z eqn:E.
  - eexists. split; [reflexivity|]. reflexivity.
  - eexists. split; [reflexivity|]. intros H. apply Z.leb_gt in E. lia.
Qed.

Lemma filter_length_le {A : Type} (f : A -> bool) (l : list A) :
  (length (filter f l) <= length l)%nat.
Proof.
  induction l as [|x l IH]; simpl; [lia|]. destruct (f x); simpl; lia.
Qed.

Lemma recommendations_emitted_length (c : Clock) (m : Prefs) :
  (length (artist_recommendations (firstn 5 (sorted_items (artist_scores m)))
           ++ genre_recommendations (firstn 3 (sorted_items (genre_hints m)))
           ++ keyword_recommendations
                (firstn 10 (sorted_items (keyword_scores m)))
           ++ time_recommendations (hour c)) <= 8)%nat.
Proof.
  rewrite !length_app.
  assert (Ha : (length (artist_recommendations
                          (firstn 5 (sorted_items (artist_scores m)))) <= 3)%nat).
  { unfold artist_recommendations. rewrite length_map.
    eapply Nat.le_trans; [apply filter_length_le | apply firstn_le_length]. }
  assert (Hg : (length (genre_recommendations
                          (firstn 3 (sorted_items (genre_hints m)))) <= 3)%nat).
  { unfold genre_recommendations. rewrite length_map.
    eapply Nat.le_trans; [apply filter_length_le | apply firstn_le_length]. }
  assert (Hk : (length (keyword_recommendations
                          (firstn 10 (sorted_items (keyword_scores m)))) <= 1)%nat).
  { unfold keyword_recommendations.
    destruct (2 <=? _)%nat; [|simpl; lia].
    match goal with
    | |- context [match ?x with [] => _ | _ :: _ => _ end] => destruct x
    end; simpl; lia. }
  assert (Ht : (length (time_recommendations (hour c)) <= 1)%nat).
  { destruct (time_recommendations_cases (hour c)) as [-> | (t & -> & _)];
      simpl; lia. }
  lia.
Qed.

(** X4.  Whatever the model, the hour and the requested count, the
    suggestions come back sorted by descending confidence and are at most
    8; for a count that is not negative they are at most [count]. *)
Theorem recommendations_sorted_and_bounded (c : Clock) (count : Z)
        (m : Prefs) :
  exists recs,
    result_of (get_download_recommendations c count) m = Returned recs
    /\ StronglySorted (fun a b => confidence b <= confidence a) recs
    /\ (length recs <= 8)%nat
    /\ ((0 <= count)%Z -> (Z.of_nat (length recs) <= count)%Z).
Proof.
  unfold result_of, get_download_recommendations, bind, gets, ret.
  cbn [fst]. eexists. split; [reflexivity|].
  match goal with
  | |- context [slice_to count ?l] =>
      destruct (slice_to_firstn count l) as (n & -> & Hn);
      assert (Hlen : (length l <= 8)%nat)
        by (rewrite sort_desc_length; apply recommendations_emitted_length)
  end.
  split; [apply firstn_sorted, sort_desc_sorted|].
  rewrite length_firstn. split; [lia|].
  intros Hc. rewrite (Hn Hc). lia.
Qed.

Lemma recommendation_confident (c : Clock) (m : Prefs) (r : Recommendation) :
  In r (artist_recommendations (firstn 5 (sorted_items (artist_scores m)))
        ++ genre_recommendations (firstn 3 (sorted_items (genre_hints m)))
        ++ keyword_recommendations
             (firstn 10 (sorted_items (keyword_scores m)))
        ++ time_recommendations (hour c)) ->
  0.55 < confidence r
  /\ In (type r) ["artist"; "genre"; "keywords"; "time"].
Proof.
  rewrite !in_app_iff. intros [H|[H|[H|H]]].
  - unfold artist_recommendations in H. apply in_map_iff in H.
    destruct H as (e & <- & He). apply filter_In in He.
    destruct He as [_ He]. apply Qltb_lt in He.
    split; [exact He | simpl; auto].
  - unfold genre_recommendations in H. apply in_map_iff in H.
    destruct H as (e & <- & He). apply filter_In in He.
    destruct He as [_ He]. apply Qltb_lt in He.
    split; [exact He | simpl; auto].
  - unfold keyword_recommendations in H.
    destruct (2 <=? _)%nat; [|destruct H].
    match type of H with
    | context [match ?x with [] => _ | _ :: _ => _ end] => destruct x
    end; [destruct H|].
    destruct H as [<-|[]]. split; [reflexivity | simpl; auto].
  - destruct (time_recommendations_cases (hour c))
      as [E | (t & E & Ht & Hc)]; rewrite E in H; [destruct H|].
    destruct H as [<-|[]]. rewrite Ht, Hc.
    split; [reflexivity | simpl; auto].
Qed.

(** X5.  Every suggestion that comes back has a confidence above 0.55 and
    one of the four types artist, genre, keywords and time. *)
Theorem recommendations_are_confident (c : Clock) (count : Z) (m : Prefs) :
  exists recs,
    result_of (get_download_recommendations c count) m = Returned recs
    /\ Forall (fun r => 0.55 < confidence r
                        /\ In (type r) ["artist"; "genre"; "keywords"; "time"])
              recs.
Proof.
  unfold result_of, get_download_recommendations, bind, gets, ret.
  cbn [fst]. eexists. split; [reflexivity|].
  match goal with
  | |- context [slice_to count ?l] =>
      destruct (slice_to_firstn count l) as (n & -> & _)
  end.
  apply Forall_firstn, sort_desc_Forall, Forall_forall.
  intros r Hr. exact (recommendation_confident c m r Hr).
Qed.

(* ================================================================== *)
(** ** More on record_play *)

Lemma record_play_counters c song completed dp td skipped m :
  let m' := state_after (record_play c song completed dp td skipped) m in
  total_plays m' = (total_plays m + 1)%Z
  /\ total_skips m'
     = (if skipped then total_skips m + 1 else total_skips m)%Z.
Proof.
  cbv zeta. unfold state_after.
  destruct (record_play_run c song completed dp td skipped m)
    as (o & tp & lu & -> & _ & _).
  split; reflexivity.
Qed.

(** X6.  After any sequence of [record_play] calls [total_plays] has grown
    by the number of calls and [total_skips] by the number of calls with
    [skipped = True], whether or not a call raised; counted from the
    default model, the skips never exceed the plays. *)
Theorem plays_and_skips_are_counted (events : list Event) (m : Prefs) :
  total_plays (record_all events m)
  = (total_plays m + Z.of_nat (length events))%Z
  /\ total_skips (record_all events m)
     = (total_skips m + Z.of_nat (length (filter ev_skipped events)))%Z
  /\ (total_skips (record_all events default_prefs)
      <= total_plays (record_all events default_prefs))%Z.
Proof.
  assert (H : forall m,
             total_plays (record_all events m)
             = (total_plays m + Z.of_nat (length events))%Z
             /\ total_skips (record_all events m)
                = (total_skips m
                   + Z.of_nat (length (filter ev_skipped events)))%Z).
  { unfold record_all. induction events as [|e events IH]; intros m0.
    - simpl. lia.
    - cbn [fold_left]. destruct (IH (state_after (record_event e) m0))
        as [Hp Hs].
      rewrite Hp, Hs. unfold record_event.
      destruct (record_play_counters (ev_clock e) (ev_song e)
                  (ev_completed e) (ev_played e) (ev_total e)
                  (ev_skipped e) m0) as [-> ->].
      cbn [filter length]. destruct (ev_skipped e); cbn [length]; lia. }
  destruct (H m) as [Hp Hs]. split; [exact Hp|]. split; [exact Hs|].
  destruct (H default_prefs) as [-> ->]. cbn [total_plays total_skips default_prefs].
  pose proof (filter_length_le ev_skipped events). lia.
Qed.

Lemma touch_get_other song other g d :
  other <> song -> Dict.get other (touch song g d) = Dict.get other d.
Proof.
  intros Hne. unfold touch. destruct (Dict.get song d); [|reflexivity].
  apply DictFacts.get_set_other. congruence.
Qed.

(** X7.  [record_play] for one song leaves the statistics of every other
    song as they were: no entry of another song is changed or removed. *)
Theorem record_play_keeps_other_songs (c : Clock) (song other : string)
        (completed : bool) (dp td : Q) (skipped : bool) (m : Prefs) :
  other <> song ->
  Dict.get other
           (song_stats (state_after
                          (record_play c song completed dp td skipped) m))
  = Dict.get other (song_stats m).
Proof.
  intros Hne. unfold state_after.
  destruct (record_play_run c song completed dp td skipped m)
    as (o & tp & lu & -> & _ & _).
  cbn [snd song_stats]. unfold rated_stats, noted_stats.
  destruct skipped; rewrite !touch_get_other by exact Hne;
    (destruct (Dict.mem song (song_stats m)); [reflexivity|]);
    apply DictFacts.get_set_other; congruence.
Qed.

Lemma record_play_keeps_other_songs_witness :
  let m := record_all sample_events default_prefs in
  "lofi beats by Kaya" <> "rock anthem"
  /\ Dict.get "lofi beats by Kaya"
              (song_stats (state_after
                             (record_play noon "rock anthem" true 10 20 false)
                             m))
     = Dict.get "lofi beats by Kaya" (song_stats m).
Proof.
  split.
  - discriminate.
  - apply (record_play_keeps_other_songs noon "rock anthem"
             "lofi beats by Kaya" true 10 20 false
             (record_all sample_events default_prefs)).
    discriminate.
Defined.

(** X8.  A further play of a song that has statistics adds 1 to its
    [play_count], stamps [last_played], and keeps the [first_played] time
    and the feature snapshot of the first play. *)
Theorem replay_keeps_first_snapshot (c : Clock) (song : string)
        (completed : bool) (dp td : Q) (skipped : bool) (m : Prefs)
        (st : SongStats) :
  Dict.get song (song_stats m) = Some st ->
  exists st',
    Dict.get song
             (song_stats (state_after
                            (record_play c song completed dp td skipped) m))
    = Some st'
    /\ play_count st' = (play_count st + 1)%Z
    /\ last_played st' = Some (isoformat c)
    /\ first_played st' = first_played st
    /\ features st' = features st.
Proof.
  intros Hst. unfold state_after.
  destruct (record_play_run c song completed dp td skipped m)
    as (o & tp & lu & -> & _ & _).
  cbn [snd song_stats]. unfold rated_stats.
  destruct skipped;
    rewrite (touch_get _ _ _ _ (noted_stats_get _ _ _ _)), Hst;
    eexists; (split; [reflexivity|]); repeat split.
Qed.

Lemma replay_keeps_first_snapshot_witness :
  let m := record_all sample_events default_prefs in
  exists st st',
    Dict.get "lofi beats by Kaya" (song_stats m) = Some st
    /\ Dict.get "lofi beats by Kaya"
                (song_stats (state_after
                               (record_play noon "lofi beats by Kaya" true
                                            200 200 false) m))
       = Some st'
    /\ play_count st' = (play_count st + 1)%Z
    /\ last_played st' = Some (isoformat noon)
    /\ first_played st' = first_played st
    /\ features st' = features st.
Proof.
  cbv zeta. eexists.
  destruct (replay_keeps_first_snapshot noon "lofi beats by Kaya" true
              200 200 false (record_all sample_events default_prefs) _
              eq_refl) as (st' & H).
  exists st'. split; [reflexivity | exact H].
Defined.

Lemma completion_ratio_bounds (completed : bool) (dp td : Q) :
  0 <= dp ->
  0 <= completion_ratio completed dp td
  /\ completion_ratio completed dp td <= 1.
Proof.
  intros Hdp. unfold completion_ratio.
  destruct (Qltb 0 td) eqn:E.
  - apply Qltb_lt in E.
    assert (Hq : 0 <= dp / td).
    { unfold Qdiv. apply Qmult_le_0_compat; [exact Hdp|].
      apply Qinv_le_0_compat, Qlt_le_weak, E. }
    destruct (py_min_cases 1 (dp / td)) as [[H ->] | [H ->]]; split;
      try assumption; try lra.
  - destruct completed; split; lra.
Qed.



Lemma clamp01_ge (x w : Q) : w <= 1 -> w <= x -> w <= clamp01 x.
Proof.
  intros Hw Hx. unfold clamp01.
  destruct (py_min_cases 1 x) as [[H1 ->] | [H1 ->]].
  - destruct (py_max_cases 0 x) as [[H2 ->] | [H2 ->]]; [assumption|].
    apply Qle_trans with x; assumption.
  - destruct (py_max_cases 0 1) as [[H2 ->] | [H2 ->]]; [assumption|].
    exfalso. apply (Qle_not_lt _ _ H2). reflexivity.
Qed.

Lemma raised_refl d : all_in_unit d -> raised d d.
Proof.
  intros Hd. repeat split.
  - intros k w E. exists w. split; [exact E | apply Qle_refl].
  - intros k w' E1 E2. congruence.
  - intros k w E. exact (proj2 (all_in_unit_get _ _ _ Hd E)).
Qed.

Lemma learn_fn_raised lr reward bias key d0 d :
  0 <= lr * (reward - bias) ->
  raised d0 d -> raised d0 (learn_fn lr reward bias key d).
Proof.
  intros Hdelta ((Hold & Hnew) & Htop). unfold learn_fn.
  set (delta := lr * (reward - bias)) in *.
  assert (Hv : forall w1, Dict.get key d = Some w1 ->
                          w1 <= clamp01 (Dict.getd 0.5 key d + delta)).
  { intros w1 E. unfold Dict.getd. rewrite E.
    apply clamp01_ge; [exact (Htop _ _ E) | lra]. }
  repeat split.
  - intros k w E. destruct (Hold _ _ E) as (w1 & E1 & Hle).
    destruct (string_dec key k) as [->|Hne].
    + rewrite DictFacts.get_set_same. eexists. split; [reflexivity|].
      apply Qle_trans with w1; [exact Hle | apply Hv; exact E1].
    + rewrite DictFacts.get_set_other by assumption.
      exists w1. split; assumption.
  - intros k w' E0. destruct (string_dec key k) as [->|Hne].
    + rewrite DictFacts.get_set_same. intros [= <-].
      destruct (Dict.get k d) as [w1|] eqn:E1.
      * apply Qle_trans with w1; [exact (Hnew _ _ E0 E1)|].
        apply Hv. reflexivity.
      * unfold Dict.getd. rewrite E1. apply clamp01_ge; lra.
    + rewrite DictFacts.get_set_other by assumption. apply Hnew, E0.
  - intros k w. destruct (string_dec key k) as [->|Hne].
    + rewrite DictFacts.get_set_same. intros [= <-].
      apply clamp01_in_unit.
    + rewrite DictFacts.get_set_other by assumption. apply Htop.
Qed.

Lemma learn_all_raised lr reward bias keys d0 d :
  0 <= lr * (reward - bias) ->
  raised d0 d -> raised d0 (learn_all lr reward bias keys d).
Proof.
  intros Hdelta. unfold learn_all. revert d.
  induction keys as [|k keys IH]; intros d Hd; simpl; [exact Hd|].
  apply IH, learn_fn_raised; assumption.
Qed.

(** X10.  On a model whose weights lie in [0, 1] and whose learning rate
    is not negative, a completed play that was not skipped and whose
    [duration_played] is not negative lowers no keyword, artist or genre
    weight, and every weight it creates is at least the seed 0.5. *)
Theorem completed_play_never_lowers_weights (c : Clock) (song : string)
        (dp td : Q) (m : Prefs) :
  weights_in_unit m ->
  0 <= learning_rate m ->
  0 <= dp ->
  let m' := state_after (record_play c song true dp td false) m in
  never_lowered (keyword_scores m) (keyword_scores m')
  /\ never_lowered (artist_scores m) (artist_scores m')
  /\ never_lowered (genre_hints m) (genre_hints m').
Proof.
  intros (Hk & Ha & Hg) Hlr Hdp m'. subst m'. unfold state_after.
  destruct (record_play_run c song true dp td false m)
    as (o & tp & lu & -> & _ & _).
  cbn [snd keyword_scores artist_scores genre_hints].
  assert (Hr : 0.5 <= reward_of true dp td false).
  { unfold reward_of.
    destruct (completion_ratio_bounds true dp td Hdp) as [H0 _]. lra. }
  assert (H5 : 0 <= learning_rate m * (reward_of true dp td false - 0.5))
    by (apply Qmult_le_0_compat; lra).
  assert (H3 : 0 <= learning_rate m * (reward_of true dp td false - 0.3))
    by (apply Qmult_le_0_compat; lra).
  split; [|split].
  - apply learn_all_raised; [exact H5 | apply raised_refl, Hk].
  - unfold learn_artist.
    destruct (Features.artist (Features.extract_features song)) as [a|];
      [destruct (PyStr.is_empty a)|];
      try (apply raised_refl, Ha).
    apply learn_fn_raised; [exact H3 | apply raised_refl, Ha].
  - apply learn_all_raised; [exact H5 | apply raised_refl, Hg].
Qed.

Lemma completed_play_never_lowers_weights_witness :
  let m' := state_after (record_play noon "Night Rock by Vega" true 200 240
                                     false) night_owl in
  weights_in_unit night_owl
  /\ 0 <= learning_rate night_owl
  /\ 0 <= 200
  /\ never_lowered (keyword_scores night_owl) (keyword_scores m')
  /\ never_lowered (artist_scores night_owl) (artist_scores m')
  /\ never_lowered (genre_hints night_owl) (genre_hints m').
Proof.
  assert (Hw : weights_in_unit night_owl).
  { unfold weights_in_unit, all_in_unit, in_unit. simpl.
    repeat split; repeat constructor; simpl; discriminate. }
  split; [exact Hw|]. split; [discriminate|]. split; [discriminate|].
  apply (completed_play_never_lowers_weights noon "Night Rock by Vega"
                                             200 240 night_owl).
  - exact Hw.
  - discriminate.
  - discriminate.
Defined.

(* ================================================================== *)
(** ** More on loading, summarizing and resetting *)

Lemma merge_all_present (defaults : Dict.t Json.value) (v : Json.value) :
  (forall k d, In (k, d) defaults -> Json.py_in k v = Some true) ->
  Json.merge_defaults defaults v = Some v.
Proof.
  induction defaults as [|[key d] rest IH]; intros H; [reflexivity|].
  cbn [Json.merge_defaults]. rewrite (H key d (or_introl eq_refl)).
  apply IH. intros k d' Hin. apply (H k d'). right. exact Hin.
Qed.

Lemma get_of_In {V : Type} (k : string) (v : V) (d : Dict.t V) :
  In (k, v) d -> exists v', Dict.get k d = Some v'.
Proof.
  induction d as [|[k' v'] d IH]; simpl; [intros []|].
  intros [E|Hin].
  - injection E as -> ->. rewrite String.eqb_refl. eauto.
  - destruct (String.eqb k k'); eauto.
Qed.

Lemma merge_keeps_present (defaults : Dict.t Json.value)
      (v merged : Json.value) (key : string) :
  Json.merge_defaults defaults v = Some merged ->
  Json.py_in key v = Some true ->
  Json.py_in key merged = Some true.
Proof.
  intros Hm Hin.
  assert (Hcases : (exists fields, v = Json.Obj fields)
                   \/ forall fields, v <> Json.Obj fields).
  { destruct v; try (right; intros fields; discriminate).
    left. eauto. }
  destruct Hcases as [[fields ->] | Hv].
  - destruct (JsonFacts.merge_object defaults fields)
      as (fields' & Hm' & Hget).
    rewrite Hm' in Hm. injection Hm as <-.
    cbn [Json.py_in] in *. unfold Dict.mem in *. rewrite Hget.
    destruct (Dict.get key fields); [reflexivity | discriminate].
  - destruct (JsonFacts.merge_not_object defaults v Hv) as [E|E];
      rewrite E in Hm; [|discriminate].
    injection Hm as <-. exact Hin.
Qed.

Lemma merge_gives_all (defaults : Dict.t Json.value) (v merged : Json.value) :
  Json.merge_defaults defaults v = Some merged ->
  forall k d, In (k, d) defaults -> Json.py_in k merged = Some true.
Proof.
  revert v. induction defaults as [|[key d0] rest IH]; intros v Hm k d Hin;
    [destruct Hin|].
  cbn [Json.merge_defaults] in Hm.
  destruct (Json.py_in key v) as [[|]|] eqn:Ekey; [| |discriminate].
  - destruct Hin as [Heq|Hin].
    + injection Heq as <- <-.
      exact (merge_keeps_present rest v merged key Hm Ekey).
    + exact (IH v Hm k d Hin).
  - destruct (Json.set_item key d0 v) as [v'|] eqn:Eset; [|discriminate].
    destruct Hin as [Heq|Hin].
    + injection Heq as <- <-.
      apply (merge_keeps_present rest v' merged key Hm).
      destruct v; try discriminate Eset. injection Eset as <-.
      cbn [Json.py_in]. unfold Dict.mem.
      rewrite DictFacts.get_set_same. reflexivity.
    + exact (IH v' Hm k d Hin).
Qed.

(** X11.  Loading is idempotent: what [_load_preferences] returns, written
    back as the document and loaded again, comes back unchanged. *)
Theorem load_is_idempotent (f : Json.file_state) :
  Json.load_preferences (Json.Document (Json.load_preferences f))
  = Json.load_preferences f.
Proof.
  assert (Hdefault : Json.load_preferences (Json.Document Json.default)
                     = Json.default) by reflexivity.
  destruct f as [| | | v]; try exact Hdefault.
  assert (Hv : Json.load_preferences (Json.Document v)
               = match Json.merge_defaults Json.default_fields v with
                 | Some merged => merged
                 | None => Json.default
                 end) by reflexivity.
  rewrite Hv.
  destruct (Json.merge_defaults Json.default_fields v) as [merged|] eqn:E;
    [|exact Hdefault].
  unfold Json.load_preferences.
  rewrite (merge_all_present Json.default_fields merged
             (merge_gives_all _ _ _ E)).
  reflexivity.
Qed.

Lemma In_firstn {A : Type} (x : A) (n : nat) (l : list A) :
  In x (firstn n l) -> In x l.
Proof.
  revert n. induction l as [|y l IH]; intros [|n]; simpl; try tauto.
  intros [H|H]; [left; exact H | right; exact (IH n H)].
Qed.

Lemma In_top_sorted {A : Type} (key : A -> Q) (x : A) (n : nat) (l : list A) :
  In x (firstn n (sort_desc key l)) -> In x l.
Proof.
  intros H. apply In_firstn in H.
  exact (Permutation_in x (Permutation_sym (sort_desc_perm key l)) H).
Qed.

Lemma listed_In (round2 : Q -> Q) (bound : Q) (n : nat) (d : Dict.t Q)
      (a : string) (x : Q) :
  In (a, x) (listed round2 bound (firstn n (sorted_items d))) ->
  exists w, In (a, w) d /\ bound < w /\ x = round2 w.
Proof.
  unfold listed. rewrite in_map_iff. intros ([a' w] & E & Hin).
  injection E as -> <-. apply filter_In in Hin. destruct Hin as [Hin Hw].
  exists w. repeat split.
  - exact (In_top_sorted snd _ _ _ Hin).
  - apply Qltb_lt. exact Hw.
Qed.

Lemma listed_length (round2 : Q -> Q) (bound : Q) (n : nat) (d : Dict.t Q) :
  (length (listed round2 bound (firstn n (sorted_items d))) <= n)%nat.
Proof.
  unfold listed. rewrite length_map.
  eapply Nat.le_trans; [apply filter_length_le | apply firstn_le_length].
Qed.

(** X12.  The summary lists at most 5 artists, 5 genres, 10 keywords and 5
    songs.  Every listed artist or genre is one of the model with a weight
    above 0.4, every listed keyword one with a weight above 0.5, shown
    rounded; every listed song is one of the model, with its play count;
    and the learning progress is at most 100. *)
Theorem summary_lists_what_was_learned (round2 : Q -> Q) (m : Prefs) :
  exists s,
    result_of (get_preference_summary round2) m = Returned s
    /\ (length (top_artists s) <= 5)%nat
    /\ (length (top_genres s) <= 5)%nat
    /\ (length (top_keywords s) <= 10)%nat
    /\ (length (most_played s) <= 5)%nat
    /\ (forall a x, In (a, x) (top_artists s) ->
          exists w, In (a, w) (artist_scores m) /\ 0.4 < w /\ x = round2 w)
    /\ (forall g x, In (g, x) (top_genres s) ->
          exists w, In (g, w) (genre_hints m) /\ 0.4 < w /\ x = round2 w)
    /\ (forall k x, In (k, x) (top_keywords s) ->
          exists w, In (k, w) (keyword_scores m) /\ 0.5 < w /\ x = round2 w)
    /\ (forall n p, In (n, p) (most_played s) ->
          exists st, In (n, st) (song_stats m) /\ play_count st = p)
    /\ (learning_progress s <= 100)%Z.
Proof.
  unfold result_of, get_preference_summary, bind, gets, ret. cbn [fst].
  eexists. split; [reflexivity|].
  cbn [top_artists top_genres top_keywords most_played learning_progress].
  split; [apply listed_length|]. split; [apply listed_length|].
  split; [apply listed_length|].
  split; [rewrite length_map; apply firstn_le_length|].
  split; [intros a x; apply listed_In|].
  split; [intros a x; apply listed_In|].
  split; [intros a x; apply listed_In|].
  split.
  - intros n p Hin. apply in_map_iff in Hin.
    destruct Hin as ([n' st] & E & Hin). injection E as -> <-.
    exists st. split; [|reflexivity].
    exact (In_top_sorted _ _ _ _ Hin).
  - destruct (total_plays m * 2 <? 100)%Z eqn:E; [|lia].
    apply Z.ltb_lt in E. lia.
Qed.

(** X13.  [reset_preferences] leaves the default model, stamped with the
    time of the reset, whatever the model was; the summary taken right
    after it has both counters at 0, empty lists and no progress. *)
Theorem reset_then_summary (round2 : Q -> Q) (c : Clock) (m : Prefs) :
  state_after (reset_preferences c) m
  = set_last_updated (Some (isoformat c)) default_prefs
  /\ result_of (reset_preferences c ;; get_preference_summary round2) m
     = Returned {| summary_total_plays := 0;
                   summary_total_skips := 0;
                   top_artists := [];
                   top_genres := [];
                   top_keywords := [];
                   most_played := [];
                   learning_progress := 0 |}.
Proof. split; reflexivity. Qed.

(** X14.  After any sequence of [record_play] calls on the default model
    the summary reports as many plays as there were calls, and a learning
    progress of twice that number, capped at 100. *)
Theorem learning_progress_counts_plays (round2 : Q -> Q)
        (events : list Event) :
  exists s,
    result_of (get_preference_summary round2)
              (record_all events default_prefs)
    = Returned s
    /\ summary_total_plays s = Z.of_nat (length events)
    /\ learning_progress s = Z.min 100 (2 * Z.of_nat (length events)).
Proof.
  unfold result_of, get_preference_summary, bind, gets, ret. cbn [fst].
  eexists. split; [reflexivity|].
  cbn [summary_total_plays learning_progress].
  destruct (plays_and_skips_are_counted events default_prefs) as (-> & _ & _).
  cbn [total_plays default_prefs]. split; [lia|].
  destruct (_ <? 100)%Z eqn:E;
    [apply Z.ltb_lt in E | apply Z.ltb_ge in E]; lia.
Qed.

(* ================================================================== *)
(** ** More on feature extraction *)

Module KeywordFacts.
Import PyStr.

Lemma lower_char_not_upper (c : ascii) : is_upper (lower_char c) = false.
Proof.
  destruct c as [[|] [|] [|] [|] [|] [|] [|] [|]]; reflexivity.
Qed.

Lemma lower_not_upper (s : string) :
  all_chars (fun c => negb (is_upper c)) (lower s) = true.
Proof.
  induction s as [|c s IH]; simpl; [reflexivity|].
  rewrite lower_char_not_upper, IH. reflexivity.
Qed.

Lemma re_split_pieces (P : ascii -> bool) (s : string) :
  all_chars P s = true ->
  Forall (fun p => all_chars P p = true
                   /\ all_chars (fun c => negb (is_delim c)) p = true)
         (re_split s).
Proof.
  induction s as [|c s IH]; simpl; intros H.
  - repeat constructor.
  - apply andb_true_iff in H. destruct H as [Hc Hs]. specialize (IH Hs).
    destruct (is_delim c) eqn:E.
    + destruct (starts_with_delim s); [exact IH|].
      constructor; [split; reflexivity | exact IH].
    + destruct (re_split s) as [|p ps].
      * repeat constructor; simpl; rewrite ?Hc, ?E; reflexivity.
      * inversion IH as [|? ? [Hp1 Hp2] Hps]; subst.
        constructor; [|exact Hps].
        simpl. rewrite Hc, E, Hp1, Hp2. split; reflexivity.
Qed.

Lemma space_is_delim (c : ascii) : is_space c = true -> is_delim c = true.
Proof. unfold is_delim. intros ->. reflexivity. Qed.

Lemma rstrip_no_delim (s : string) :
  all_chars (fun c => negb (is_delim c)) s = true -> rstrip s = s.
Proof.
  induction s as [|c s IH]; simpl; [reflexivity|].
  intros H. apply andb_true_iff in H. destruct H as [Hc Hs].
  rewrite (IH Hs). destruct (is_space c) eqn:E; [|reflexivity].
  rewrite (space_is_delim c E) in Hc. discriminate.
Qed.

Lemma strip_no_delim (s : string) :
  all_chars (fun c => negb (is_delim c)) s = true -> strip s = s.
Proof.
  intros H. unfold strip.
  assert (Hl : lstrip s = s).
  { destruct s as [|c s]; [reflexivity|]. simpl in *.
    apply andb_true_iff in H. destruct H as [Hc _].
    destruct (is_space c) eqn:E; [|reflexivity].
    rewrite (space_is_delim c E) in Hc. discriminate. }
  rewrite Hl. apply rstrip_no_delim, H.
Qed.

Lemma split_artist_lower (name : string) :
  exists t, snd (Features.split_artist name) = lower t.
Proof.
  unfold Features.split_artist.
  destruct (contains " - " name).
  - destruct (split_once " - " name) as [[l r]|]; eexists; reflexivity.
  - destruct (contains " by " (lower name));
      [destruct (split_once " by " (lower name)) as [[l r]|]|];
      eexists; reflexivity.
Qed.

End KeywordFacts.

Module AsciiFacts.
Import PyStr.

Lemma lower_char_ascii (c : ascii) : is_ascii (lower_char c) = is_ascii c.
Proof.
  destruct c as [[|] [|] [|] [|] [|] [|] [|] [|]]; reflexivity.
Qed.

Lemma lower_ascii (s : string) :
  all_chars is_ascii s = true ->
  all_chars (fun c => is_ascii c && negb (is_upper c)) (lower s) = true.
Proof.
  induction s as [|c s IH]; simpl; [reflexivity|].
  intros H. apply andb_true_iff in H. destruct H as [Hc Hs].
  rewrite lower_char_ascii, Hc, KeywordFacts.lower_char_not_upper, (IH Hs).
  reflexivity.
Qed.

Lemma all_chars_both (f g : ascii -> bool) (s : string) :
  all_chars (fun c => f c && g c) s = true ->
  all_chars f s = true /\ all_chars g s = true.
Proof.
  induction s as [|c s IH]; simpl; [split; reflexivity|].
  intros H. apply andb_true_iff in H. destruct H as [Hc Hs].
  apply andb_true_iff in Hc. destruct Hc as [-> ->].
  destruct (IH Hs) as [-> ->]. split; reflexivity.
Qed.

Lemma drop_all (P : ascii -> bool) (n : nat) (s : string) :
  all_chars P s = true -> all_chars P (drop n s) = true.
Proof.
  revert s. induction n as [|n IH]; intros s H; [exact H|].
  destruct s as [|c s]; [exact H|]. simpl in *.
  apply andb_true_iff in H. apply IH. tauto.
Qed.

Lemma substring_all (P : ascii -> bool) (n m : nat) (s : string) :
  all_chars P s = true -> all_chars P (substring n m s) = true.
Proof.
  revert n m. induction s as [|c s IH]; intros n m H.
  - destruct n, m; reflexivity.
  - simpl in H. apply andb_true_iff in H. destruct H as [Hc Hs].
    destruct n as [|n].
    + destruct m as [|m]; [reflexivity|]. simpl. rewrite Hc.
      exact (IH 0%nat m Hs).
    + simpl. exact (IH n m Hs).
Qed.

Lemma splitext_root_all (P : ascii -> bool) (s : string) :
  all_chars P s = true -> all_chars P (splitext_root s) = true.
Proof.
  intros H. unfold splitext_root, slice.
  destruct (rfind "/" s <? rfind "." s)%Z; [|exact H].
  destruct (all_dots _); [exact H|]. apply substring_all, H.
Qed.

Lemma split_once_all (P : ascii -> bool) (sep s l r : string) :
  split_once sep s = Some (l, r) ->
  all_chars P s = true -> all_chars P r = true.
Proof.
  revert l. induction s as [|c s IH]; intros l; simpl.
  - destruct (startswith sep EmptyString); [|discriminate].
    intros [= _ <-] H. apply drop_all, H.
  - destruct (startswith sep (String c s)).
    + intros [= _ <-] H. apply (drop_all P (String.length sep) (String c s)).
      exact H.
    + destruct (split_once sep s) as [[l' r']|]; [|discriminate].
      intros [= _ <-] H. apply andb_true_iff in H.
      exact (IH l' eq_refl (proj2 H)).
Qed.

(** The text that is split into keywords is the lower-cased form of a
    part of the name. *)
Lemma split_artist_text (P : ascii -> bool) (name : string) :
  all_chars P name = true ->
  exists t, snd (Features.split_artist name) = lower t
            /\ all_chars P t = true.
Proof.
  intros H. unfold Features.split_artist.
  destruct (contains " - " name).
  - destruct (split_once " - " name) as [[l r]|] eqn:E.
    + exists r. split; [reflexivity|]. exact (split_once_all P _ _ _ _ E H).
    + exists name. split; [reflexivity | exact H].
  - destruct (contains " by " (lower name));
      [destruct (split_once " by " (lower name)) as [[l r]|]|];
      exists name; (split; [reflexivity | exact H]).
Qed.

End AsciiFacts.

(** X15.  For a song name of ASCII characters every keyword that
    [_extract_features] returns has at least 3 characters, all of them
    ASCII, none of them a separator of the split pattern (so no white
    space either) and none an upper-case letter. *)
Theorem keywords_are_clean_words (song_name : string) :
  all_chars is_ascii song_name = true ->
  Forall (fun k =>
            (3 <= String.length k)%nat
            /\ all_chars is_ascii k = true
            /\ all_chars (fun c => negb (PyStr.is_delim c)) k = true
            /\ all_chars (fun c => negb (PyStr.is_upper c)) k = true)
         (Features.keywords (Features.extract_features song_name)).
Proof.
  intros Hascii. unfold Features.extract_features.
  destruct (AsciiFacts.split_artist_text
              is_ascii (PyStr.splitext_root song_name)
              (AsciiFacts.splitext_root_all is_ascii song_name Hascii))
    as (t & Ht & Htascii).
  destruct (Features.split_artist (PyStr.splitext_root song_name))
    as [artist name_lower].
  cbn [snd] in Ht. subst name_lower. cbn [Features.keywords].
  unfold Features.keywords_of. apply Forall_forall. intros k Hk.
  apply in_map_iff in Hk. destruct Hk as (p & <- & Hp).
  apply filter_In in Hp. destruct Hp as [Hp Hlen].
  pose proof (KeywordFacts.re_split_pieces _ _
                (AsciiFacts.lower_ascii t Htascii)) as Hall.
  rewrite Forall_forall in Hall. destruct (Hall p Hp) as [Hboth Hdel].
  destruct (AsciiFacts.all_chars_both _ _ _ Hboth) as [Hasc Hup].
  rewrite (KeywordFacts.strip_no_delim p Hdel) in *.
  apply Nat.leb_le in Hlen. repeat split; assumption.
Qed.

Lemma keywords_are_clean_words_witness :
  let song := "DJ Nova - Night Drive (Live at O2).mp3" in
  all_chars is_ascii song = true
  /\ Features.keywords (Features.extract_features song)
     = ["night"; "drive"; "live"]
  /\ Forall (fun k =>
               (3 <= String.length k)%nat
               /\ all_chars is_ascii k = true
               /\ all_chars (fun c => negb (PyStr.is_delim c)) k = true
               /\ all_chars (fun c => negb (PyStr.is_upper c)) k = true)
            (Features.keywords (Features.extract_features song)).
Proof.
  split; [reflexivity|]. split; [reflexivity|].
  apply (keywords_are_clean_words "DJ Nova - Night Drive (Live at O2).mp3").
  reflexivity.
Defined.

Lemma NoDup_map_filter {A B : Type} (g : A -> B) (f : A -> bool)
      (l : list A) :
  NoDup (map g l) -> NoDup (map g (filter f l)).
Proof.
  induction l as [|x l IH]; simpl; intros H; [constructor|].
  inversion H as [|? ? Hx Hl]; subst. destruct (f x); simpl.
  - constructor; [|exact (IH Hl)].
    intros Hin. apply Hx. apply in_map_iff in Hin.
    destruct Hin as (y & Hy & Hin). apply filter_In in Hin.
    apply in_map_iff. exists y. tauto.
  - exact (IH Hl).
Qed.

Lemma match_patterns_tags (table : list (string * list string))
      (name_lower : string) :
  NoDup (map fst table) ->
  NoDup (Features.match_patterns table name_lower)
  /\ incl (Features.match_patterns table name_lower) (map fst table)
  /\ forall tag, In tag (Features.match_patterns table name_lower) ->
       exists patterns pattern,
         In (tag, patterns) table /\ In pattern patterns
         /\ PyStr.contains pattern name_lower = true.
Proof.
  intros Hnd. unfold Features.match_patterns. split; [|split].
  - apply NoDup_map_filter, Hnd.
  - intros tag Hin. apply in_map_iff in Hin.
    destruct Hin as (e & <- & He). apply filter_In in He.
    apply in_map. tauto.
  - intros tag Hin. apply in_map_iff in Hin.
    destruct Hin as ([tag' patterns] & <- & He). apply filter_In in He.
    destruct He as [He Hex]. apply existsb_exists in Hex.
    destruct Hex as (pattern & Hp & Hc). exists patterns, pattern. tauto.
Qed.

(** X16.  The genre tags of a song are genres of the fixed table, each at
    most once, and a genre is tagged only if one of its patterns occurs in
    the analysed text; the same holds of the mood tags and their table. *)
Theorem tags_come_from_the_tables (song_name : string) :
  let f := Features.extract_features song_name in
  NoDup (Features.potential_genre f)
  /\ incl (Features.potential_genre f) (map fst Features.genre_patterns)
  /\ (length (Features.potential_genre f) <= 10)%nat
  /\ NoDup (Features.mood_hints f)
  /\ incl (Features.mood_hints f) (map fst Features.mood_patterns)
  /\ (length (Features.mood_hints f) <= 5)%nat
  /\ let name_lower :=
       snd (Features.split_artist (PyStr.splitext_root song_name)) in
     (forall tag, In tag (Features.potential_genre f) ->
        exists patterns pattern,
          In (tag, patterns) Features.genre_patterns
          /\ In pattern patterns
          /\ PyStr.contains pattern name_lower = true)
     /\ (forall tag, In tag (Features.mood_hints f) ->
           exists patterns pattern,
             In (tag, patterns) Features.mood_patterns
             /\ In pattern patterns
             /\ PyStr.contains pattern name_lower = true).
Proof.
  cbv zeta. unfold Features.extract_features.
  destruct (Features.split_artist (PyStr.splitext_root song_name))
    as [artist name_lower].
  cbn [Features.potential_genre Features.mood_hints snd].
  assert (Hg : NoDup (map fst Features.genre_patterns)).
  { simpl. repeat constructor; simpl; intuition discriminate. }
  assert (Hm : NoDup (map fst Features.mood_patterns)).
  { simpl. repeat constructor; simpl; intuition discriminate. }
  destruct (match_patterns_tags Features.genre_patterns name_lower Hg)
    as (Hg1 & Hg2 & Hg3).
  destruct (match_patterns_tags Features.mood_patterns name_lower Hm)
    as (Hm1 & Hm2 & Hm3).
  repeat split; try assumption.
  - apply (NoDup_incl_length Hg1) in Hg2. exact Hg2.
  - apply (NoDup_incl_length Hm1) in Hm2. exact Hm2.
Qed.

(* ================================================================== *)
(** ** File names and batch input *)

Module NamesFacts.
Import PyStr Names.

Lemma filter_chars_all (f : ascii -> bool) (s : string) :
  all_chars f (filter_chars f s) = true.
Proof.
  induction s as [|c s IH]; simpl; [reflexivity|].
  destruct (f c) eqn:E; simpl; [rewrite E|]; exact IH.
Qed.

Lemma filter_chars_id (f : ascii -> bool) (s : string) :
  all_chars f s = true -> filter_chars f s = s.
Proof.
  induction s as [|c s IH]; simpl; [reflexivity|].
  intros H. apply andb_true_iff in H. destruct H as [-> Hs].
  rewrite (IH Hs). reflexivity.
Qed.

Lemma filter_chars_length (f : ascii -> bool) (s : string) :
  (String.length (filter_chars f s) <= String.length s)%nat.
Proof.
  induction s as [|c s IH]; simpl; [lia|]. destruct (f c); simpl; lia.
Qed.

Lemma rstrip_all (f : ascii -> bool) (s : string) :
  all_chars f s = true -> all_chars f (rstrip s) = true.
Proof.
  induction s as [|c s IH]; simpl; [reflexivity|].
  intros H. apply andb_true_iff in H. destruct H as [Hc Hs].
  destruct (is_space c && is_empty (rstrip s)); simpl; [reflexivity|].
  rewrite Hc. exact (IH Hs).
Qed.

Lemma rstrip_length (s : string) :
  (String.length (rstrip s) <= String.length s)%nat.
Proof.
  induction s as [|c s IH]; simpl; [lia|].
  destruct (is_space c && is_empty (rstrip s)); simpl; lia.
Qed.

Lemma rstrip_idempotent (s : string) : rstrip (rstrip s) = rstrip s.
Proof.
  induction s as [|c s IH]; simpl; [reflexivity|].
  destruct (is_space c && is_empty (rstrip s)) eqn:E; [reflexivity|].
  simpl. rewrite IH, E. reflexivity.
Qed.

Lemma lstrip_starts_clean (s : string) : starts_clean (lstrip s).
Proof.
  induction s as [|c s IH]; simpl; [exact I|].
  destruct (is_space c) eqn:E; [exact IH | exact E].
Qed.

Lemma rstrip_starts_clean (s : string) :
  starts_clean s -> starts_clean (rstrip s).
Proof.
  destruct s as [|c s]; simpl; [trivial|]. intros E. rewrite E. exact E.
Qed.

Lemma lstrip_clean (s : string) : starts_clean s -> lstrip s = s.
Proof.
  destruct s as [|c s]; simpl; [trivial|]. intros E. rewrite E. reflexivity.
Qed.

Lemma strip_idempotent (s : string) : strip (strip s) = strip s.
Proof.
  unfold strip.
  rewrite (lstrip_clean _ (rstrip_starts_clean _ (lstrip_starts_clean s))).
  apply rstrip_idempotent.
Qed.

Lemma findall_without_open (s : string) :
  all_chars (fun c => negb (Ascii.eqb c "[")) s = true ->
  findall_brackets None s = [].
Proof.
  induction s as [|c s IH]; simpl; [reflexivity|].
  intros H. apply andb_true_iff in H. destruct H as [Hc Hs].
  apply negb_true_iff in Hc. rewrite Hc. exact (IH Hs).
Qed.

Lemma append_assoc (a b c : string) :
  ((a ++ b) ++ c = a ++ b ++ c)%string.
Proof. induction a as [|x a IH]; simpl; [reflexivity | rewrite IH; reflexivity]. Qed.

Lemma append_empty_r (a : string) : (a ++ "" = a)%string.
Proof. induction a as [|x a IH]; simpl; [reflexivity | rewrite IH; reflexivity]. Qed.

Lemma is_empty_append (a b : string) :
  is_empty (a ++ b) = is_empty a && is_empty b.
Proof. destruct a; reflexivity. Qed.

(** Reading on inside a bracket: the text up to the closing bracket is
    the match. *)
Lemma findall_inside (read n rest : string) :
  all_chars (fun c => negb (Ascii.eqb c "]")) n = true ->
  is_empty (read ++ n) = false ->
  findall_brackets (Some read) (n ++ String "]" rest)
  = (read ++ n)%string :: findall_brackets None rest.
Proof.
  revert read. induction n as [|c n IH]; intros read Hn Hne.
  - simpl. rewrite append_empty_r in *. rewrite Hne. reflexivity.
  - simpl in Hn. apply andb_true_iff in Hn. destruct Hn as [Hc Hn].
    apply negb_true_iff in Hc. cbn [append findall_brackets]. rewrite Hc.
    rewrite (IH (read ++ String c "")%string Hn).
    + rewrite append_assoc. reflexivity.
    + rewrite append_assoc. exact Hne.
Qed.

End NamesFacts.

(** X17.  [sanitize_filename] returns only letters, digits, spaces,
    underscores and hyphens, without white space at the end, and never a
    longer text than it was given. *)
Theorem sanitize_filename_is_clean (name : string) :
  all_chars Names.is_kept (Names.sanitize_filename name) = true
  /\ PyStr.rstrip (Names.sanitize_filename name)
     = Names.sanitize_filename name
  /\ (String.length (Names.sanitize_filename name) <= String.length name)%nat.
Proof.
  unfold Names.sanitize_filename. split; [|split].
  - apply NamesFacts.rstrip_all, NamesFacts.filter_chars_all.
  - apply NamesFacts.rstrip_idempotent.
  - eapply Nat.le_trans;
      [apply NamesFacts.rstrip_length | apply NamesFacts.filter_chars_length].
Qed.

(** X18.  [sanitize_filename] is idempotent: a sanitized name is left as
    it is. *)
Theorem sanitize_filename_idempotent (name : string) :
  Names.sanitize_filename (Names.sanitize_filename name)
  = Names.sanitize_filename name.
Proof.
  destruct (sanitize_filename_is_clean name) as (Hkept & Hstrip & _).
  unfold Names.sanitize_filename at 1.
  rewrite (NamesFacts.filter_chars_id _ _ Hkept). exact Hstrip.
Qed.

(** X19.  Every song name that [parse_batch_songs] returns is non-empty
    and has no white space at either end. *)
Theorem parsed_songs_are_stripped (input_str : string) :
  Forall (fun n => PyStr.is_empty n = false /\ PyStr.strip n = n)
         (Names.parse_batch_songs input_str).
Proof.
  unfold Names.parse_batch_songs.
  destruct (Names.findall_brackets None input_str) as [|m ms].
  - destruct (PyStr.is_empty (PyStr.strip input_str)) eqn:E;
      constructor; [|constructor].
    split; [exact E | apply NamesFacts.strip_idempotent].
  - apply Forall_forall. intros n Hn. apply in_map_iff in Hn.
    destruct Hn as (x & <- & Hx). apply filter_In in Hx.
    destruct Hx as [_ Hx]. apply negb_true_iff in Hx.
    split; [exact Hx | apply NamesFacts.strip_idempotent].
Qed.

(** The batch notation [[song1][song2]...]. *)
Lemma findall_batch (names : list string) :
  Forall (fun n => PyStr.is_empty n = false
                   /\ all_chars (fun c => negb (Ascii.eqb c "]")) n = true)
         names ->
  Names.findall_brackets
    None (String.concat "" (map (fun n => "[" ++ n ++ "]")%string names))
  = names.
Proof.
  induction 1 as [|n names [Hne Hn] Hnames IH]; [reflexivity|].
  assert (E : String.concat "" (map (fun n => "[" ++ n ++ "]")%string
                                    (n :: names))
              = ("[" ++ n ++ String "]"
                   (String.concat ""
                      (map (fun n => "[" ++ n ++ "]")%string names)))%string).
  { cbn [map String.concat].
    destruct (map (fun n0 => "[" ++ n0 ++ "]")%string names) as [|x xs] eqn:Em.
    - reflexivity.
    - cbn [append]. rewrite NamesFacts.append_assoc. reflexivity. }
  rewrite E. cbn [append Names.findall_brackets Ascii.eqb Bool.eqb].
  rewrite (NamesFacts.findall_inside "" n _ Hn Hne). cbn [append].
  f_equal. exact IH.
Qed.

(** X20.  Round trip of the batch notation: for song names that are
    non-empty, have no white space at either end and contain no closing
    bracket, [parse_batch_songs] gives back exactly the names written as
    [[name1][name2]...]. *)
Theorem batch_notation_round_trip (names : list string) :
  Forall (fun n => PyStr.is_empty n = false
                   /\ PyStr.strip n = n
                   /\ all_chars (fun c => negb (Ascii.eqb c "]")) n = true)
         names ->
  Names.parse_batch_songs
    (String.concat "" (map (fun n => "[" ++ n ++ "]")%string names))
  = names.
Proof.
  intros H. unfold Names.parse_batch_songs.
  rewrite findall_batch.
  - destruct names as [|n names]; [reflexivity|].
    induction H as [|x xs (Hne & Hstrip & _) Hxs IH]; [reflexivity|].
    cbn [filter map]. rewrite Hstrip, Hne. cbn [negb map].
    rewrite Hstrip. f_equal. exact IH.
  - apply (Forall_impl _ (P := fun n => PyStr.is_empty n = false
                                /\ PyStr.strip n = n
                                /\ all_chars (fun c => negb (Ascii.eqb c "]"))
                                             n = true));
      [tauto | exact H].
Qed.

Lemma batch_notation_round_trip_witness :
  let names := ["Night Drive"; "lofi [beats"; "rock anthem"] in
  Forall (fun n => PyStr.is_empty n = false
                   /\ PyStr.strip n = n
                   /\ all_chars (fun c => negb (Ascii.eqb c "]")) n = true)
         names
  /\ Names.parse_batch_songs
       (String.concat "" (map (fun n => "[" ++ n ++ "]")%string names))
     = names.
Proof.
  assert (H : Forall (fun n => PyStr.is_empty n = false
                               /\ PyStr.strip n = n
                               /\ all_chars (fun c => negb (Ascii.eqb c "]"))
                                            n = true)
                     ["Night Drive"; "lofi [beats"; "rock anthem"]).
  { repeat constructor. }
  split; [exact H|].
  apply (batch_notation_round_trip
           ["Night Drive"; "lofi [beats"; "rock anthem"]).
  exact H.
Defined.

(** X21.  An input without an opening bracket is one song, its text
    without the white space around it, or no song at all when it is
    blank. *)
Theorem unbracketed_input_is_one_song (input_str : string) :
  all_chars (fun c => negb (Ascii.eqb c "[")) input_str = true ->
  Names.parse_batch_songs input_str
  = if PyStr.is_empty (PyStr.strip input_str) then []
    else [PyStr.strip input_str].
Proof.
  intros H. unfold Names.parse_batch_songs.
  rewrite (NamesFacts.findall_without_open input_str H). reflexivity.
Qed.

Lemma unbracketed_input_is_one_song_witness :
  all_chars (fun c => negb (Ascii.eqb c "[")) "  Night Drive ] " = true
  /\ Names.parse_batch_songs "  Night Drive ] "
     = if PyStr.is_empty (PyStr.strip "  Night Drive ] ") then []
       else [PyStr.strip "  Night Drive ] "].
Proof.
  split; [reflexivity|].
  apply (unbracketed_input_is_one_song "  Night Drive ] "). reflexivity.
Defined.

(* ================================================================== *)
(** ** Artwork *)

Module ArtworkFacts.
Import Artwork.

Lemma best_image_from (folder : string) (keywords : list string)
      (all image_files : list string) (best : option string * nat) :
  incl image_files all ->
  (forall p, fst best = Some p ->
             exists img, In img all /\ p = path_join folder img) ->
  (fst best = None -> snd best = 0%nat) ->
  let result :=
    fold_left
      (fun (best : option string * nat) img =>
         let score := match_score keywords (keywords_of (base_of img)) in
         if (snd best <? score)%nat then (Some (path_join folder img), score)
         else best)
      image_files best in
  (forall p, fst result = Some p ->
             exists img, In img all /\ p = path_join folder img)
  /\ (fst result = None -> snd result = 0%nat).
Proof.
  revert best. induction image_files as [|img rest IH];
    intros best Hincl Hbest Hzero; [split; assumption|].
  cbn [fold_left]. apply IH.
  - intros x Hx. apply Hincl. right. exact Hx.
  - destruct (snd best <? _)%nat; [|exact Hbest].
    intros p [= <-]. exists img. split; [apply Hincl; left|]; reflexivity.
  - destruct (snd best <? _)%nat; [discriminate | exact Hzero].
Qed.

Lemma best_image_spec (folder : string) (keywords image_files : list string) :
  (forall p, fst (best_image folder keywords image_files) = Some p ->
             exists img, In img image_files /\ p = path_join folder img)
  /\ (fst (best_image folder keywords image_files) = None ->
      snd (best_image folder keywords image_files) = 0%nat).
Proof.
  unfold best_image.
  apply (best_image_from folder keywords image_files image_files (None, 0%nat)).
  - apply incl_refl.
  - discriminate.
  - reflexivity.
Qed.

Lemma cover_candidates_In (base_ok : string -> string -> bool)
      (image_files : list string) (img : string) :
  In img (flat_map (fun cover_name => filter (base_ok cover_name) image_files)
                   common_covers) ->
  In img image_files.
Proof.
  intros H. apply in_flat_map in H. destruct H as (cover & _ & H).
  apply filter_In in H. tauto.
Qed.

(** What is found is an image of the folder. *)
Lemma found_among (filename folder : string) (image_files : list string)
      (p : string) :
  match find (fun img => String.eqb (base_of img) (base_of filename))
             image_files with
  | Some img => Some (path_join folder img)
  | None =>
  match find (fun img => PyStr.startswith (base_of img) (base_of filename)
                         || PyStr.startswith (base_of filename) (base_of img))
             image_files with
  | Some img => Some (path_join folder img)
  | None =>
  match
    flat_map
      (fun cover_name =>
         filter (fun img => String.eqb (base_of img) cover_name
                            || PyStr.contains cover_name (base_of img))
                image_files)
      common_covers
  with
  | img :: _ => Some (path_join folder img)
  | [] =>
      let '(best_match, best_score) :=
        best_image folder (keywords_of (base_of filename)) image_files in
      if (2 <=? best_score)%nat then best_match
      else match image_files with
           | [img] => Some (path_join folder img)
           | _ => None
           end
  end
  end
  end = Some p ->
  exists img, In img image_files /\ p = path_join folder img.
Proof.
  destruct (find _ image_files) as [img|] eqn:E1.
  { intros [= Hp]. subst p. exists img. split; [|reflexivity].
    exact (proj1 (find_some _ _ E1)). }
  match goal with
  | |- context [match find ?f image_files with Some _ => _ | None => _ end] =>
      destruct (find f image_files) as [img|] eqn:E2
  end.
  { intros [= Hp]. subst p. exists img. split; [|reflexivity].
    exact (proj1 (find_some _ _ E2)). }
  destruct (flat_map _ common_covers) as [|img rest] eqn:E3.
  2:{ intros [= Hp]. subst p. exists img. split; [|reflexivity].
      apply (cover_candidates_In
               (fun cover_name img => String.eqb (base_of img) cover_name
                                      || PyStr.contains cover_name (base_of img))).
      rewrite E3. left. reflexivity. }
  pose proof (best_image_spec folder (keywords_of (base_of filename))
                              image_files) as [Hbest _].
  destruct (best_image folder (keywords_of (base_of filename)) image_files)
    as [best_match best_score].
  destruct (2 <=? best_score)%nat.
  - intros ->. exact (Hbest p eq_refl).
  - destruct image_files as [|img [|img' rest]]; try discriminate.
    intros [= Hp]. subst p. exists img. split; [left|]; reflexivity.
Qed.

End ArtworkFacts.

(** X22.  Whatever [find_matching_artwork] returns is the path, under the
    folder, of a file of the folder that has an image extension; it
    returns nothing for an empty file name and when the folder cannot be
    listed. *)
Theorem artwork_is_an_image_of_the_folder
        (filename folder : string) (listing : option (list string))
        (p : string) :
  Artwork.find_matching_artwork filename folder listing = Some p ->
  PyStr.is_empty filename = false
  /\ exists all_files img,
       listing = Some all_files
       /\ In img all_files
       /\ Artwork.is_image img = true
       /\ p = Artwork.path_join folder img.
Proof.
  unfold Artwork.find_matching_artwork.
  destruct (PyStr.is_empty filename); [discriminate|].
  destruct listing as [all_files|]; [|discriminate].
  destruct (filter Artwork.is_image all_files) as [|img0 rest] eqn:E;
    [discriminate|].
  intros H. split; [reflexivity|].
  destruct (ArtworkFacts.found_among filename folder (img0 :: rest) p H)
    as (img & Hin & ->).
  rewrite <- E in Hin. apply filter_In in Hin.
  exists all_files, img. tauto.
Qed.

Lemma artwork_is_an_image_of_the_folder_witness :
  exists p,
    Artwork.find_matching_artwork "Night Drive.mp3" "../../Music/"
                                  (Some music_folder)
    = Some p
    /\ PyStr.is_empty "Night Drive.mp3" = false
    /\ exists all_files img,
         Some music_folder = Some all_files
         /\ In img all_files
         /\ Artwork.is_image img = true
         /\ p = Artwork.path_join "../../Music/" img.
Proof.
  exists "../../Music/night drive.jpg". split; [reflexivity|].
  apply (artwork_is_an_image_of_the_folder
           "Night Drive.mp3" "../../Music/" (Some music_folder)).
  reflexivity.
Defined.

(** X23.  When the folder holds exactly one image, every song with a
    non-empty file name gets that image, whatever the names are. *)
Theorem single_image_serves_every_song
        (filename folder : string) (all_files : list string) (img : string) :
  PyStr.is_empty filename = false ->
  filter Artwork.is_image all_files = [img] ->
  Artwork.find_matching_artwork filename folder (Some all_files)
  = Some (Artwork.path_join folder img).
Proof.
  intros Hname Himg.
  destruct (Artwork.find_matching_artwork filename folder (Some all_files))
    as [p|] eqn:E.
  - destruct (artwork_is_an_image_of_the_folder _ _ _ _ E)
      as (_ & files & img' & [= <-] & Hin & His & ->).
    assert (Hin' : In img' (filter Artwork.is_image all_files))
      by (apply filter_In; tauto).
    rewrite Himg in Hin'. destruct Hin' as [<-|[]]. reflexivity.
  - exfalso. revert E. unfold Artwork.find_matching_artwork.
    rewrite Hname, Himg.
    destruct (find _ [img]); [discriminate|].
    destruct (find _ [img]); [discriminate|].
    destruct (flat_map _ Artwork.common_covers); [|discriminate].
    pose proof (ArtworkFacts.best_image_spec
                  folder (Artwork.keywords_of (Artwork.base_of filename))
                  [img]) as [_ Hzero].
    destruct (Artwork.best_image _ _ [img]) as [best_match best_score].
    destruct (2 <=? best_score)%nat eqn:E2; [|discriminate].
    intros ->. cbn [fst snd] in Hzero. rewrite (Hzero eq_refl) in E2.
    discriminate.
Qed.

Lemma single_image_serves_every_song_witness :
  PyStr.is_empty "rock anthem.mp3" = false
  /\ filter Artwork.is_image ["rock anthem.mp3"; "Holiday.JPEG"; "a.txt"]
     = ["Holiday.JPEG"]
  /\ Artwork.find_matching_artwork "rock anthem.mp3" "music"
       (Some ["rock anthem.mp3"; "Holiday.JPEG"; "a.txt"])
     = Some (Artwork.path_join "music" "Holiday.JPEG").
Proof.
  split; [reflexivity|]. split; [reflexivity|].
  apply (single_image_serves_every_song
           "rock anthem.mp3" "music"
           ["rock anthem.mp3"; "Holiday.JPEG"; "a.txt"] "Holiday.JPEG");
    reflexivity.
Defined.

(** X24.  An image whose name without extension equals, letter case
    aside, that of the song is preferred to everything else: when the
    folder has such an image, the first of them is returned. *)
Theorem same_name_image_wins
        (filename folder : string) (all_files : list string) (img : string) :
  PyStr.is_empty filename = false ->
  In img all_files ->
  Artwork.is_image img = true ->
  Artwork.base_of img = Artwork.base_of filename ->
  exists first,
    Artwork.find_matching_artwork filename folder (Some all_files)
    = Some (Artwork.path_join folder first)
    /\ find (fun f => Artwork.is_image f
                      && String.eqb (Artwork.base_of f)
                                    (Artwork.base_of filename))
            all_files
       = Some first.
Proof.
  intros Hname Hin His Hbase.
  unfold Artwork.find_matching_artwork. rewrite Hname.
  assert (Hfind : forall l,
            find (fun f => String.eqb (Artwork.base_of f)
                                      (Artwork.base_of filename))
                 (filter Artwork.is_image l)
            = find (fun f => Artwork.is_image f
                             && String.eqb (Artwork.base_of f)
                                           (Artwork.base_of filename))
                   l).
  { induction l as [|x l IH]; [reflexivity|]. simpl.
    destruct (Artwork.is_image x); simpl; [|exact IH].
    destruct (String.eqb _ _); [reflexivity | exact IH]. }
  destruct (find (fun f => Artwork.is_image f
                           && String.eqb (Artwork.base_of f)
                                         (Artwork.base_of filename))
                 all_files) as [first|] eqn:E.
  - exists first. split; [|reflexivity].
    assert (Hne : filter Artwork.is_image all_files <> []).
    { intros Hnil. assert (H : In img (filter Artwork.is_image all_files))
        by (apply filter_In; tauto). rewrite Hnil in H. destruct H. }
    destruct (filter Artwork.is_image all_files) as [|x xs] eqn:Ef;
      [contradiction Hne; reflexivity|].
    rewrite <- Ef, Hfind, E. reflexivity.
  - exfalso. pose proof (find_none _ _ E img Hin) as Hnone.
    cbv beta in Hnone.
    rewrite His, Hbase, String.eqb_refl in Hnone. discriminate.
Qed.

Lemma same_name_image_wins_witness :
  PyStr.is_empty "Night Drive.mp3" = false
  /\ In "night drive.jpg" music_folder
  /\ Artwork.is_image "night drive.jpg" = true
  /\ Artwork.base_of "night drive.jpg" = Artwork.base_of "Night Drive.mp3"
  /\ exists first,
       Artwork.find_matching_artwork "Night Drive.mp3" "Music"
                                     (Some music_folder)
       = Some (Artwork.path_join "Music" first)
       /\ find (fun f => Artwork.is_image f
                         && String.eqb (Artwork.base_of f)
                                       (Artwork.base_of "Night Drive.mp3"))
               music_folder
          = Some first.
Proof.
  split; [reflexivity|]. split; [simpl; tauto|].
  split; [reflexivity|]. split; [reflexivity|].
  apply (same_name_image_wins "Night Drive.mp3" "Music" music_folder
                              "night drive.jpg").
  - reflexivity.
  - simpl. tauto.
  - reflexivity.
  - reflexivity.
Defined.

(** X25.  After a look-up that found nothing usable in the cache, every
    look-up of the same file less than [ARTWORK_CACHE_TTL] seconds after
    it returns what that look-up returned and leaves the cache as it is,
    whatever the folder holds by then. *)
Theorem cached_artwork_is_reused
        (t1 t2 : Q) (filename folder : string)
        (listing1 listing2 : option (list string)) (cache : Artwork.Cache) :
  cache_miss t1 filename cache ->
  t2 - t1 < Artwork.ARTWORK_CACHE_TTL ->
  let first := Artwork.get_cached_artwork t1 filename folder listing1 cache in
  fst first = Artwork.find_matching_artwork filename folder listing1
  /\ Artwork.get_cached_artwork t2 filename folder listing2 (snd first)
     = first.
Proof.
  intros Hmiss Httl. cbv zeta.
  assert (Hfirst :
    Artwork.get_cached_artwork t1 filename folder listing1 cache
    = (Artwork.find_matching_artwork filename folder listing1,
       Dict.set filename
                (Artwork.find_matching_artwork filename folder listing1, t1)
                cache)).
  { unfold Artwork.get_cached_artwork, cache_miss in *.
    destruct (Dict.get filename cache) as [[cached_path cached_time]|];
      [|reflexivity].
    apply Qltb_ge in Hmiss. rewrite Hmiss. reflexivity. }
  rewrite Hfirst. cbn [fst snd]. split; [reflexivity|].
  unfold Artwork.get_cached_artwork. rewrite DictFacts.get_set_same.
  apply Qltb_lt in Httl. rewrite Httl. reflexivity.
Qed.

Lemma cached_artwork_is_reused_witness :
  let first := Artwork.get_cached_artwork 1000 "Night Drive.mp3" "Music"
                                          (Some music_folder) [] in
  cache_miss 1000 "Night Drive.mp3" []
  /\ 1299 - 1000 < Artwork.ARTWORK_CACHE_TTL
  /\ fst first
     = Artwork.find_matching_artwork "Night Drive.mp3" "Music"
                                     (Some music_folder)
  /\ Artwork.get_cached_artwork 1299 "Night Drive.mp3" "Music" (Some [])
                                (snd first)
     = first.
Proof.
  split; [exact I|]. split; [reflexivity|].
  apply (cached_artwork_is_reused 1000 1299 "Night Drive.mp3" "Music"
                                  (Some music_folder) (Some []) []).
  - exact I.
  - reflexivity.
Defined.

(* ================================================================== *)
(** ** The live radio *)

Module RadioFacts.
Import Radio.

Lemma one_less_nonneg (n : Z) : (0 <= one_less n)%Z.
Proof.
  unfold one_less. destruct (0 <? n - 1)%Z eqn:E; [|lia].
  apply Z.ltb_lt in E. lia.
Qed.

Lemma one_less_after_one_more (n : Z) : (0 <= n)%Z -> one_less (n + 1) = n.
Proof.
  intros H. unfold one_less. destruct (0 <? n + 1 - 1)%Z eqn:E.
  - lia.
  - apply Z.ltb_ge in E. lia.
Qed.

Lemma handle_well_formed (r : Request) (e : event) (st : State) :
  radio_well_formed st -> radio_well_formed (fst (handle r e st)).
Proof.
  intros [Hn Hlive]. unfold radio_well_formed.
  destruct e; cbn [handle];
    unfold handle_connect, handle_disconnect, handle_start_radio,
      handle_stop_radio, handle_join_radio, handle_leave_radio,
      handle_host_sync, handle_host_track_change, handle_host_play_pause,
      handle_host_seek;
    repeat match goal with
           | |- context [if ?b then _ else _] => destruct b eqn:?
           end;
    cbn [fst listeners is_live host_sid];
    repeat match goal with
           | H : is_live st = _ |- _ => rewrite H
           end;
    try (split; [assumption | assumption]);
    try (split; [first [apply one_less_nonneg | lia] | assumption]);
    try (split; [lia | split; [discriminate | intros H; contradiction H;
                                              reflexivity]]);
    try (split; [lia | split; [intros _; discriminate | reflexivity]]).
Qed.

End RadioFacts.

(** X26.  Through every sequence of socket events, from whomever, the
    listener count stays non-negative and the radio is live exactly when
    it has a host, once both are so; they are so at the start. *)
Theorem radio_stays_well_formed
        (events : list (Radio.Request * Radio.event)) (st : Radio.State) :
  radio_well_formed st -> radio_well_formed (Radio.run events st).
Proof.
  unfold Radio.run. revert st.
  induction events as [|[r e] events IH]; intros st Hst; [exact Hst|].
  cbn [fold_left fst snd]. apply IH, RadioFacts.handle_well_formed, Hst.
Qed.

Lemma radio_stays_well_formed_witness :
  radio_well_formed Radio.initial
  /\ radio_well_formed (Radio.run radio_evening Radio.initial).
Proof.
  assert (H : radio_well_formed Radio.initial).
  { split; [simpl; lia|]. simpl. split; [discriminate|].
    intros H. contradiction H. reflexivity. }
  split; [exact H|].
  apply (radio_stays_well_formed radio_evening Radio.initial). exact H.
Defined.

(** X27.  A request that the handler does not let through (a start from
    an address that is not local; a stop, sync, track change, play or
    pause, or seek from a sid that is not the host's) changes nothing of
    the radio state, and nothing is sent to anyone but the caller. *)
Theorem refused_request_changes_nothing
        (r : Radio.Request) (e : Radio.event) (st : Radio.State) :
  radio_allows r e st = false ->
  fst (Radio.handle r e st) = st
  /\ Forall to_caller (snd (Radio.handle r e st)).
Proof.
  destruct e; cbn [radio_allows Radio.handle]; try discriminate;
    intros H;
    unfold Radio.handle_start_radio, Radio.handle_stop_radio,
      Radio.handle_host_sync, Radio.handle_host_track_change,
      Radio.handle_host_play_pause, Radio.handle_host_seek;
    rewrite H; cbn [fst snd]; (split; [reflexivity|]);
    repeat constructor; eexists; eexists; reflexivity.
Qed.

Lemma refused_request_changes_nothing_witness :
  let st := Radio.run [(radio_host, Radio.StartRadio [])] Radio.initial in
  let e := Radio.HostTrackChange [("track", Json.Str "other.mp3")] in
  radio_allows radio_guest e st = false
  /\ fst (Radio.handle radio_guest e st) = st
  /\ Forall to_caller (snd (Radio.handle radio_guest e st)).
Proof.
  split; [reflexivity|].
  apply (refused_request_changes_nothing
           radio_guest
           (Radio.HostTrackChange [("track", Json.Str "other.mp3")])
           (Radio.run [(radio_host, Radio.StartRadio [])] Radio.initial)).
  reflexivity.
Defined.

(** X28.  When the host stops the radio or disconnects, the radio is off
    air, has no host and no listeners, everyone is told that it ended,
    and the track and its playback position stay as they were. *)
Theorem host_leaving_ends_the_radio
        (r : Radio.Request) (e : Radio.event) (st : Radio.State) :
  Radio.is_host r st = true ->
  e = Radio.StopRadio \/ e = Radio.Disconnect ->
  let st' := fst (Radio.handle r e st) in
  Radio.is_live st' = false
  /\ Radio.host_sid st' = None
  /\ Radio.listeners st' = 0%Z
  /\ Radio.current_track st' = Radio.current_track st
  /\ Radio.current_time st' = Radio.current_time st
  /\ Radio.track_info st' = Radio.track_info st
  /\ exists payload,
       snd (Radio.handle r e st)
       = [Radio.Emit Radio.Everyone "radio_ended" payload].
Proof.
  intros Hhost [-> | ->]; cbn [Radio.handle];
    unfold Radio.handle_stop_radio, Radio.handle_disconnect;
    rewrite Hhost; cbn; repeat split; eexists; reflexivity.
Qed.

Lemma host_leaving_ends_the_radio_witness :
  let st := Radio.run [(radio_host, Radio.StartRadio []);
                       (radio_guest, Radio.JoinRadio)] Radio.initial in
  let st' := fst (Radio.handle radio_host Radio.Disconnect st) in
  Radio.is_host radio_host st = true
  /\ Radio.is_live st' = false
  /\ Radio.host_sid st' = None
  /\ Radio.listeners st' = 0%Z
  /\ Radio.current_track st' = Radio.current_track st
  /\ Radio.current_time st' = Radio.current_time st
  /\ Radio.track_info st' = Radio.track_info st
  /\ exists payload,
       snd (Radio.handle radio_host Radio.Disconnect st)
       = [Radio.Emit Radio.Everyone "radio_ended" payload].
Proof.
  split; [reflexivity|].
  apply (host_leaving_ends_the_radio
           radio_host Radio.Disconnect
           (Radio.run [(radio_host, Radio.StartRadio []);
                       (radio_guest, Radio.JoinRadio)] Radio.initial)).
  - reflexivity.
  - right. reflexivity.
Defined.

(** X29.  While the radio is live and its listener count is not negative,
    joining adds exactly one listener, and a join followed by a leave
    gives back the state there was. *)
Theorem join_then_leave_restores
        (r1 r2 : Radio.Request) (st : Radio.State) :
  Radio.is_live st = true ->
  (0 <= Radio.listeners st)%Z ->
  Radio.listeners (fst (Radio.handle r1 Radio.JoinRadio st))
  = (Radio.listeners st + 1)%Z
  /\ fst (Radio.handle r2 Radio.LeaveRadio
                       (fst (Radio.handle r1 Radio.JoinRadio st)))
     = st.
Proof.
  intros Hlive Hn. cbn [Radio.handle].
  unfold Radio.handle_join_radio, Radio.handle_leave_radio.
  rewrite Hlive. cbn [fst Radio.is_live Radio.listeners].
  cbn [fst Radio.host_sid Radio.current_track Radio.current_time
       Radio.is_playing Radio.listeners Radio.track_info].
  split; [reflexivity|].
  rewrite (RadioFacts.one_less_after_one_more _ Hn).
  destruct st; cbn in *. rewrite Hlive. reflexivity.
Qed.

Lemma join_then_leave_restores_witness :
  let st := Radio.run [(radio_host, Radio.StartRadio [])] Radio.initial in
  Radio.is_live st = true
  /\ (0 <= Radio.listeners st)%Z
  /\ Radio.listeners (fst (Radio.handle radio_guest Radio.JoinRadio st))
     = (Radio.listeners st + 1)%Z
  /\ fst (Radio.handle radio_guest Radio.LeaveRadio
                       (fst (Radio.handle radio_guest Radio.JoinRadio st)))
     = st.
Proof.
  split; [reflexivity|]. split; [simpl; lia|].
  apply (join_then_leave_restores
           radio_guest radio_guest
           (Radio.run [(radio_host, Radio.StartRadio [])] Radio.initial)).
  - reflexivity.
  - simpl. lia.
Defined.

(** X30.  While the radio is off air and has no host, no event other than
    [start_radio] changes its state, whoever sends it. *)
Theorem off_air_only_start_changes_state
        (r : Radio.Request) (e : Radio.event) (st : Radio.State) :
  radio_well_formed st ->
  Radio.is_live st = false ->
  (forall data, e <> Radio.StartRadio data) ->
  fst (Radio.handle r e st) = st.
Proof.
  intros [_ Hlive] Hoff Hstart.
  assert (Hhost : Radio.is_host r st = false).
  { unfold Radio.is_host. destruct (Radio.host_sid st) as [h|] eqn:E;
      [|reflexivity].
    assert (Radio.is_live st = true) by (apply Hlive; discriminate).
    congruence. }
  destruct e; cbn [Radio.handle];
    unfold Radio.handle_connect, Radio.handle_disconnect,
      Radio.handle_stop_radio, Radio.handle_join_radio,
      Radio.handle_leave_radio, Radio.handle_host_sync,
      Radio.handle_host_track_change, Radio.handle_host_play_pause,
      Radio.handle_host_seek;
    rewrite ?Hhost, ?Hoff; try reflexivity.
  exfalso. eapply Hstart. reflexivity.
Qed.

Lemma off_air_only_start_changes_state_witness :
  radio_well_formed Radio.initial
  /\ Radio.is_live Radio.initial = false
  /\ fst (Radio.handle radio_guest Radio.JoinRadio Radio.initial)
     = Radio.initial.
Proof.
  assert (H : radio_well_formed Radio.initial).
  { split; [simpl; lia|]. simpl. split; [discriminate|].
    intros H. contradiction H. reflexivity. }
  split; [exact H|]. split; [reflexivity|].
  apply (off_air_only_start_changes_state radio_guest Radio.JoinRadio
                                          Radio.initial).
  - exact H.
  - reflexivity.
  - intros data. discriminate.
Defined.
